(** * OpenScans Python backend: result extraction and model cache manager

    A shallow embedding of [python-backend/inference.py],
    [python-backend/model_manager.py], the task registry of
    [python-backend/config.py] and the endpoints of
    [python-backend/main.py].

    Conventions of the embedding:
    - Python [str] values are [string]s of ASCII characters;
    - Python [int] is [Z];
    - Python and numpy floats are modelled by exact rationals [Q]; rounding
      ([round(x)], [round(x, n)]) is round-half-to-even on the exact value;
    - a raised exception is a value [PyException] (class name and message);
      a call ends in one of three ways: it returns ([Ok]), it raises an
      instance of [Exception] ([Raise]), or an exception outside
      [Exception] ([SystemExit], [KeyboardInterrupt], [GeneratorExit])
      leaves it ([Exit]), which the [except Exception] clauses of the
      source do not catch; the constructor, not the class name, says on
      which side of [Exception] an exception is;
    - effects (clock, files, standard output, callbacks) are threaded
      through an explicit world by a small state-and-exception monad. *)

From Stdlib Require Import Bool Arith ZArith QArith Qround Qminmax Lia Lqa.
From Stdlib Require Import List String Ascii.
From Stdlib Require Import Sorted Permutation.
Import ListNotations.

Local Open Scope string_scope.
Local Open Scope Z_scope.

(** ** Exceptions and results *)

Record PyException : Type := mkExc {
  exc_class : string;
  exc_msg : string
}.

(** [str(e)] *)
Definition str_exc (e : PyException) : string := exc_msg e.

Definition ValueError (msg : string) : PyException := mkExc "ValueError" msg.
Definition IndexError (msg : string) : PyException := mkExc "IndexError" msg.
Definition KeyError (msg : string) : PyException := mkExc "KeyError" msg.

(** How a call ends: it returns [a]; it raises [e], an instance of
    [Exception]; or [e], an exception that is not an instance of
    [Exception], leaves it. *)
Inductive Result (A : Type) : Type :=
| Ok (a : A)
| Raise (e : PyException)
| Exit (e : PyException).
Arguments Ok {A} a.
Arguments Raise {A} e.
Arguments Exit {A} e.

Definition rbind {A B} (r : Result A) (k : A -> Result B) : Result B :=
  match r with
  | Ok a => k a
  | Raise e => Raise e
  | Exit e => Exit e
  end.

(** ** Python strings *)

Module PyStr.

Definition startswith (p s : string) : bool := String.prefix p s.

Fixpoint rev_onto (s acc : string) : string :=
  match s with
  | EmptyString => acc
  | String c s' => rev_onto s' (String c acc)
  end.

Definition reverse (s : string) : string := rev_onto s EmptyString.

Definition endswith (p s : string) : bool :=
  String.prefix (reverse p) (reverse s).

(** [s[0]] *)
Definition index0 (s : string) : Result string :=
  match s with
  | EmptyString => Raise (IndexError "string index out of range")
  | String c _ => Ok (String c EmptyString)
  end.

(** [s[1:]] *)
Definition slice_from1 (s : string) : string :=
  match s with
  | EmptyString => EmptyString
  | String _ s' => s'
  end.

(** [s.replace(old, new)] for a non-empty [old]: the occurrences of [old]
    are replaced from the left, without overlap.  [skip] counts the
    characters of a matched occurrence that are still to be dropped. *)
Fixpoint replace_from (old new : string) (skip : nat) (s : string) : string :=
  match s with
  | EmptyString => EmptyString
  | String c s' =>
      match skip with
      | S k => replace_from old new k s'
      | O =>
          if String.prefix old s
          then new ++ replace_from old new (Nat.pred (String.length old)) s'
          else String c (replace_from old new O s')
      end
  end.

Definition replace (old new s : string) : string := replace_from old new O s.

(** [s.rfind(".")] *)
Fixpoint rfind_dot_from (s : string) (i : nat) (last : option nat) : option nat :=
  match s with
  | EmptyString => last
  | String c s' =>
      rfind_dot_from s' (S i) (if Ascii.eqb c "."%char then Some i else last)
  end.

Definition rfind_dot (s : string) : option nat := rfind_dot_from s O None.

(** The blanks that [int] skips around the literal in an ASCII string:
    tab, line feed, vertical tab, form feed, carriage return and space. *)
Definition isblank (c : ascii) : bool :=
  let n := nat_of_ascii c in
  ((9 <=? n)%nat && (n <=? 13)%nat) || (n =? 32)%nat.

Fixpoint skip_blanks_left (s : string) : string :=
  match s with
  | EmptyString => EmptyString
  | String c s' => if isblank c then skip_blanks_left s' else s
  end.

Definition skip_blanks_right (s : string) : string :=
  reverse (skip_blanks_left (reverse s)).

Definition skip_blanks (s : string) : string :=
  skip_blanks_right (skip_blanks_left s).

Definition digit_val (c : ascii) : option Z :=
  let n := nat_of_ascii c in
  if ((48 <=? n)%nat && (n <=? 57)%nat) then Some (Z.of_nat (n - 48)) else None.

(** The digit part of a base-10 integer literal: decimal digits, with
    single underscores allowed between two digits. *)
Fixpoint int_digits (s : string) (acc : Z) (after_digit : bool) : option Z :=
  match s with
  | EmptyString => if after_digit then Some acc else None
  | String c s' =>
      match digit_val c with
      | Some d => int_digits s' (acc * 10 + d) true
      | None =>
          if Ascii.eqb c "_"%char && after_digit
          then int_digits s' acc false
          else None
      end
  end.

Definition int_literal (s : string) : option Z :=
  match skip_blanks s with
  | String "+"%char r => int_digits r 0 false
  | String "-"%char r => option_map Z.opp (int_digits r 0 false)
  | t => int_digits t 0 false
  end.

Definition contains (c : ascii) (s : string) : bool :=
  existsb (Ascii.eqb c) (list_ascii_of_string s).

Definition hex_digit (n : nat) : ascii :=
  nth n (list_ascii_of_string "0123456789abcdef") "0"%char.

(** One character inside [repr(s)], [q] being the quote used. *)
Definition repr_char (q c : ascii) : string :=
  let n := nat_of_ascii c in
  let backslash := ascii_of_nat 92 in
  if Ascii.eqb c backslash then String backslash (String backslash EmptyString)
  else if Ascii.eqb c q then String backslash (String q EmptyString)
  else if (n =? 9)%nat then String backslash "t"
  else if (n =? 10)%nat then String backslash "n"
  else if (n =? 13)%nat then String backslash "r"
  else if ((n <? 32)%nat || (127 <=? n)%nat)
  then String backslash
         (String "x"%char
            (String (hex_digit (n / 16)) (String (hex_digit (n mod 16)) EmptyString)))
  else String c EmptyString.

(** [repr(s)] of an ASCII string: in single quotes, or in double quotes
    when the string has a single quote and no double quote. *)
Definition repr (s : string) : string :=
  let single := "'"%char in
  let double := ascii_of_nat 34 in
  let q := if contains single s && negb (contains double s) then double else single in
  String q (String.concat EmptyString (map (repr_char q) (list_ascii_of_string s))
            ++ String q EmptyString).

(** [int(s)]: the value of the literal, or the [ValueError] of an invalid
    one.  The limit on the number of digits that an interpreter may set
    (4300 by default from Python 3.11 on) is not modelled; a file name is
    shorter. *)
Definition int (s : string) : Result Z :=
  match int_literal s with
  | Some n => Ok n
  | None => Raise (ValueError ("invalid literal for int() with base 10: " ++ repr s))
  end.

End PyStr.

(** [PurePath.stem] of a file name: the name without its last suffix. *)
Definition stem (name : string) : string :=
  match PyStr.rfind_dot name with
  | Some i =>
      if ((0 <? i)%nat && (i <? String.length name - 1)%nat)
      then String.substring 0 i name
      else name
  | None => name
  end.

(** ** Python numbers *)

(** [round(x)]: nearest integer, ties to the even one. *)
Definition py_round (x : Q) : Z :=
  let f := Qfloor x in
  match Qcompare (x - inject_Z f) (1 # 2) with
  | Lt => f
  | Gt => f + 1
  | Eq => if Z.even f then f else f + 1
  end.

(** [round(x, ndigits)], on the exact value of [x]: the program rounds the
    binary64 float it has, which at a decimal tie of the exact value can
    lie on the other side of the tie. *)
Definition py_round_ndigits (x : Q) (ndigits : positive) : Q :=
  (inject_Z (py_round (x * inject_Z (10 ^ Zpos ndigits))) / inject_Z (10 ^ Zpos ndigits))%Q.

(** [min(a, b)] on numbers: [b] when [b < a], else [a]. *)
Definition py_min (a b : Q) : Q :=
  if Qlt_le_dec b a then b else a.

(** ** [list.sort(key=...)] on keys that are pairs of integers

    The keys are computed for every element first, in list order, and an
    exception raised by the key function leaves the sort; the elements are
    then arranged by a stable sort that compares keys with the tuples' [<]. *)

Definition SortKey : Type := (Z * Z)%type.

(** [k1 < k2] on tuples of two integers *)
Definition key_lt (k1 k2 : SortKey) : bool :=
  (fst k1 <? fst k2) || ((fst k1 =? fst k2) && (snd k1 <? snd k2)).

Section ListSort.
Context {A : Type}.
Variable key : A -> Result SortKey.

Fixpoint decorate (l : list A) : Result (list (SortKey * A)) :=
  match l with
  | [] => Ok []
  | a :: l' =>
      rbind (key a) (fun k =>
      rbind (decorate l') (fun d => Ok ((k, a) :: d)))
  end.

Fixpoint insert_stable (x : SortKey * A) (l : list (SortKey * A)) : list (SortKey * A) :=
  match l with
  | [] => [x]
  | y :: l' =>
      if key_lt (fst y) (fst x) then y :: insert_stable x l' else x :: y :: l'
  end.

Definition sort_decorated (d : list (SortKey * A)) : list (SortKey * A) :=
  fold_right insert_stable [] d.

Definition list_sort (l : list A) : Result (list A) :=
  rbind (decorate l) (fun d => Ok (map snd (sort_decorated d))).
End ListSort.


(** ** The world and the monad of effectful code *)

(** A voxel grid as numpy stores it: indexed [z][y][x]. *)
Definition Array3 : Type := list (list (list Z)).

Record xyz (T : Type) : Type := XYZ { x_of : T; y_of : T; z_of : T }.
Arguments XYZ {T} _ _ _.
Arguments x_of {T} _.
Arguments y_of {T} _.
Arguments z_of {T} _.

(** A SimpleITK image of a three-dimensional volume: [GetSpacing()] and
    [GetOrigin()] are in (x, y, z) order, [GetArrayFromImage] in (z, y, x). *)
Record Image : Type := mkImage {
  GetSpacing : Q * Q * Q;
  GetOrigin : Q * Q * Q;
  GetArrayFromImage : Array3
}.

Record World : Type := mkWorld {
  (** the successive values of [time.time()] and how many were read *)
  clock : nat -> Q;
  clock_reads : nat;
  (** what [pydicom.dcmread(path)] does *)
  dicom_files : string -> Result unit;
  (** what [sitk.ReadImage(path)] does *)
  image_files : string -> Result Image;
  (** the names in a directory, in the order the directory is iterated *)
  dir_entries : string -> list string;
  (** the lines printed so far *)
  stdout : list string
}.

(** Effectful code over a world [W]: it returns or raises, and leaves a
    world behind either way. *)
Definition StM (W A : Type) : Type := W -> Result A * W.

Section Monad.
Context {W : Type}.

Definition ret {A} (a : A) : StM W A := fun w => (Ok a, w).

Definition raise {A} (e : PyException) : StM W A := fun w => (Raise e, w).

Definition bind {A B} (m : StM W A) (k : A -> StM W B) : StM W B :=
  fun w =>
    match m w with
    | (Ok a, w') => k a w'
    | (Raise e, w') => (Raise e, w')
    | (Exit e, w') => (Exit e, w')
    end.

(** [try: body  except Exception as e: handler(e)]: the handler runs for
    an instance of [Exception] only. *)
Definition try_except {A} (body : StM W A) (handler : PyException -> StM W A)
    : StM W A :=
  fun w =>
    match body w with
    | (Ok a, w') => (Ok a, w')
    | (Raise e, w') => handler e w'
    | (Exit e, w') => (Exit e, w')
    end.

Definition lift {A} (r : Result A) : StM W A := fun w => (r, w).
End Monad.

Declare Scope py_scope.
Delimit Scope py_scope with py.
Notation "x <- m ;; k" := (bind m (fun x => k))
  (at level 100, m at next level, right associativity) : py_scope.
Notation "m ;;; k" := (bind m (fun _ => k))
  (at level 100, right associativity) : py_scope.
Local Open Scope py_scope.

Definition M : Type -> Type := StM World.

Definition time_time : M Q :=
  fun w =>
    (Ok (clock w (clock_reads w)),
     mkWorld (clock w) (S (clock_reads w)) (dicom_files w) (image_files w)
             (dir_entries w) (stdout w)).

Definition print (line : string) : M unit :=
  fun w =>
    (Ok tt,
     mkWorld (clock w) (clock_reads w) (dicom_files w) (image_files w)
             (dir_entries w) (stdout w ++ [line])).

Definition pydicom_dcmread (path : string) : M unit :=
  fun w => (dicom_files w path, w).

Definition sitk_ReadImage (path : string) : M Image :=
  fun w => (image_files w path, w).

(** [Path(d) / name] as a string *)
Definition path_join (d name : string) : string := d ++ "/" ++ name.

(** [Path(d).glob("*.nii.gz")]: the names of [d] that end in [.nii.gz]. *)
Definition glob_nii_gz (d : string) : M (list string) :=
  fun w => (Ok (filter (PyStr.endswith ".nii.gz") (dir_entries w d)), w).

(** ** numpy on voxel grids *)

Module np.

Fixpoint enumerate_from {A} (i : Z) (l : list A) : list (Z * A) :=
  match l with
  | [] => []
  | a :: l' => (i, a) :: enumerate_from (i + 1) l'
  end.

Definition enumerate {A} (l : list A) : list (Z * A) := enumerate_from 0 l.

(** [np.any(a)]: some element is non-zero. *)
Definition any (a : Array3) : bool :=
  existsb (existsb (existsb (fun v => negb (v =? 0)))) a.

(** [np.argwhere(a > 0)]: the (z, y, x) indices of the positive elements,
    in storage order. *)
Definition argwhere_pos (a : Array3) : list (Z * Z * Z) :=
  flat_map (fun '(z, plane) =>
    flat_map (fun '(y, row) =>
      flat_map (fun '(x, v) => if 0 <? v then [(z, y, x)] else [])
               (enumerate row))
             (enumerate plane))
           (enumerate a).

(** [np.sum(a > 0)] *)
Definition count_pos (a : Array3) : Z :=
  fold_right Z.add 0
    (map (fun plane =>
       fold_right Z.add 0
         (map (fun row =>
            fold_right Z.add 0 (map (fun v => if 0 <? v then 1 else 0) row))
          plane))
     a).

Definition sumZ (l : list Z) : Z := fold_right Z.add 0 l.

(** the mean of a list of integers, as a float *)
Definition mean (l : list Z) : Q :=
  (inject_Z (sumZ l) / inject_Z (Z.of_nat (List.length l)))%Q.

Definition minimum (l : list Z) : Z :=
  match l with
  | [] => 0
  | a :: l' => fold_right Z.min a l'
  end.

Definition maximum (l : list Z) : Z :=
  match l with
  | [] => 0
  | a :: l' => fold_right Z.max a l'
  end.

Definition axis0 (c : list (Z * Z * Z)) : list Z := map (fun p => fst (fst p)) c.
Definition axis1 (c : list (Z * Z * Z)) : list Z := map (fun p => snd (fst p)) c.
Definition axis2 (c : list (Z * Z * Z)) : list Z := map snd c.

End np.

(** ** [inference.py]: class [VertebraeDetector] *)

Record Vertebra : Type := mkVertebra {
  label : string;
  center : xyz Z;
  center_physical : xyz Q;
  bounds_min : xyz Z;
  bounds_max : xyz Z;
  confidence : Q;
  voxel_count : Z
}.

Definition VERTEBRAE_LABELS : list string :=
  [ "vertebrae_C1"; "vertebrae_C2"; "vertebrae_C3"; "vertebrae_C4";
    "vertebrae_C5"; "vertebrae_C6"; "vertebrae_C7";
    "vertebrae_T1"; "vertebrae_T2"; "vertebrae_T3"; "vertebrae_T4";
    "vertebrae_T5"; "vertebrae_T6"; "vertebrae_T7"; "vertebrae_T8";
    "vertebrae_T9"; "vertebrae_T10"; "vertebrae_T11"; "vertebrae_T12";
    "vertebrae_L1"; "vertebrae_L2"; "vertebrae_L3"; "vertebrae_L4"; "vertebrae_L5";
    "vertebrae_S1" ].

(** [section_order = {"C": 0, "T": 1, "L": 2, "S": 3}] *)
Definition section_order : list (string * Z) :=
  [ ("C", 0); ("T", 1); ("L", 2); ("S", 3) ].

(** [d.get(k, default)] *)
Fixpoint dict_get {V} (d : list (string * V)) (k : string) (default : V) : V :=
  match d with
  | [] => default
  | (k', v) :: d' => if String.eqb k' k then v else dict_get d' k default
  end.

(** [VertebraeDetector._vertebra_sort_key] *)
Definition _vertebra_sort_key (label : string) : Result SortKey :=
  rbind (PyStr.index0 label) (fun section =>
  rbind (PyStr.int (PyStr.slice_from1 label)) (fun number =>
  Ok (dict_get section_order section 999, number))).

(** [vertebrae.sort(key=lambda v: self._vertebra_sort_key(v["label"]))] *)
Definition sort_vertebrae (vertebrae : list Vertebra) : Result (list Vertebra) :=
  list_sort (fun v => _vertebra_sort_key (label v)) vertebrae.

(** [confidence = min(labeled_voxels / 1000, 1.0)], as it is stored in the
    record: [round(float(confidence), 3)]. *)
Definition confidence_of (labeled_voxels : Z) : Q :=
  py_round_ndigits (py_min (inject_Z labeled_voxels / 1000) 1) 3.

(** Lines 170-177: the centroid [(z, y, x)] in voxel space to physical
    [(x, y, z)]. *)
Definition to_physical (spacing origin : Q * Q * Q) (centroid : Q * Q * Q) : Q * Q * Q :=
  let '(z, y, x) := centroid in
  let '(s0, s1, s2) := spacing in
  let '(o0, o1, o2) := origin in
  ((x * s0 + o0)%Q, (y * s1 + o1)%Q, (z * s2 + o2)%Q).

(** Lines 159-207: the record built from the positive voxels [coords] of a
    mask that has some. *)
Definition vertebra_record (vertebra_id : string) (mask_array : Array3)
    (coords : list (Z * Z * Z)) (spacing origin : Q * Q * Q) : Vertebra :=
  let centroid := (np.mean (np.axis0 coords), np.mean (np.axis1 coords),
                   np.mean (np.axis2 coords)) in
  let min_coords := (np.minimum (np.axis0 coords), np.minimum (np.axis1 coords),
                     np.minimum (np.axis2 coords)) in
  let max_coords := (np.maximum (np.axis0 coords), np.maximum (np.axis1 coords),
                     np.maximum (np.axis2 coords)) in
  let labeled_voxels := np.count_pos mask_array in
  let '(z, y, x) := centroid in
  let '(p0, p1, p2) := to_physical spacing origin centroid in
  {| label := vertebra_id;
     center := XYZ (py_round x) (py_round y) (py_round z);
     center_physical :=
       XYZ (py_round_ndigits p0 2) (py_round_ndigits p1 2) (py_round_ndigits p2 2);
     bounds_min := XYZ (snd min_coords) (snd (fst min_coords)) (fst (fst min_coords));
     bounds_max := XYZ (snd max_coords) (snd (fst max_coords)) (fst (fst max_coords));
     confidence := confidence_of labeled_voxels;
     voxel_count := labeled_voxels |}.

(** Lines 145-207, the body of the [try]: [None] stands for [continue],
    [Some v] for [vertebrae.append(v)]. *)
Definition read_mask (label_file vertebra_id : string) (spacing origin : Q * Q * Q)
    : M (option Vertebra) :=
  mask <- sitk_ReadImage label_file;;
  let mask_array := GetArrayFromImage mask in
  if negb (np.any mask_array) then ret None
  else
    let coords := np.argwhere_pos mask_array in
    if (List.length coords =? 0)%nat then ret None
    else ret (Some (vertebra_record vertebra_id mask_array coords spacing origin)).

(** Line 136: [label_file.stem.replace(".nii", "")] *)
Definition label_name_of (name : string) : string :=
  PyStr.replace ".nii" "" (stem name).

(** Line 143: [label_name.replace("vertebrae_", "")] *)
Definition vertebra_id_of (label_name : string) : string :=
  PyStr.replace "vertebrae_" "" label_name.

(** Lines 135-211: the loop over the files of the output directory. *)
Fixpoint parse_files (output_dir : string) (spacing origin : Q * Q * Q)
    (files : list string) (vertebrae : list Vertebra) : M (list Vertebra) :=
  match files with
  | [] => ret vertebrae
  | name :: rest =>
      let label_name := label_name_of name in
      if negb (PyStr.startswith "vertebrae_" label_name)
      then parse_files output_dir spacing origin rest vertebrae
      else
        let vertebra_id := vertebra_id_of label_name in
        found <- try_except
                   (read_mask (path_join output_dir name) vertebra_id spacing origin)
                   (fun e =>
                      print ("Warning: Failed to process " ++ label_name ++ ": "
                             ++ str_exc e);;;
                      ret None);;
        match found with
        | Some v => parse_files output_dir spacing origin rest (vertebrae ++ [v])
        | None => parse_files output_dir spacing origin rest vertebrae
        end
  end.

(** [VertebraeDetector._parse_segmentation_results] *)
Definition _parse_segmentation_results (output_dir : string) (original_image : Image)
    : M (list Vertebra) :=
  let spacing := GetSpacing original_image in
  let origin := GetOrigin original_image in
  files <- glob_nii_gz output_dir;;
  vertebrae <- parse_files output_dir spacing origin files [];;
  lift (sort_vertebrae vertebrae).

Record VertebraeDetector : Type := mkDetector {
  device : string;
  fast_mode : bool
}.

(** The result dict of [run_inference]; a key that a branch does not set
    is [None]. *)
Record InferenceResult : Type := mkInferenceResult {
  success : bool;
  vertebrae : option (list Vertebra);
  error : option string;
  processing_time_ms : Q;
  result_device : option string;
  result_fast_mode : option bool
}.

(** The keyword arguments of the call of [totalsegmentator]. *)
Record SegmentatorCall : Type := mkSegmentatorCall {
  ts_input : string;
  ts_output : string;
  ts_roi_subset : list string;
  ts_ml : bool;
  ts_nr_thr_resamp : Z;
  ts_nr_thr_saving : Z;
  ts_fast : bool;
  ts_device : string;
  ts_quiet : bool
}.

(** [VertebraeDetector.load_dicom] *)
Definition load_dicom (file_path : string) : M Image :=
  try_except
    (pydicom_dcmread file_path;;;
     image <- sitk_ReadImage file_path;;
     ret image)
    (fun e => raise (ValueError ("Failed to load DICOM file: " ++ str_exc e))).

Section RunInference.
(** The external collaborators: the segmentation model and the temporary
    directory ([tempfile.TemporaryDirectory()] and its cleanup on leaving
    the [with] block).  Each may change the world and may raise. *)
Variable totalsegmentator : SegmentatorCall -> M unit.
Variable TemporaryDirectory : M string.
Variable TemporaryDirectory_cleanup : string -> M unit.

(** [with tempfile.TemporaryDirectory() as output_dir: body] *)
Definition with_TemporaryDirectory {A} (body : string -> M A) : M A :=
  output_dir <- TemporaryDirectory;;
  fun w =>
    let (r, w') := body output_dir w in
    match TemporaryDirectory_cleanup output_dir w' with
    | (Ok _, w'') => (r, w'')
    | (Raise e, w'') => (Raise e, w'')
    | (Exit e, w'') => (Exit e, w'')
    end.

(** [roi_subset or self.VERTEBRAE_LABELS] *)
Definition roi_or_default (roi_subset : option (list string)) : list string :=
  match roi_subset with
  | None => VERTEBRAE_LABELS
  | Some [] => VERTEBRAE_LABELS
  | Some l => l
  end.

Definition elapsed_ms (start_time now : Q) : Q :=
  py_round_ndigits ((now - start_time) * 1000)%Q 2.

(** Lines 75-107: the body of the [try] of [run_inference]. *)
Definition run_inference_body (self : VertebraeDetector) (input_path : string)
    (roi_subset : option (list string)) (start_time : Q) : M InferenceResult :=
  image <- load_dicom input_path;;
  with_TemporaryDirectory (fun output_path =>
    totalsegmentator
      (mkSegmentatorCall input_path output_path (roi_or_default roi_subset)
                         true 1 1 (fast_mode self) (device self) false);;;
    results <- _parse_segmentation_results output_path image;;
    now <- time_time;;
    ret (mkInferenceResult true (Some results) None (elapsed_ms start_time now)
                           (Some (device self)) (Some (fast_mode self)))).

(** [VertebraeDetector.run_inference] *)
Definition run_inference (self : VertebraeDetector) (input_path : string)
    (roi_subset : option (list string)) : M InferenceResult :=
  start_time <- time_time;;
  try_except
    (run_inference_body self input_path roi_subset start_time)
    (fun e =>
       now <- time_time;;
       ret (mkInferenceResult false None (Some (str_exc e))
                              (elapsed_ms start_time now) None None)).

(** [detect_vertebrae] *)
Definition detect_vertebrae (dicom_path device : string) (fast_mode vertebrae_only : bool)
    : M InferenceResult :=
  let detector := mkDetector device fast_mode in
  let roi_subset := if vertebrae_only then Some VERTEBRAE_LABELS else None in
  run_inference detector dicom_path roi_subset.
End RunInference.


(** ** [config.py]: the task registry *)

Record TaskInfo : Type := mkTaskInfo {
  task_name : string;
  task_description : string;
  task_id : string;
  approximate_size_mb : Z;
  structures : list string
}.

Definition AVAILABLE_TASKS : list (string * TaskInfo) :=
  [ ("vertebrae",
     mkTaskInfo "Vertebrae Segmentation"
                "Segments all vertebrae (C1-C7, T1-T12, L1-L5, S1)"
                "total" 2048 VERTEBRAE_LABELS);
    ("total_body",
     mkTaskInfo "Total Body Segmentation"
                "Segments 104 anatomical structures"
                "total" 5120 []) ].

(** [d[k]] when [k in d] *)
Fixpoint dict_lookup {V} (d : list (string * V)) (k : string) : option V :=
  match d with
  | [] => None
  | (k', v) :: d' => if String.eqb k' k then Some v else dict_lookup d' k
  end.

Definition dict_keys {V} (d : list (string * V)) : list string := map fst d.

(** [str] of a list of strings, as an f-string shows it *)
Definition repr_list (l : list string) : string :=
  "[" ++ String.concat ", " (map (fun s => "'" ++ s ++ "'") l) ++ "]".

(** ** [model_manager.py]: class [ModelManager] *)

Module ModelManager.

(** A file tree: what is found at a path that exists. *)
#[local] Unset Elimination Schemes.
Inductive Node : Type :=
| File (st_size : Z)
| Dir (children : list (string * Node)).
#[local] Set Elimination Schemes.

(** The sum of [st_size] over the files of a tree. *)
Fixpoint tree_size (n : Node) : Z :=
  match n with
  | File size => size
  | Dir cs =>
      (fix sizes (l : list (string * Node)) : Z :=
         match l with
         | [] => 0
         | (_, c) :: l' => tree_size c + sizes l'
         end) cs
  end.

(** [sum(f.stat().st_size for f in p.rglob('*') if f.is_file())]: the
    files strictly below [p]. *)
Definition rglob_file_size (p : Node) : Z :=
  match p with
  | File _ => 0
  | Dir _ => tree_size p
  end.

(** [p / name] inside a tree *)
Definition child (name : string) (p : option Node) : option Node :=
  match p with
  | Some (Dir cs) => dict_lookup cs name
  | _ => None
  end.

(** [p.glob("*")] *)
Definition glob_star (p : Node) : list string :=
  match p with
  | File _ => []
  | Dir cs => dict_keys cs
  end.

(** A progress event, the dict handed to [progress_callback]. *)
Record Event : Type := mkEvent {
  status : string;
  message : string;
  progress : Q
}.

Record World : Type := mkWorld {
  (** [str(Path.home())] *)
  home : string;
  (** what inspecting [~/.totalsegmentator] finds: the filesystem raises,
      nothing is there, or a tree *)
  ts_home : Result (option Node);
  (** what [from totalsegmentator.python_api import totalsegmentator]
      does *)
  import_totalsegmentator : Result unit;
  (** the events the progress callback of [main.py] has queued *)
  progress_queue : list Event
}.

Definition M : Type -> Type := StM World.

(** The filesystem below [~/.totalsegmentator] as the calls see it. *)
Definition inspect_ts_home : M (option Node) := fun w => (ts_home w, w).

Definition do_import : M unit := fun w => (import_totalsegmentator w, w).

(** [shutil.rmtree(ts_cache)] on the existing node [p]: a path that is a
    file is refused; a directory is removed with all it holds.  The
    removal of a directory is taken to succeed: a tree that the process
    may not remove is not modelled. *)
Definition shutil_rmtree (p : Node) : M unit :=
  fun w =>
    match p with
    | File _ =>
        (Raise (mkExc "NotADirectoryError"
                      ("[Errno 20] Not a directory: PosixPath('" ++ home w
                       ++ "/.totalsegmentator')")), w)
    | Dir _ =>
        (Ok tt, mkWorld (home w) (Ok None) (import_totalsegmentator w)
                        (progress_queue w))
    end.

(** [main.py], [download_model.progress_generator.callback] *)
Definition callback (progress_data : Event) : M unit :=
  fun w =>
    (Ok tt, mkWorld (home w) (ts_home w) (import_totalsegmentator w)
                    (progress_queue w ++ [progress_data])).

(** The dict returned by [get_model_status]. *)
Inductive StatusDict : Type :=
| UnknownTask (error : string) (available_tasks : list string)
| ModelStatus (task name description : string) (downloaded : bool)
              (size_mb : Q) (cache_path : string) (structures : list string).

(** [status["downloaded"]] *)
Definition getitem_downloaded (s : StatusDict) : Result bool :=
  match s with
  | UnknownTask _ _ => Raise (KeyError "'downloaded'")
  | ModelStatus _ _ _ d _ _ _ => Ok d
  end.

Definition mb (bytes : Z) : Q := (inject_Z bytes / inject_Z (1024 * 1024))%Q.

(** [ModelManager.get_model_status] *)
Definition get_model_status (task : string) : M StatusDict :=
  match dict_lookup AVAILABLE_TASKS task with
  | None =>
      ret (UnknownTask ("Unknown task: " ++ task) (dict_keys AVAILABLE_TASKS))
  | Some task_info =>
      root <- inspect_ts_home;;
      h <- (fun w => (Ok (home w), w));;
      let ts_cache := child "results" (child "nnunet" root) in
      let is_downloaded :=
        match ts_cache with
        | Some p => (0 <? List.length (glob_star p))%nat
        | None => false
        end in
      let size_mb :=
        match ts_cache with
        | Some p => if is_downloaded then mb (rglob_file_size p) else 0%Q
        | None => 0%Q
        end in
      ret (ModelStatus task (task_name task_info) (task_description task_info)
             is_downloaded
             (if is_downloaded then py_round_ndigits size_mb 2
              else inject_Z (approximate_size_mb task_info))
             (h ++ "/.totalsegmentator/nnunet/results")
             (firstn 5 (structures task_info)))
  end.

(** [if progress_callback: progress_callback(event)] *)
Definition report (progress_callback : option (Event -> M unit)) (e : Event) : M unit :=
  match progress_callback with
  | Some f => f e
  | None => ret tt
  end.

(** Lines 95-114: the body of the [try] of [download_model]. *)
Definition download_model_body (task : string)
    (progress_callback : option (Event -> M unit)) : M StatusDict :=
  do_import;;;
  report progress_callback
    (mkEvent "downloading" "TotalSegmentator is downloading models..." (1 # 2));;;
  status <- get_model_status task;;
  match progress_callback with
  | Some f =>
      downloaded <- lift (getitem_downloaded status);;
      f (mkEvent (if downloaded : bool then "complete" else "ready")
                 (if downloaded then "Models ready" else "Ready for first use")
                 1)
  | None => ret tt
  end;;;
  ret status.

(** [ModelManager.download_model] *)
Definition download_model (task : string)
    (progress_callback : option (Event -> M unit)) : M StatusDict :=
  match dict_lookup AVAILABLE_TASKS task with
  | None =>
      raise (ValueError ("Unknown task: " ++ task ++ ". Available: "
                         ++ repr_list (dict_keys AVAILABLE_TASKS)))
  | Some task_info =>
      report progress_callback
        (mkEvent "preparing" ("Preparing to download " ++ task_name task_info) 0);;;
      try_except
        (download_model_body task progress_callback)
        (fun e =>
           report progress_callback
             (mkEvent "error" ("Failed to prepare models: " ++ str_exc e) 0);;;
           raise e)
  end.

(** The dict returned by [delete_model]; [freed_space_mb] is [None] when
    the dict has no such key. *)
Record DeleteResult : Type := mkDeleteResult {
  success : bool;
  delete_message : string;
  freed_space_mb : option Q
}.

(** [ModelManager.delete_model] *)
Definition delete_model (task : string) : M DeleteResult :=
  match dict_lookup AVAILABLE_TASKS task with
  | None => raise (ValueError ("Unknown task: " ++ task))
  | Some _ =>
      ts_cache <- inspect_ts_home;;
      match ts_cache with
      | Some p =>
          let size_mb := mb (rglob_file_size p) in
          shutil_rmtree p;;;
          ret (mkDeleteResult true ("Deleted " ++ task ++ " models")
                              (Some (py_round_ndigits size_mb 2)))
      | None =>
          ret (mkDeleteResult false "No models found to delete" None)
      end
  end.

(** The number of files of a tree. *)
Fixpoint tree_file_count (n : Node) : Z :=
  match n with
  | File _ => 1
  | Dir cs =>
      (fix counts (l : list (string * Node)) : Z :=
         match l with
         | [] => 0
         | (_, c) :: l' => tree_file_count c + counts l'
         end) cs
  end.

(** The number of [f in p.rglob('*')] with [f.is_file()]. *)
Definition rglob_file_count (p : Node) : Z :=
  match p with
  | File _ => 0
  | Dir _ => tree_file_count p
  end.

(** [{task: self.get_model_status(task) for task in tasks}] *)
Fixpoint statuses_of (tasks : list string) : M (list (string * StatusDict)) :=
  match tasks with
  | [] => ret []
  | task :: rest =>
      s <- get_model_status task;;
      l <- statuses_of rest;;
      ret ((task, s) :: l)
  end.

(** [ModelManager.get_all_models_status] *)
Definition get_all_models_status : M (list (string * StatusDict)) :=
  statuses_of (dict_keys AVAILABLE_TASKS).

(** The dict returned by [get_cache_stats]. *)
Record CacheStats : Type := mkCacheStats {
  cache_directory : string;
  total_size_mb : Q;
  file_count : Z;
  models : list (string * StatusDict)
}.

(** [ModelManager.get_cache_stats] *)
Definition get_cache_stats : M CacheStats :=
  ts_cache <- inspect_ts_home;;
  h <- (fun w => (Ok (home w), w));;
  let total_size :=
    match ts_cache with
    | Some p => rglob_file_size p
    | None => 0
    end in
  let file_count :=
    match ts_cache with
    | Some p => rglob_file_count p
    | None => 0
    end in
  models <- get_all_models_status;;
  ret (mkCacheStats (h ++ "/.totalsegmentator") (py_round_ndigits (mb total_size) 2)
                    file_count models).

End ModelManager.


(** ** [main.py]: the endpoints *)

(** [MAX_FILE_SIZE_MB] of [config.py] *)
Definition MAX_FILE_SIZE_MB : Z := 500.

Module Main.

(** What an endpoint gives the client: the value it returns, or the
    [HTTPException] it raises; [Escaped e] when an exception outside
    [Exception] leaves the endpoint. *)
Inductive Response (A : Type) : Type :=
| Returned (body : A)
| HTTPException (status_code : Z) (detail : string)
| Escaped (e : PyException).
Arguments Returned {A} body.
Arguments HTTPException {A} status_code detail.
Arguments Escaped {A} e.

(** [try: return call()  except Exception as e:
    raise HTTPException(status_code=500, detail=str(e))] *)
Definition or_500 {W A} (call : StM W A) : W -> Response A * W :=
  fun w =>
    match call w with
    | (Ok a, w') => (Returned a, w')
    | (Raise e, w') => (HTTPException 500 (str_exc e), w')
    | (Exit e, w') => (Escaped e, w')
    end.

(** [GET /api/models/status] *)
Definition get_model_status (task : string)
    : ModelManager.World -> Response ModelManager.StatusDict * ModelManager.World :=
  or_500 (ModelManager.get_model_status task).

(** [GET /api/models/all] *)
Definition get_all_models_status
    : ModelManager.World
      -> Response (list (string * ModelManager.StatusDict)) * ModelManager.World :=
  or_500 ModelManager.get_all_models_status.

(** [GET /api/models/cache-stats] *)
Definition get_cache_stats
    : ModelManager.World -> Response ModelManager.CacheStats * ModelManager.World :=
  or_500 ModelManager.get_cache_stats.

(** [DELETE /api/models/{task}] *)
Definition delete_model (task : string)
    : ModelManager.World -> Response ModelManager.DeleteResult * ModelManager.World :=
  or_500 (ModelManager.delete_model task).

(** The dict that one server-sent event carries; a key that the dict does
    not have is [None]. *)
Record SsePayload : Type := mkSse {
  sse_status : string;
  sse_message : option string;
  sse_progress : Q;
  sse_result : option ModelManager.StatusDict
}.

Definition sse_of_event (e : ModelManager.Event) : SsePayload :=
  mkSse (ModelManager.status e) (Some (ModelManager.message e))
        (ModelManager.progress e) None.

(** [download_model.progress_generator]: the payloads it yields, in order,
    and how it ends: exhausted, or left by an exception outside
    [Exception].  Its [progress_queue] starts empty. *)
Definition progress_generator (task : string)
    : ModelManager.World -> list SsePayload * (Result unit * ModelManager.World) :=
  fun w =>
    let w0 := ModelManager.mkWorld (ModelManager.home w) (ModelManager.ts_home w)
                                   (ModelManager.import_totalsegmentator w) [] in
    match ModelManager.download_model task (Some ModelManager.callback) w0 with
    | (Ok result, w1) =>
        (((mkSse "starting" None 0 None
           :: map sse_of_event (ModelManager.progress_queue w1))
          ++ [mkSse "complete" None 1 (Some result)])%list,
         (Ok tt, w1))
    | (Raise e, w1) =>
        ([mkSse "starting" None 0 None; mkSse "error" (Some (str_exc e)) 0 None],
         (Ok tt, w1))
    | (Exit e, w1) => ([mkSse "starting" None 0 None], (Exit e, w1))
    end.

(** [DetectVertebraeRequest] *)
Record DetectVertebraeRequest : Type := mkRequest {
  file_path : string;
  request_fast_mode : bool;
  request_device : option string
}.

(** The result dict of the endpoint: that of [detect_vertebrae] with the
    key [total_time_ms] added. *)
Record DetectResponse : Type := mkDetectResponse {
  result : InferenceResult;
  total_time_ms : Q
}.

(** The server: the world of the inference code, the files as
    [Path.exists], [Path.is_file] and [Path.stat().st_size] see them,
    [torch.cuda.is_available()], and the lines printed to [sys.stderr]. *)
Record Server : Type := mkServer {
  inference_world : World;
  path_exists : string -> bool;
  path_is_file : string -> bool;
  st_size : string -> Z;
  cuda_is_available : bool;
  stderr : list string
}.

Definition with_inference_world (s : Server) (w : World) : Server :=
  mkServer w (path_exists s) (path_is_file s) (st_size s) (cuda_is_available s)
           (stderr s).

Section DetectEndpoint.
(** The collaborators of [run_inference], [str(Path(p))] and the
    formatting of a float with one decimal ([{x:.1f}]). *)
Variable totalsegmentator : SegmentatorCall -> M unit.
Variable TemporaryDirectory : M string.
Variable TemporaryDirectory_cleanup : string -> M unit.
Variable Path_str : string -> string.
Variable format_1f : Q -> string.

(** [POST /api/detect-vertebrae] *)
Definition detect_vertebrae_endpoint (request : DetectVertebraeRequest)
    : Server -> Response DetectResponse * Server :=
  fun s =>
    let start_time := clock (inference_world s) (clock_reads (inference_world s)) in
    let w1 := snd (time_time (inference_world s)) in
    let s1 := with_inference_world s w1 in
    let path := Path_str (file_path request) in
    if negb (path_exists s1 path)
    then (HTTPException 404 ("File not found: " ++ file_path request), s1)
    else if negb (path_is_file s1 path)
    then (HTTPException 400 ("Not a file: " ++ file_path request), s1)
    else
      let file_size_mb := (inject_Z (st_size s1 path) / inject_Z (1024 * 1024))%Q in
      if Qlt_le_dec (inject_Z MAX_FILE_SIZE_MB) file_size_mb
      then (HTTPException 400 ("File too large: " ++ format_1f file_size_mb
                               ++ "MB (max: 500MB)"), s1)
      else
        let device :=
          match request_device request with
          | Some d => d
          | None => if cuda_is_available s1 then "cuda" else "cpu"
          end in
        match (r <- detect_vertebrae totalsegmentator TemporaryDirectory
                                     TemporaryDirectory_cleanup path device
                                     (request_fast_mode request) true;;
               now <- time_time;;
               ret (mkDetectResponse r
                      (py_round_ndigits ((now - start_time) * 1000)%Q 2))) w1 with
        | (Ok response, w2) => (Returned response, with_inference_world s1 w2)
        | (Raise e, w2) =>
            (HTTPException 500 ("Inference failed: " ++ str_exc e),
             mkServer w2 (path_exists s1) (path_is_file s1) (st_size s1)
                      (cuda_is_available s1)
                      (stderr s1 ++ ["Error during inference: " ++ str_exc e]))
        | (Exit e, w2) => (Escaped e, with_inference_world s1 w2)
        end.
End DetectEndpoint.

End Main.

(** ** Definitions used to state the properties *)

(** The world with more lines printed. *)
Definition add_stdout (w : World) (lines : list string) : World :=
  mkWorld (clock w) (clock_reads w) (dicom_files w) (image_files w)
          (dir_entries w) (stdout w ++ lines).

(** A name of the output directory passes the filter of line 139. *)
Definition qualifies (name : string) : bool :=
  PyStr.startswith "vertebrae_" (label_name_of name).

(** The label that [parse_files] gives the record of a qualifying file. *)
Definition label_of_file (name : string) : string :=
  vertebra_id_of (label_name_of name).

(** The line printed when the mask of [name] fails with [e]. *)
Definition warning_line (name : string) (e : PyException) : string :=
  "Warning: Failed to process " ++ label_name_of name ++ ": " ++ str_exc e.

(** What one pass of the loop of [parse_files] does with a file, read off
    the files of the world. *)
Inductive FileOutcome : Type :=
| Skipped
| Emitted (v : Vertebra)
| Warned (line : string)
| Exited (e : PyException).

Definition file_outcome (images : string -> Result Image) (output_dir : string)
    (spacing origin : Q * Q * Q) (name : string) : FileOutcome :=
  if negb (qualifies name) then Skipped
  else
    match images (path_join output_dir name) with
    | Raise e => Warned (warning_line name e)
    | Exit e => Exited e
    | Ok mask =>
        let a := GetArrayFromImage mask in
        if negb (np.any a) then Skipped
        else if (List.length (np.argwhere_pos a) =? 0)%nat then Skipped
        else Emitted (vertebra_record (label_of_file name) a (np.argwhere_pos a)
                                      spacing origin)
    end.

Definition emitted (o : FileOutcome) : list Vertebra :=
  match o with Emitted v => [v] | _ => [] end.

Definition warned (o : FileOutcome) : list string :=
  match o with Warned l => [l] | _ => [] end.

(** The loop of the parser over the outcomes of the files: it appends the
    records to [vertebrae], adds the warnings to [lines], and stops at the
    first file whose reading is left by an exception outside [Exception]. *)
Fixpoint loop_outcomes (outcomes : list FileOutcome) (vertebrae : list Vertebra)
    (lines : list string) : Result (list Vertebra) * list string :=
  match outcomes with
  | [] => (Ok vertebrae, lines)
  | Skipped :: rest => loop_outcomes rest vertebrae lines
  | Emitted v :: rest => loop_outcomes rest (vertebrae ++ [v]) lines
  | Warned line :: rest => loop_outcomes rest vertebrae (lines ++ [line])
  | Exited e :: _ => (Exit e, lines)
  end.

(** The reading of the qualifying file [name] is left by an exception
    outside [Exception]. *)
Definition interrupted (w : World) (output_dir name : string) : bool :=
  qualifies name
  && match image_files w (path_join output_dir name) with
     | Exit _ => true
     | _ => false
     end.

(** No reading of a file of the listing is interrupted. *)
Definition uninterrupted (w : World) (output_dir : string) (files : list string) : Prop :=
  Forall (fun name => interrupted w output_dir name = false) files.

(** The outcomes of the files of a listing, in the order of the listing. *)
Definition outcomes_of (w : World) (output_dir : string) (original_image : Image)
    (files : list string) : list FileOutcome :=
  map (file_outcome (image_files w) output_dir (GetSpacing original_image)
                    (GetOrigin original_image)) files.

(** The extraction with the listing of the directory given: the loop and the
    final sort of [_parse_segmentation_results]. *)
Definition extract_listing (output_dir : string) (original_image : Image)
    (files : list string) : M (list Vertebra) :=
  vertebrae <- parse_files output_dir (GetSpacing original_image)
                           (GetOrigin original_image) files [];;
  lift (sort_vertebrae vertebrae).

(** [x] may stand before [y] in a sorted list of decorated elements. *)
Definition dec_le {A} (x y : SortKey * A) : Prop := key_lt (fst y) (fst x) = false.

(** [a] may stand before [b] in a list sorted by [key]. *)
Definition key_le {A} (key : A -> Result SortKey) (a b : A) : Prop :=
  forall ka kb, key a = Ok ka -> key b = Ok kb -> key_lt kb ka = false.

(** [a] stands before [b] in [l]. *)
Definition precedes {A} (a b : A) (l : list A) : Prop :=
  exists l1 l2 l3, l = (l1 ++ a :: l2 ++ b :: l3)%list.

(** *** The anatomical order, as the specification words it

    A label is a section letter followed by a number; the sections are
    ranked C < T < L < S, and a letter outside them comes after all four;
    the numbers are compared as integers. *)

Definition spec_section_rank (c : ascii) : option Z :=
  match c with
  | "C"%char => Some 0
  | "T"%char => Some 1
  | "L"%char => Some 2
  | "S"%char => Some 3
  | _ => None
  end.

(** The place of [c] in [s], counted from [i]. *)
Fixpoint place_in (c : ascii) (s : string) (i : Z) : option Z :=
  match s with
  | EmptyString => None
  | String d s' => if Ascii.eqb c d then Some i else place_in c s' (i + 1)
  end.

(** The value of a decimal digit: its place among the ten digits. *)
Definition spec_digit (c : ascii) : option Z := place_in c "0123456789" 0.

(** The value of a string of decimal digits read after [acc]. *)
Fixpoint spec_number_from (acc : Z) (s : string) : option Z :=
  match s with
  | EmptyString => Some acc
  | String c s' =>
      match spec_digit c with
      | Some d => spec_number_from (acc * 10 + d) s'
      | None => None
      end
  end.

(** The value of a non-empty string of decimal digits. *)
Definition spec_number (s : string) : option Z :=
  match s with
  | EmptyString => None
  | _ => spec_number_from 0 s
  end.

(** A label made of one letter and a number. *)
Definition numbered_label (l : string) : Prop :=
  exists c digits n, l = String c digits /\ spec_number digits = Some n.

(** A label of one of the four sections. *)
Definition known_section (l : string) : Prop :=
  exists c digits r, l = String c digits /\ spec_section_rank c = Some r.

(** A valid label: a known section and a positive number. *)
Definition valid_label (l : string) : Prop :=
  exists c digits r n,
    l = String c digits /\ spec_section_rank c = Some r /\
    spec_number digits = Some n /\ 0 < n.

(** [l1] may stand before [l2] in anatomical order. Two labels of unknown
    sections are left unordered. *)
Definition anatomical_le (l1 l2 : string) : Prop :=
  match l1, l2 with
  | String c1 d1, String c2 d2 =>
      match spec_section_rank c1, spec_section_rank c2 with
      | Some r1, Some r2 =>
          r1 < r2 \/
          (r1 = r2 /\ exists n1 n2, spec_number d1 = Some n1 /\
                                    spec_number d2 = Some n2 /\ n1 <= n2)
      | Some _, None => True
      | None, Some _ => False
      | None, None => True
      end
  | _, _ => False
  end.

Fixpoint all_chars (p : ascii -> bool) (s : string) : bool :=
  match s with
  | EmptyString => true
  | String c s' => p c && all_chars p s'
  end.

(** A record with the given label, for examples about the order. *)
Definition labelled (l : string) : Vertebra :=
  mkVertebra l (XYZ 0 0 0) (XYZ 0%Q 0%Q 0%Q) (XYZ 0 0 0) (XYZ 0 0 0) (1 # 1000) 1.

(** The files that [glob("*.nii.gz")] yields in a directory. *)
Definition mask_files (w : World) (output_dir : string) : list string :=
  filter (PyStr.endswith ".nii.gz") (dir_entries w output_dir).

(** The records and the warnings that the loop of the parser produces for a
    listing, in the order of the listing, when it runs to the end of the
    listing. *)
Definition records_of (w : World) (output_dir : string) (original_image : Image)
    (files : list string) : list Vertebra :=
  flat_map (fun n => emitted (file_outcome (image_files w) output_dir
                                (GetSpacing original_image) (GetOrigin original_image) n))
           files.

Definition warnings_of (w : World) (output_dir : string) (original_image : Image)
    (files : list string) : list string :=
  flat_map (fun n => warned (file_outcome (image_files w) output_dir
                               (GetSpacing original_image) (GetOrigin original_image) n))
           files.

(** *** Example worlds *)

Definition unit_image (a : Array3) : Image := mkImage (1, 1, 1)%Q (0, 0, 0)%Q a.

(** A directory with two readable masks, one of them named
    [vertebrae_body.nii.gz]. *)
Definition body_world : World :=
  mkWorld (fun n => inject_Z (Z.of_nat n)) 0 (fun _ => Ok tt)
          (fun _ => Ok (mkImage (1, 1, 1)%Q (0, 0, 0)%Q [[[0; 1]]]))
          (fun _ => ["vertebrae_L1.nii.gz"; "vertebrae_body.nii.gz"]) [].

(** A directory with an empty mask for T1, a corrupt file for L2, a mask
    with four positive voxels for L1, and a file that is not a mask. *)
Definition mixed_world : World :=
  mkWorld (fun n => inject_Z (Z.of_nat n)) 0 (fun _ => Ok tt)
          (fun p =>
             if String.eqb p "out/vertebrae_L2.nii.gz"
             then Raise (mkExc "RuntimeError" "Unable to read image")
             else if String.eqb p "out/vertebrae_T1.nii.gz"
             then Ok (unit_image [[[0; 0]; [0; 0]]])
             else Ok (unit_image [[[0; 0; 0]; [0; 1; 1]]; [[0; 0; 0]; [0; 1; 1]]]))
          (fun _ => ["vertebrae_T1.nii.gz"; "vertebrae_L2.nii.gz";
                     "vertebrae_L1.nii.gz"; "notes.txt"]) [].

(** A directory with one corrupt mask and one valid mask. *)
Definition corrupt_and_valid_world : World :=
  mkWorld (fun n => inject_Z (Z.of_nat n)) 0 (fun _ => Ok tt)
          (fun p =>
             if String.eqb p "out/vertebrae_L2.nii.gz"
             then Raise (mkExc "RuntimeError" "Unable to read image")
             else Ok (unit_image [[[0; 0; 0]; [0; 1; 1]]; [[0; 0; 0]; [0; 1; 1]]]))
          (fun _ => ["vertebrae_L2.nii.gz"; "vertebrae_L1.nii.gz"]) [].

(** The invariant of a record: the centre lies inside the bounding box on
    each axis. *)
Definition within_bounds (v : Vertebra) : Prop :=
  (x_of (bounds_min v) <= x_of (center v) <= x_of (bounds_max v))
  /\ (y_of (bounds_min v) <= y_of (center v) <= y_of (bounds_max v))
  /\ (z_of (bounds_min v) <= z_of (center v) <= z_of (bounds_max v)).

(** The centre and the box of [v] are the rounded mean, the minimum and the
    maximum of the indices [coords], axis by axis (numpy's axis 2 is x). *)
Definition centre_and_box_of (coords : list (Z * Z * Z)) (v : Vertebra) : Prop :=
  center v = XYZ (py_round (np.mean (np.axis2 coords)))
                 (py_round (np.mean (np.axis1 coords)))
                 (py_round (np.mean (np.axis0 coords)))
  /\ bounds_min v = XYZ (np.minimum (np.axis2 coords)) (np.minimum (np.axis1 coords))
                        (np.minimum (np.axis0 coords))
  /\ bounds_max v = XYZ (np.maximum (np.axis2 coords)) (np.maximum (np.axis1 coords))
                        (np.maximum (np.axis0 coords)).

(** Modelled from the spec: the inverse of the physical-coordinate
    transform, [(physical[i] - origin[i]) / spacing[i]] per axis, which the
    source does not contain.  It takes a physical (x, y, z) back to a
    voxel-space (z, y, x). *)
Definition to_voxel (spacing origin : Q * Q * Q) (physical : Q * Q * Q) : Q * Q * Q :=
  let '(p0, p1, p2) := physical in
  let '(s0, s1, s2) := spacing in
  let '(o0, o1, o2) := origin in
  (((p2 - o2) / s2)%Q, ((p1 - o1) / s1)%Q, ((p0 - o0) / s0)%Q).

(** Equality of triples of rationals, as numbers. *)
Definition Qeq3 (a b : Q * Q * Q) : Prop :=
  (fst (fst a) == fst (fst b))%Q /\ (snd (fst a) == snd (fst b))%Q /\ (snd a == snd b)%Q.

Definition positive_spacing (spacing : Q * Q * Q) : Prop :=
  (0 < fst (fst spacing))%Q /\ (0 < snd (fst spacing))%Q /\ (0 < snd spacing)%Q.

(** The world after one more reading of the clock. *)
Definition tick (w : World) : World := snd (time_time w).

(** The time [time.time()] returns in [w]. *)
Definition now_of (w : World) : Q := clock w (clock_reads w).

(** The result of [run_inference] when [e] is caught in world [w], the
    call having started at [start_time]. *)
Definition failure_result (e : PyException) (start_time : Q) (w : World) : InferenceResult :=
  mkInferenceResult false None (Some (str_exc e)) (elapsed_ms start_time (now_of w))
                    None None.

(** The call of the segmentation model that [run_inference] makes. *)
Definition segmentator_call (self : VertebraeDetector) (input_path output_path : string)
    (roi_subset : option (list string)) : SegmentatorCall :=
  mkSegmentatorCall input_path output_path (roi_or_default roi_subset)
                    true 1 1 (fast_mode self) (device self) false.

(** A model that fails for lack of memory, and a temporary directory that
    is always there. *)
Definition failing_segmentator (_ : SegmentatorCall) : M unit :=
  fun w => (Raise (mkExc "RuntimeError" "CUDA out of memory"), tick w).

(** A model that ends the interpreter, as [sys.exit(1)] does: the
    exception is a [SystemExit], which is no instance of [Exception]. *)
Definition exiting_segmentator (_ : SegmentatorCall) : M unit :=
  fun w => (Exit (mkExc "SystemExit" "1"), tick w).

Definition tmp_dir : M string := ret "/tmp/tmpq1".

Definition tmp_cleanup (_ : string) : M unit := ret tt.

(** A world where the input scan loads. *)
Definition scan_world : World :=
  mkWorld (fun n => inject_Z (Z.of_nat n) * (3 # 2))%Q 0 (fun _ => Ok tt)
          (fun _ => Ok (unit_image [[[0; 1]]]))
          (fun _ => []) [].

(** A world where the input scan is unreadable. *)
Definition no_scan_world : World :=
  mkWorld (fun n => inject_Z (Z.of_nat n) * (3 # 2))%Q 0
          (fun _ => Raise (mkExc "InvalidDicomError" "File is missing DICOM header"))
          (fun _ => Ok (unit_image [[[0; 1]]]))
          (fun _ => []) [].

(** *** The model manager *)

(** The task is in the registry. *)
Definition registered (task : string) : Prop :=
  exists task_info, dict_lookup AVAILABLE_TASKS task = Some task_info.

(** The preparation step of [download_model] fails with [e]: the import of
    the runtime raises it, or the import succeeds and the inspection of the
    cache raises it. *)
Definition prepare_fails (w : ModelManager.World) (e : PyException) : Prop :=
  ModelManager.import_totalsegmentator w = Raise e
  \/ (ModelManager.import_totalsegmentator w = Ok tt
      /\ ModelManager.ts_home w = Raise e).

(** The world with more events in the queue of the sink. *)
Definition queued (w : ModelManager.World) (events : list ModelManager.Event)
    : ModelManager.World :=
  ModelManager.mkWorld (ModelManager.home w) (ModelManager.ts_home w)
                       (ModelManager.import_totalsegmentator w)
                       (ModelManager.progress_queue w ++ events).

Definition preparing_event (task_info : TaskInfo) : ModelManager.Event :=
  ModelManager.mkEvent "preparing" ("Preparing to download " ++ task_name task_info) 0.

Definition downloading_event : ModelManager.Event :=
  ModelManager.mkEvent "downloading" "TotalSegmentator is downloading models..." (1 # 2).

Definition error_event (e : PyException) : ModelManager.Event :=
  ModelManager.mkEvent "error" ("Failed to prepare models: " ++ str_exc e) 0.

(** The events that reach the sink before the error event. *)
Definition events_before_failure (task_info : TaskInfo) (w : ModelManager.World)
    : list ModelManager.Event :=
  match ModelManager.import_totalsegmentator w with
  | Ok _ => [preparing_event task_info; downloading_event]
  | _ => [preparing_event task_info]
  end.

(** A world where the runtime is not installed. *)
Definition no_runtime_world : ModelManager.World :=
  ModelManager.mkWorld "/home/user" (Ok None)
    (Raise (mkExc "ModuleNotFoundError" "No module named 'totalsegmentator'")) [].

(** A world where the cache cannot be inspected. *)
Definition unreadable_cache_world : ModelManager.World :=
  ModelManager.mkWorld "/home/user"
    (Raise (mkExc "PermissionError" "[Errno 13] Permission denied")) (Ok tt) [].

(** A world where nothing is cached. *)
Definition empty_cache_world : ModelManager.World :=
  ModelManager.mkWorld "/home/user" (Ok None) (Ok tt) [].

(** *** More definitions for properties of the parser *)

(** Equality of sort keys. *)
Definition key_eqb (k1 k2 : SortKey) : bool :=
  (fst k1 =? fst k2) && (snd k1 =? snd k2).

(** The element [a] has the sort key [k]. *)
Definition has_key {A} (key : A -> Result SortKey) (k : SortKey) (a : A) : bool :=
  match key a with
  | Ok k' => key_eqb k' k
  | _ => false
  end.

(** The file names the segmentation model writes for the default request. *)
Definition default_mask_names : list string :=
  map (fun s => s ++ ".nii.gz") VERTEBRAE_LABELS.

(** The labels of the default request. *)
Definition default_labels : list string :=
  map vertebra_id_of VERTEBRAE_LABELS.

(** The warning, if any, that the loop prints for a qualifying file. *)
Definition read_warning (w : World) (output_dir name : string) : list string :=
  match image_files w (path_join output_dir name) with
  | Raise e => [warning_line name e]
  | _ => []
  end.

(** A directory that lists the default masks in reverse order, all of them
    readable and with positive voxels. *)
Definition full_spine_world : World :=
  mkWorld (fun n => inject_Z (Z.of_nat n)) 0 (fun _ => Ok tt)
          (fun _ => Ok (unit_image [[[0; 0; 0]; [0; 1; 1]]; [[0; 0; 0]; [0; 1; 1]]]))
          (fun _ => "README.txt" :: rev default_mask_names) [].

(** A directory with two masks of equal sort key, [T2] and [T02]. *)
Definition tied_labels : list Vertebra :=
  map labelled ["T2"; "C1"; "T02"].

(** [mask_array[z][y][x]], when the index is inside the grid. *)
Definition voxel (a : Array3) (z y x : nat) : option Z :=
  match nth_error a z with
  | Some plane =>
      match nth_error plane y with
      | Some row => nth_error row x
      | None => None
      end
  | None => None
  end.

(** The voxel at [(z, y, x)] is inside the grid and positive. *)
Definition positive_voxel (a : Array3) (z y x : nat) : Prop :=
  exists val, voxel a z y x = Some val /\ 0 < val.

(** The box of [v] holds every positive voxel of [a]. *)
Definition box_encloses (a : Array3) (v : Vertebra) : Prop :=
  forall z y x,
    positive_voxel a z y x ->
    (x_of (bounds_min v) <= Z.of_nat x <= x_of (bounds_max v))
    /\ (y_of (bounds_min v) <= Z.of_nat y <= y_of (bounds_max v))
    /\ (z_of (bounds_min v) <= Z.of_nat z <= z_of (bounds_max v)).

(** Each of the six faces of the box of [v] passes through a positive
    voxel of [a]. *)
Definition box_is_tight (a : Array3) (v : Vertebra) : Prop :=
  (exists z y x, positive_voxel a z y x /\ Z.of_nat x = x_of (bounds_min v))
  /\ (exists z y x, positive_voxel a z y x /\ Z.of_nat x = x_of (bounds_max v))
  /\ (exists z y x, positive_voxel a z y x /\ Z.of_nat y = y_of (bounds_min v))
  /\ (exists z y x, positive_voxel a z y x /\ Z.of_nat y = y_of (bounds_max v))
  /\ (exists z y x, positive_voxel a z y x /\ Z.of_nat z = z_of (bounds_min v))
  /\ (exists z y x, positive_voxel a z y x /\ Z.of_nat z = z_of (bounds_max v)).

(** [a] and [b] differ by at most [eps]. *)
Definition Qclose (eps a b : Q) : Prop := (a - b <= eps)%Q /\ (b - a <= eps)%Q.

(** The centroid of the positive voxels of [a], in (z, y, x) order. *)
Definition centroid_of (a : Array3) : Q * Q * Q :=
  let coords := np.argwhere_pos a in
  (np.mean (np.axis0 coords), np.mean (np.axis1 coords), np.mean (np.axis2 coords)).

(** The result of [run_inference] when every stage returns: the parser
    gave [results] and the clock was read in [w] after it. *)
Definition success_result (self : VertebraeDetector) (results : list Vertebra)
    (start_time : Q) (w : World) : InferenceResult :=
  mkInferenceResult true (Some results) None (elapsed_ms start_time (now_of w))
                    (Some (device self)) (Some (fast_mode self)).

(** A result dict has the keys of exactly one of the two branches of
    [run_inference]. *)
Definition well_formed_result (self : VertebraeDetector) (r : InferenceResult) : Prop :=
  (success r = true
   /\ (exists results, vertebrae r = Some results)
   /\ error r = None
   /\ result_device r = Some (device self)
   /\ result_fast_mode r = Some (fast_mode self))
  \/ (success r = false
      /\ vertebrae r = None
      /\ (exists msg, error r = Some msg)
      /\ result_device r = None
      /\ result_fast_mode r = None).

(** A model that writes nothing and returns, and a cleanup that fails. *)
Definition quiet_segmentator (_ : SegmentatorCall) : M unit := ret tt.

(** A model that writes one mask, that of L1 with two positive voxels,
    into its output directory. *)
Definition writing_segmentator (call : SegmentatorCall) : M unit :=
  fun w =>
    (Ok tt,
     mkWorld (clock w) (clock_reads w) (dicom_files w)
             (fun p =>
                if String.eqb p (path_join (ts_output call) "vertebrae_L1.nii.gz")
                then Ok (unit_image [[[0; 1; 1]]])
                else image_files w p)
             (fun d =>
                if String.eqb d (ts_output call) then ["vertebrae_L1.nii.gz"]
                else dir_entries w d)
             (stdout w)).

(** A world where the reading of the scan is interrupted from the
    keyboard. *)
Definition interrupted_scan_world : World :=
  mkWorld (fun n => inject_Z (Z.of_nat n) * (3 # 2))%Q 0
          (fun _ => Exit (mkExc "KeyboardInterrupt" EmptyString))
          (fun _ => Ok (unit_image [[[0; 1]]]))
          (fun _ => []) [].

Definition failing_cleanup (_ : string) : M unit :=
  raise (mkExc "PermissionError" "[Errno 13] Permission denied: '/tmp/tmpq1'").

(** *** More definitions for properties of the model manager *)

(** [status.get("downloaded")] and [status.get("size_mb")] *)
Definition status_downloaded (s : ModelManager.StatusDict) : option bool :=
  match s with
  | ModelManager.UnknownTask _ _ => None
  | ModelManager.ModelStatus _ _ _ d _ _ _ => Some d
  end.

Definition status_size_mb (s : ModelManager.StatusDict) : option Q :=
  match s with
  | ModelManager.UnknownTask _ _ => None
  | ModelManager.ModelStatus _ _ _ _ size _ _ => Some size
  end.

(** The directory [nnunet/results] below the cache root. *)
Definition results_dir (root : option ModelManager.Node) : option ModelManager.Node :=
  ModelManager.child "results" (ModelManager.child "nnunet" root).

(** The directory of the weights exists and has an entry. *)
Definition has_weights (root : option ModelManager.Node) : bool :=
  match results_dir root with
  | Some p => (0 <? List.length (ModelManager.glob_star p))%nat
  | None => false
  end.

(** The world once the cache root is gone. *)
Definition without_cache (w : ModelManager.World) : ModelManager.World :=
  ModelManager.mkWorld (ModelManager.home w) (Ok None)
                       (ModelManager.import_totalsegmentator w)
                       (ModelManager.progress_queue w).

(** The last event of a download that succeeds. *)
Definition final_event (downloaded : bool) : ModelManager.Event :=
  ModelManager.mkEvent (if downloaded then "complete" else "ready")
                       (if downloaded then "Models ready" else "Ready for first use") 1.

(** A cache with weights of 3 000 000 bytes in two files. *)
Definition cached_tree : ModelManager.Node :=
  ModelManager.Dir
    [("nnunet",
      ModelManager.Dir
        [("results",
          ModelManager.Dir
            [("Dataset291", ModelManager.Dir
                [("model.pth", ModelManager.File 2900000);
                 ("plans.json", ModelManager.File 100000)])])])].

Definition cached_world : ModelManager.World :=
  ModelManager.mkWorld "/home/user" (Ok (Some cached_tree)) (Ok tt) [].

(** *** Definitions for properties of the endpoints *)

Definition sse_starting : Main.SsePayload := Main.mkSse "starting" None 0 None.

Definition sse_error (message : string) : Main.SsePayload :=
  Main.mkSse "error" (Some message) 0 None.

Definition sse_complete (result : ModelManager.StatusDict) : Main.SsePayload :=
  Main.mkSse "complete" None 1 (Some result).

(** The device the endpoint runs the detection on. *)
Definition chosen_device (request : Main.DetectVertebraeRequest) (s : Main.Server) : string :=
  match Main.request_device request with
  | Some d => d
  | None => if Main.cuda_is_available s then "cuda" else "cpu"
  end.

(** The server after the endpoint has read the clock once. *)
Definition after_clock_read (s : Main.Server) : Main.Server :=
  Main.with_inference_world s (tick (Main.inference_world s)).

(** A server without GPU that knows one scan of 2 MB, a directory and a
    file of 600 MB. *)
Definition test_server : Main.Server :=
  Main.mkServer scan_world
    (fun p => String.eqb p "/data/scan.dcm" || String.eqb p "/data"
              || String.eqb p "/data/huge.dcm")
    (fun p => String.eqb p "/data/scan.dcm" || String.eqb p "/data/huge.dcm")
    (fun p => if String.eqb p "/data/huge.dcm" then 629145600 else 2097152)
    false [].

Definition plain_path (p : string) : string := p.

Definition no_format (_ : Q) : string := "600.0".

(** * Properties *)

(** ** The world *)

Lemma add_stdout_nil (w : World) : add_stdout w [] = w.
Proof. destruct w; unfold add_stdout; simpl. now rewrite app_nil_r. Qed.

Lemma add_stdout_app (w : World) (l1 l2 : list string) :
  add_stdout (add_stdout w l1) l2 = add_stdout w (l1 ++ l2)%list.
Proof. unfold add_stdout; simpl. now rewrite app_assoc. Qed.

Lemma image_files_add_stdout (w : World) (l : list string) :
  image_files (add_stdout w l) = image_files w.
Proof. reflexivity. Qed.

Lemma print_spec (line : string) (w : World) :
  print line w = (Ok tt, add_stdout w [line]).
Proof. reflexivity. Qed.

(** ** The loop of the parser *)

Lemma loop_outcomes_lines (os : list FileOutcome) :
  forall (acc : list Vertebra) (lines : list string),
    loop_outcomes os acc lines
    = (fst (loop_outcomes os acc []), (lines ++ snd (loop_outcomes os acc []))%list).
Proof.
  induction os as [|o os IH]; intros acc lines; cbn [loop_outcomes].
  - cbn. now rewrite app_nil_r.
  - destruct o as [|v|line|e].
    + apply IH.
    + apply IH.
    + cbn [app]. rewrite (IH acc (lines ++ [line])%list), (IH acc [line]).
      cbn [fst snd]. now rewrite <- app_assoc.
    + cbn. now rewrite app_nil_r.
Qed.

(** Without an interrupted reading the loop returns: it has appended the
    records and added the warnings. *)
Lemma loop_outcomes_returns (os : list FileOutcome) :
  forall (acc : list Vertebra) (lines : list string),
    Forall (fun o => forall e, o <> Exited e) os ->
    loop_outcomes os acc lines
    = (Ok (acc ++ flat_map emitted os)%list, (lines ++ flat_map warned os)%list).
Proof.
  induction os as [|o os IH]; intros acc lines Hno; cbn [loop_outcomes flat_map].
  - now rewrite !app_nil_r.
  - inversion Hno as [|? ? Ho Hos]; subst.
    destruct o as [|v|line|e]; cbn [emitted warned app].
    + now apply IH.
    + rewrite IH by assumption. now rewrite <- app_assoc.
    + rewrite IH by assumption. now rewrite <- app_assoc.
    + exfalso. now apply (Ho e).
Qed.

(** A loop that returns met no interrupted reading. *)
Lemma loop_outcomes_ok (os : list FileOutcome) :
  forall (acc : list Vertebra) (lines : list string) (vs : list Vertebra),
    fst (loop_outcomes os acc lines) = Ok vs ->
    Forall (fun o => forall e, o <> Exited e) os.
Proof.
  induction os as [|o os IH]; intros acc lines vs H; [constructor|].
  cbn [loop_outcomes] in H.
  destruct o as [|v|line|e]; try (constructor; [discriminate | eapply IH; eassumption]).
  discriminate H.
Qed.

(** The loop does not raise an instance of [Exception]. *)
Lemma loop_outcomes_no_raise (os : list FileOutcome) :
  forall (acc : list Vertebra) (lines : list string) (e : PyException),
    fst (loop_outcomes os acc lines) <> Raise e.
Proof.
  induction os as [|o os IH]; intros acc lines e; cbn [loop_outcomes].
  - discriminate.
  - destruct o as [|v|line|e0]; try apply IH. discriminate.
Qed.

(** A skipped file can be left out of the listing. *)
Lemma loop_outcomes_skip (os1 os2 : list FileOutcome) :
  forall (acc : list Vertebra) (lines : list string),
    loop_outcomes (os1 ++ Skipped :: os2) acc lines = loop_outcomes (os1 ++ os2) acc lines.
Proof.
  induction os1 as [|o os1 IH]; intros acc lines; cbn [app loop_outcomes]; [reflexivity|].
  destruct o; try apply IH. reflexivity.
Qed.

(** A file that gives a warning can be left out of the listing without a
    change to what the loop returns. *)
Lemma loop_outcomes_warned (os1 os2 : list FileOutcome) (line : string) :
  forall (acc : list Vertebra) (lines : list string),
    fst (loop_outcomes (os1 ++ Warned line :: os2) acc lines)
    = fst (loop_outcomes (os1 ++ os2) acc lines).
Proof.
  induction os1 as [|o os1 IH]; intros acc lines; cbn [app loop_outcomes].
  - rewrite (loop_outcomes_lines os2 acc (lines ++ [line])%list),
      (loop_outcomes_lines os2 acc lines). reflexivity.
  - destruct o; try apply IH. reflexivity.
Qed.

(** The loop prints the warning of a file that it reaches. *)
Lemma loop_outcomes_reaches (os1 os2 : list FileOutcome) (line : string) :
  Forall (fun o => forall e, o <> Exited e) os1 ->
  forall (acc : list Vertebra) (lines : list string),
    exists acc',
      snd (loop_outcomes (os1 ++ Warned line :: os2) acc lines)
      = (lines ++ flat_map warned os1 ++ line :: snd (loop_outcomes os2 acc' []))%list.
Proof.
  induction 1 as [|o os1 Ho _ IH]; intros acc lines; cbn [app loop_outcomes flat_map].
  - exists acc. rewrite (loop_outcomes_lines os2 acc (lines ++ [line])%list).
    cbn [snd]. now rewrite <- app_assoc.
  - destruct o as [|v|l|e]; cbn [warned app].
    + apply IH.
    + apply IH.
    + destruct (IH acc (lines ++ [l])%list) as [acc' ->].
      exists acc'. now rewrite <- app_assoc.
    + now contradiction (Ho e).
Qed.

Section ParseFiles.
Variables (output_dir : string) (spacing origin : Q * Q * Q).

(** One pass of the loop, as its outcome. *)
Lemma read_mask_step (name : string) (w : World) :
  qualifies name = true ->
  try_except
    (read_mask (path_join output_dir name) (label_of_file name) spacing origin)
    (fun e => print (warning_line name e);;; ret None) w
  = match file_outcome (image_files w) output_dir spacing origin name with
    | Exited e => (Exit e, w)
    | Emitted v => (Ok (Some v), w)
    | Warned line => (Ok None, add_stdout w [line])
    | Skipped => (Ok None, w)
    end.
Proof.
  intros Hq. unfold try_except, read_mask, file_outcome, bind, sitk_ReadImage.
  rewrite Hq; simpl.
  destruct (image_files w (path_join output_dir name)) as [mask|e|e]; simpl.
  - destruct (np.any (GetArrayFromImage mask)); simpl;
      [destruct (List.length (np.argwhere_pos (GetArrayFromImage mask)) =? 0)%nat; simpl|];
      reflexivity.
  - reflexivity.
  - reflexivity.
Qed.

(** The loop of [parse_files] is the loop over the outcomes of the files. *)
Lemma parse_files_loop (files : list string) :
  forall (acc : list Vertebra) (w : World),
    parse_files output_dir spacing origin files acc w
    = (fst (loop_outcomes (map (file_outcome (image_files w) output_dir spacing origin)
                               files) acc []),
       add_stdout w
         (snd (loop_outcomes (map (file_outcome (image_files w) output_dir spacing origin)
                                  files) acc []))).
Proof.
  induction files as [|name rest IH]; intros acc w.
  - cbn. unfold ret. now rewrite add_stdout_nil.
  - cbn [parse_files map loop_outcomes].
    destruct (qualifies name) eqn:Hq.
    + unfold qualifies in Hq. rewrite Hq. cbn [negb].
      unfold bind at 1.
      change (vertebra_id_of (label_name_of name)) with (label_of_file name).
      pose proof (read_mask_step name w Hq) as Hs.
      unfold warning_line in Hs. cbv beta in Hs. rewrite Hs. clear Hs.
      destruct (file_outcome (image_files w) output_dir spacing origin name) eqn:Ho.
      * apply IH.
      * apply IH.
      * rewrite IH. cbn [image_files add_stdout].
        rewrite (loop_outcomes_lines _ acc [line]). cbn [fst snd].
        now rewrite add_stdout_app.
      * cbn. now rewrite add_stdout_nil.
    + assert (Ho : file_outcome (image_files w) output_dir spacing origin name = Skipped)
        by (unfold file_outcome; now rewrite Hq).
      unfold qualifies in Hq. rewrite Hq. cbn [negb].
      rewrite IH, Ho. reflexivity.
Qed.

Lemma outcome_not_exited (w : World) (name : string) :
  interrupted w output_dir name = false ->
  forall e, file_outcome (image_files w) output_dir spacing origin name <> Exited e.
Proof.
  unfold interrupted, file_outcome. intros H e.
  destruct (qualifies name); cbn [negb andb] in *; [|discriminate].
  destruct (image_files w (path_join output_dir name)) as [mask|e0|e0];
    [|discriminate|discriminate H].
  destruct (negb (np.any (GetArrayFromImage mask))); [discriminate|].
  destruct (List.length (np.argwhere_pos (GetArrayFromImage mask)) =? 0)%nat; discriminate.
Qed.

Lemma outcome_exited (w : World) (name : string) :
  (forall e, file_outcome (image_files w) output_dir spacing origin name <> Exited e) ->
  interrupted w output_dir name = false.
Proof.
  unfold interrupted, file_outcome. intros H.
  destruct (qualifies name); cbn [negb andb] in *; [|reflexivity].
  destruct (image_files w (path_join output_dir name)) as [mask|e0|e0];
    [reflexivity|reflexivity|].
  exfalso. now apply (H e0).
Qed.

Lemma uninterrupted_outcomes (w : World) (files : list string) :
  uninterrupted w output_dir files <->
  Forall (fun o => forall e, o <> Exited e)
         (map (file_outcome (image_files w) output_dir spacing origin) files).
Proof.
  unfold uninterrupted. rewrite Forall_map. split; apply Forall_impl; intros name.
  - apply outcome_not_exited.
  - apply outcome_exited.
Qed.

(** Without an interrupted reading the loop returns: it appends the
    records of the files that have one and prints the warnings of the
    files that fail. *)
Lemma parse_files_spec (files : list string) :
  forall (acc : list Vertebra) (w : World),
    uninterrupted w output_dir files ->
    parse_files output_dir spacing origin files acc w
    = (Ok (acc ++ flat_map (fun n => emitted (file_outcome (image_files w) output_dir
                                                            spacing origin n)) files)%list,
       add_stdout w (flat_map (fun n => warned (file_outcome (image_files w) output_dir
                                                             spacing origin n)) files)).
Proof.
  intros acc w Hu. rewrite parse_files_loop.
  apply uninterrupted_outcomes in Hu.
  rewrite (loop_outcomes_returns _ acc [] Hu). cbn [fst snd app].
  rewrite !flat_map_concat_map, !map_map. reflexivity.
Qed.
End ParseFiles.

(** ** [list.sort(key=...)] *)

Lemma key_lt_spec (k1 k2 : SortKey) :
  key_lt k1 k2 = true <-> fst k1 < fst k2 \/ (fst k1 = fst k2 /\ snd k1 < snd k2).
Proof.
  unfold key_lt.
  rewrite orb_true_iff, andb_true_iff, !Z.ltb_lt, Z.eqb_eq. reflexivity.
Qed.

Lemma key_lt_false (k1 k2 : SortKey) :
  key_lt k2 k1 = false <-> fst k1 < fst k2 \/ (fst k1 = fst k2 /\ snd k1 <= snd k2).
Proof.
  rewrite <- not_true_iff_false, key_lt_spec. lia.
Qed.

Lemma key_lt_asym (k1 k2 : SortKey) : key_lt k1 k2 = true -> key_lt k2 k1 = false.
Proof. rewrite key_lt_spec, key_lt_false. lia. Qed.

Lemma key_le_trans (k1 k2 k3 : SortKey) :
  key_lt k2 k1 = false -> key_lt k3 k2 = false -> key_lt k3 k1 = false.
Proof. rewrite !key_lt_false. lia. Qed.

Section ListSortFacts.
Context {A : Type}.
Variable key : A -> Result SortKey.

Lemma insert_stable_perm (x : SortKey * A) (l : list (SortKey * A)) :
  Permutation (x :: l) (insert_stable x l).
Proof.
  induction l as [|y l IH]; cbn [insert_stable].
  - reflexivity.
  - destruct (key_lt (fst y) (fst x)).
    + rewrite perm_swap. now apply perm_skip.
    + reflexivity.
Qed.

Lemma sort_decorated_perm (d : list (SortKey * A)) :
  Permutation d (sort_decorated d).
Proof.
  induction d as [|x d IH]; cbn [sort_decorated fold_right].
  - reflexivity.
  - etransitivity; [apply perm_skip, IH | apply insert_stable_perm].
Qed.

Lemma insert_stable_sorted (x : SortKey * A) (l : list (SortKey * A)) :
  StronglySorted dec_le l -> StronglySorted dec_le (insert_stable x l).
Proof.
  induction 1 as [|y l Hs IH Hall]; cbn [insert_stable].
  - repeat constructor.
  - destruct (key_lt (fst y) (fst x)) eqn:Hlt.
    + constructor; [exact IH|].
      apply (Permutation_Forall (insert_stable_perm x l)).
      constructor; [|exact Hall].
      unfold dec_le. now apply key_lt_asym.
    + constructor; [now constructor|].
      constructor; [exact Hlt|].
      eapply Forall_impl; [|exact Hall].
      intros z Hz. unfold dec_le in *. eapply key_le_trans; eassumption.
Qed.

Lemma sort_decorated_sorted (d : list (SortKey * A)) :
  StronglySorted dec_le (sort_decorated d).
Proof.
  induction d as [|x d IH]; cbn [sort_decorated fold_right].
  - constructor.
  - now apply insert_stable_sorted.
Qed.

Lemma decorate_ok (l : list A) (d : list (SortKey * A)) :
  decorate key l = Ok d ->
  map snd d = l /\ Forall (fun p => key (snd p) = Ok (fst p)) d.
Proof.
  revert d. induction l as [|a l IH]; cbn [decorate]; intros d H.
  - inversion H; subst. split; constructor.
  - destruct (key a) as [k|e|e] eqn:Hk; cbn [rbind] in H; [|discriminate|discriminate].
    destruct (decorate key l) as [d'|e|e]; cbn [rbind] in H; [|discriminate|discriminate].
    inversion H; subst. destruct (IH d' eq_refl) as [Hm Hf].
    split; [cbn; now rewrite Hm | now constructor].
Qed.

Lemma decorate_defined (l : list A) :
  Forall (fun a => exists k, key a = Ok k) l -> exists d, decorate key l = Ok d.
Proof.
  induction 1 as [|a l [k Hk] _ [d Hd]]; cbn [decorate].
  - now exists [].
  - rewrite Hk, Hd. cbn. now eexists.
Qed.

Lemma decorate_raises (l : list A) (a : A) (e : PyException) :
  (forall x b, key x <> Exit b) ->
  In a l -> key a = Raise e -> exists e', decorate key l = Raise e'.
Proof.
  intros Hno. induction l as [|b l IH]; intros Hin Hk; [contradiction|].
  cbn [decorate]. destruct (key b) as [k|e'|e'] eqn:Hb; cbn [rbind];
    [|now eexists|now apply Hno in Hb].
  destruct Hin as [->|Hin]; [congruence|].
  destruct (IH Hin Hk) as [e'' ->]. cbn. now eexists.
Qed.

Lemma StronglySorted_map_snd (d : list (SortKey * A)) :
  Forall (fun p => key (snd p) = Ok (fst p)) d ->
  StronglySorted dec_le d -> StronglySorted (key_le key) (map snd d).
Proof.
  intros Hf Hs. induction Hs as [|x d Hs IH Hall]; cbn [map].
  - constructor.
  - inversion Hf as [|? ? Hx Hd]; subst.
    constructor; [now apply IH|].
    rewrite Forall_map. rewrite Forall_forall in *.
    intros y Hy ka kb Ha Hb.
    rewrite Hx in Ha. rewrite (Hd y Hy) in Hb.
    inversion Ha; inversion Hb; subst. now apply Hall.
Qed.

(** A sort that returns gives a permutation of the list, sorted by key. *)
Lemma list_sort_ok (l out : list A) :
  list_sort key l = Ok out ->
  Permutation l out /\ StronglySorted (key_le key) out.
Proof.
  unfold list_sort. destruct (decorate key l) as [d|e|e] eqn:Hd; cbn [rbind];
    [|discriminate|discriminate].
  intros H; inversion H; subst; clear H.
  destruct (decorate_ok _ _ Hd) as [Hm Hf]. split.
  - rewrite <- Hm. apply Permutation_map, sort_decorated_perm.
  - apply StronglySorted_map_snd; [|apply sort_decorated_sorted].
    apply (Permutation_Forall (sort_decorated_perm d) Hf).
Qed.

(** The sort returns when every key is defined. *)
Lemma list_sort_defined (l : list A) :
  Forall (fun a => exists k, key a = Ok k) l -> exists out, list_sort key l = Ok out.
Proof.
  intros H. destruct (decorate_defined l H) as [d Hd].
  unfold list_sort. rewrite Hd. cbn. now eexists.
Qed.

(** The sort raises as soon as the key of one element does. *)
Lemma list_sort_raises (l : list A) (a : A) (e : PyException) :
  (forall x b, key x <> Exit b) ->
  In a l -> key a = Raise e -> exists e', list_sort key l = Raise e'.
Proof.
  intros Hno Hin Hk. destruct (decorate_raises l a e Hno Hin Hk) as [e' He'].
  unfold list_sort. rewrite He'. cbn. now eexists.
Qed.

(** In a sorted list an element with a strictly smaller key stands before
    one with a larger key. *)
Lemma sorted_precedes (out : list A) (a b : A) (ka kb : SortKey) :
  StronglySorted (key_le key) out -> In a out -> In b out ->
  key a = Ok ka -> key b = Ok kb -> key_lt ka kb = true ->
  exists l1 l2 l3, out = (l1 ++ a :: l2 ++ b :: l3)%list.
Proof.
  intros Hs Ha Hb Hka Hkb Hlt.
  induction Hs as [|x out Hs IH Hall]; [contradiction|].
  destruct Ha as [->|Ha].
  - destruct Hb as [->|Hb].
    + rewrite Hka in Hkb. inversion Hkb; subst.
      apply key_lt_asym in Hlt as Hlt'. congruence.
    + destruct (in_split _ _ Hb) as [l2 [l3 ->]].
      now exists [], l2, l3.
  - destruct Hb as [->|Hb].
    + rewrite Forall_forall in Hall. specialize (Hall a Ha kb ka Hkb Hka). congruence.
    + destruct (IH Ha Hb) as [l1 [l2 [l3 ->]]].
      now exists (x :: l1), l2, l3.
Qed.
End ListSortFacts.

(** ** Integer literals *)

Ltac ascii_cases c :=
  destruct c as [[] [] [] [] [] [] [] []].

Lemma spec_digit_digit_val (c : ascii) : spec_digit c = PyStr.digit_val c.
Proof. ascii_cases c; reflexivity. Qed.

Lemma digit_not_blank (c : ascii) (d : Z) :
  spec_digit c = Some d -> PyStr.isblank c = false.
Proof. ascii_cases c; simpl; intros H; try discriminate H; reflexivity. Qed.

Lemma append_empty_r (s : string) : s ++ "" = s.
Proof. induction s as [|c s IH]; simpl; [reflexivity | now rewrite IH]. Qed.

Lemma rev_onto_rev_onto (s a b : string) :
  PyStr.rev_onto (PyStr.rev_onto s a) b = PyStr.rev_onto a (s ++ b).
Proof.
  revert a b. induction s as [|c s IH]; intros a b; simpl.
  - reflexivity.
  - now rewrite IH.
Qed.

Lemma reverse_involutive (s : string) : PyStr.reverse (PyStr.reverse s) = s.
Proof.
  unfold PyStr.reverse. rewrite rev_onto_rev_onto. simpl. apply append_empty_r.
Qed.

Lemma all_chars_rev_onto (p : ascii -> bool) (s acc : string) :
  all_chars p (PyStr.rev_onto s acc) = all_chars p s && all_chars p acc.
Proof.
  revert acc. induction s as [|c s IH]; intros acc; simpl.
  - reflexivity.
  - rewrite IH. simpl. now rewrite andb_assoc, (andb_comm (all_chars p s)).
Qed.

Lemma skip_left_no_blank (s : string) :
  all_chars (fun c => negb (PyStr.isblank c)) s = true -> PyStr.skip_blanks_left s = s.
Proof.
  destruct s as [|c s]; simpl; [reflexivity|].
  rewrite andb_true_iff, negb_true_iff. now intros [-> _].
Qed.

Lemma skip_blanks_no_blank (s : string) :
  all_chars (fun c => negb (PyStr.isblank c)) s = true -> PyStr.skip_blanks s = s.
Proof.
  intros H. unfold PyStr.skip_blanks, PyStr.skip_blanks_right.
  rewrite (skip_left_no_blank s H), skip_left_no_blank.
  - apply reverse_involutive.
  - unfold PyStr.reverse. rewrite all_chars_rev_onto, H. reflexivity.
Qed.

Lemma spec_number_from_no_blank (s : string) :
  forall acc n, spec_number_from acc s = Some n ->
                all_chars (fun c => negb (PyStr.isblank c)) s = true.
Proof.
  induction s as [|c s IH]; intros acc n H; simpl in *; [reflexivity|].
  destruct (spec_digit c) as [d|] eqn:Hd; [|discriminate].
  rewrite (digit_not_blank c d Hd). simpl. eapply IH; eassumption.
Qed.

Lemma int_digits_number (s : string) :
  forall acc b n,
    spec_number_from acc s = Some n -> s <> "" \/ b = true ->
    PyStr.int_digits s acc b = Some n.
Proof.
  induction s as [|c s IH]; intros acc b n H Hne; simpl in *.
  - destruct Hne as [Hne| ->]; [congruence | exact H].
  - rewrite <- spec_digit_digit_val.
    destruct (spec_digit c) as [d|]; [|discriminate].
    apply IH; auto.
Qed.

(** [int] reads a non-empty string of decimal digits as its value. *)
Lemma int_of_number (s : string) (n : Z) :
  spec_number s = Some n -> PyStr.int s = Ok n.
Proof.
  intros H. unfold PyStr.int, PyStr.int_literal.
  destruct s as [|c s]; [discriminate|]. cbn [spec_number] in H.
  rewrite (skip_blanks_no_blank _ (spec_number_from_no_blank _ _ _ H)).
  assert (Hd : PyStr.int_digits (String c s) 0 false = Some n)
    by (apply int_digits_number; [exact H | left; discriminate]).
  cbn [spec_number_from] in H.
  destruct (spec_digit c) as [d|] eqn:Hc; [|discriminate].
  assert (Hpm : c <> "+"%char /\ c <> "-"%char)
    by (split; intros ->; discriminate Hc).
  destruct Hpm as [Hp Hm].
  assert (Hmatch :
    match String c s with
    | String "+"%char r => PyStr.int_digits r 0 false
    | String "-"%char r => option_map Z.opp (PyStr.int_digits r 0 false)
    | t => PyStr.int_digits t 0 false
    end = PyStr.int_digits (String c s) 0 false).
  { clear -Hp Hm. ascii_cases c; try reflexivity; congruence. }
  rewrite Hmatch, Hd. reflexivity.
Qed.

(** The section rank of the code is the rank of the specification, with
    999 for a letter outside the four sections. *)
Lemma section_order_rank (c : ascii) :
  match spec_section_rank c with
  | Some r => dict_get section_order (String c "") 999 = r /\ 0 <= r <= 3
  | None => dict_get section_order (String c "") 999 = 999
  end.
Proof. ascii_cases c; vm_compute; repeat split; congruence. Qed.

Lemma sort_key_numbered (c : ascii) (digits : string) (n : Z) :
  spec_number digits = Some n ->
  _vertebra_sort_key (String c digits)
  = Ok (dict_get section_order (String c "") 999, n).
Proof.
  intros H. unfold _vertebra_sort_key. cbn [PyStr.index0 PyStr.slice_from1 rbind].
  rewrite (int_of_number _ _ H). reflexivity.
Qed.

(** ** The anatomical order of the sorted records *)

Section SortMap.
Context {A B : Type}.
Variables (f : A -> B) (key : B -> Result SortKey).

Lemma decorate_map (l : list A) :
  decorate key (map f l)
  = rbind (decorate (fun a => key (f a)) l) (fun d => Ok (map (fun p : SortKey * A => (fst p, f (snd p))) d)).
Proof.
  induction l as [|a l IH]; cbn [map decorate rbind]; [reflexivity|].
  destruct (key (f a)) as [k|e|e]; cbn [rbind]; [|reflexivity|reflexivity].
  rewrite IH. destruct (decorate (fun a0 => key (f a0)) l); reflexivity.
Qed.

Lemma insert_stable_map (x : SortKey * A) (d : list (SortKey * A)) :
  insert_stable ((fun p : SortKey * A => (fst p, f (snd p))) x) (map (fun p : SortKey * A => (fst p, f (snd p))) d) = map (fun p : SortKey * A => (fst p, f (snd p))) (insert_stable x d).
Proof.
  induction d as [|y d IH]; cbn [map insert_stable]; [reflexivity|].
  cbn [fst snd]. destruct (key_lt (fst y) (fst x)); cbn [map]; [|reflexivity].
  f_equal. exact IH.
Qed.

Lemma sort_decorated_map (d : list (SortKey * A)) :
  sort_decorated (map (fun p : SortKey * A => (fst p, f (snd p))) d) = map (fun p : SortKey * A => (fst p, f (snd p))) (sort_decorated d).
Proof.
  induction d as [|x d IH]; cbn [map sort_decorated fold_right]; [reflexivity|].
  fold (sort_decorated (map (fun p : SortKey * A => (fst p, f (snd p))) d)). fold (sort_decorated d).
  rewrite IH. apply insert_stable_map.
Qed.

(** Sorting the images by [key] is sorting by the key of the image. *)
Lemma list_sort_map (l out : list A) :
  list_sort (fun a => key (f a)) l = Ok out ->
  list_sort key (map f l) = Ok (map f out).
Proof.
  unfold list_sort. rewrite decorate_map.
  destruct (decorate (fun a => key (f a)) l) as [d|e|e]; cbn [rbind];
    [|discriminate|discriminate].
  intros H; inversion H; subst; clear H.
  rewrite sort_decorated_map, !map_map. reflexivity.
Qed.
End SortMap.

Lemma StronglySorted_weaken {A} (R R' : A -> A -> Prop) (l : list A) :
  (forall a b, In a l -> In b l -> R a b -> R' a b) ->
  StronglySorted R l -> StronglySorted R' l.
Proof.
  intros HR Hs. induction Hs as [|x l Hs IH Hall].
  - constructor.
  - constructor.
    + apply IH. intros a b Ha Hb. apply HR; now right.
    + rewrite Forall_forall in *. intros y Hy.
      apply HR; [now left | now right | now apply Hall].
Qed.

Lemma numbered_key (l : string) :
  numbered_label l ->
  exists c digits n,
    l = String c digits /\ spec_number digits = Some n /\
    _vertebra_sort_key l = Ok (dict_get section_order (String c "") 999, n).
Proof.
  intros [c [digits [n [-> Hn]]]]. exists c, digits, n.
  repeat split; [exact Hn | now apply sort_key_numbered].
Qed.

(** A valid label (known section, positive number) is a numbered label
    of a known section. *)
Lemma valid_label_numbered (l : string) :
  valid_label l -> numbered_label l /\ known_section l.
Proof.
  intros [c [digits [r [n [-> [Hr [Hn _]]]]]]]. split.
  - now exists c, digits, n.
  - now exists c, digits, r.
Qed.

Lemma key_le_anatomical (a b : Vertebra) :
  numbered_label (label a) -> numbered_label (label b) ->
  key_le (fun v => _vertebra_sort_key (label v)) a b ->
  anatomical_le (label a) (label b).
Proof.
  intros Ha Hb Hle.
  destruct (numbered_key _ Ha) as [c1 [d1 [n1 [Ea [Hn1 Hk1]]]]].
  destruct (numbered_key _ Hb) as [c2 [d2 [n2 [Eb [Hn2 Hk2]]]]].
  specialize (Hle _ _ Hk1 Hk2). apply key_lt_false in Hle. cbn [fst snd] in Hle.
  rewrite Ea, Eb. cbn [anatomical_le].
  pose proof (section_order_rank c1) as H1. pose proof (section_order_rank c2) as H2.
  destruct (spec_section_rank c1) as [r1|], (spec_section_rank c2) as [r2|];
    try exact I.
  - destruct H1 as [H1 _], H2 as [H2 _]. rewrite H1, H2 in Hle.
    destruct Hle as [Hlt|[Heq Hn]]; [now left | right].
    split; [exact Heq|]. now exists n1, n2.
  - destruct H2 as [H2 B2]. rewrite H1, H2 in Hle. lia.
Qed.

(** C2: labels made of a section letter and a number are sorted by section
    rank (C < T < L < S) first and by the integer value of the number
    second; a label of an unknown section comes after every label of a
    known one; the labels T12, T2, C7, L1, S1, C1 come out as C1, C7, T2,
    T12, L1, S1. *)
Theorem sort_vertebrae_anatomical (vs : list Vertebra) :
  Forall (fun v => numbered_label (label v)) vs ->
  exists out,
    sort_vertebrae vs = Ok out
    /\ Permutation vs out
    /\ StronglySorted (fun a b => anatomical_le (label a) (label b)) out
    /\ (forall a b, In a out -> In b out ->
          known_section (label a) -> ~ known_section (label b) ->
          precedes a b out)
    /\ (map label vs = ["T12"; "T2"; "C7"; "L1"; "S1"; "C1"] ->
        map label out = ["C1"; "C7"; "T2"; "T12"; "L1"; "S1"]).
Proof.
  intros Hnum.
  destruct (list_sort_defined (fun v => _vertebra_sort_key (label v)) vs) as [out Hout].
  { eapply Forall_impl; [|exact Hnum]. intros v Hv.
    destruct (numbered_key _ Hv) as [c [d [n [_ [_ Hk]]]]]. eexists. exact Hk. }
  exists out. destruct (list_sort_ok _ _ _ Hout) as [Hperm Hsorted].
  assert (Hnum' : Forall (fun v => numbered_label (label v)) out)
    by (apply (Permutation_Forall Hperm Hnum)).
  rewrite Forall_forall in Hnum'.
  split; [exact Hout|]. split; [exact Hperm|]. split; [|split].
  - eapply StronglySorted_weaken; [|exact Hsorted].
    intros a b Ha Hb. apply key_le_anatomical; auto.
  - intros a b Ha Hb Hka Hkb.
    destruct (numbered_key _ (Hnum' a Ha)) as [c1 [d1 [n1 [Ea [_ Hk1]]]]].
    destruct (numbered_key _ (Hnum' b Hb)) as [c2 [d2 [n2 [Eb [_ Hk2]]]]].
    eapply (sorted_precedes _ out a b); try eassumption.
    apply key_lt_spec. left. cbn [fst].
    pose proof (section_order_rank c1) as H1. pose proof (section_order_rank c2) as H2.
    destruct Hka as [c1' [d1' [r1 [Ea' Hr1]]]].
    rewrite Ea in Ea'. inversion Ea'; subst c1' d1'. rewrite Hr1 in H1.
    destruct (spec_section_rank c2) as [r2|] eqn:Hr2.
    + exfalso. apply Hkb. now exists c2, d2, r2.
    + destruct H1 as [H1 B1]. rewrite H1, H2. lia.
  - intros Hl.
    pose proof (list_sort_map label _vertebra_sort_key vs out Hout) as Hm.
    rewrite Hl in Hm.
    assert (Hex : list_sort _vertebra_sort_key ["T12"; "T2"; "C7"; "L1"; "S1"; "C1"]
                  = Ok ["C1"; "C7"; "T2"; "T12"; "L1"; "S1"]) by (vm_compute; reflexivity).
    rewrite Hex in Hm. now inversion Hm.
Qed.

Lemma sort_vertebrae_anatomical_witness :
  let vs := map labelled ["T12"; "T2"; "C7"; "L1"; "S1"; "C1"] in
  Forall (fun v => numbered_label (label v)) vs
  /\ exists out,
       sort_vertebrae vs = Ok out
       /\ map label out = ["C1"; "C7"; "T2"; "T12"; "L1"; "S1"].
Proof.
  assert (H : Forall (fun v => numbered_label (label v))
                (map labelled ["T12"; "T2"; "C7"; "L1"; "S1"; "C1"])).
  { repeat constructor; cbn [label labelled];
      (eexists _, _, _; split; [reflexivity | vm_compute; reflexivity]). }
  split; [exact H|].
  destruct (sort_vertebrae_anatomical _ H) as [out [Hs [_ [_ [_ Hex]]]]].
  exists out. split; [exact Hs | apply Hex; reflexivity].
Defined.

(** ** Voxel counts *)

Section Counting.
Lemma row_count (z y : Z) (row : list Z) :
  forall i,
    Z.of_nat (List.length
      (flat_map (fun '(x, v) => if 0 <? v then [(z, y, x)] else [])
                (np.enumerate_from i row)))
    = fold_right Z.add 0 (map (fun v => if 0 <? v then 1 else 0) row).
Proof.
  induction row as [|v row IH]; intros i; cbn [np.enumerate_from flat_map map fold_right].
  - reflexivity.
  - rewrite length_app, Nat2Z.inj_add, IH. destruct (0 <? v); reflexivity.
Qed.

Lemma plane_count (z : Z) (plane : list (list Z)) :
  forall i,
    Z.of_nat (List.length
      (flat_map (fun '(y, row) =>
         flat_map (fun '(x, v) => if 0 <? v then [(z, y, x)] else [])
                  (np.enumerate row))
         (np.enumerate_from i plane)))
    = fold_right Z.add 0
        (map (fun row => fold_right Z.add 0 (map (fun v => if 0 <? v then 1 else 0) row))
             plane).
Proof.
  induction plane as [|row plane IH]; intros i;
    cbn [np.enumerate_from flat_map map fold_right].
  - reflexivity.
  - rewrite length_app, Nat2Z.inj_add, IH. unfold np.enumerate.
    now rewrite row_count.
Qed.

Lemma array_count (a : Array3) :
  forall i,
    Z.of_nat (List.length
      (flat_map (fun '(z, plane) =>
         flat_map (fun '(y, row) =>
           flat_map (fun '(x, v) => if 0 <? v then [(z, y, x)] else [])
                    (np.enumerate row))
           (np.enumerate plane))
         (np.enumerate_from i a)))
    = np.count_pos a.
Proof.
  unfold np.count_pos.
  induction a as [|plane a IH]; intros i;
    cbn [np.enumerate_from flat_map map fold_right].
  - reflexivity.
  - rewrite length_app, Nat2Z.inj_add, IH. unfold np.enumerate at 2.
    now rewrite plane_count.
Qed.

(** [np.sum(mask_array > 0)] is the number of rows of
    [np.argwhere(mask_array > 0)]. *)
Lemma count_pos_argwhere (a : Array3) :
  np.count_pos a = Z.of_nat (List.length (np.argwhere_pos a)).
Proof. unfold np.argwhere_pos, np.enumerate at 3. now rewrite array_count. Qed.

Lemma count_pos_nonneg (a : Array3) : 0 <= np.count_pos a.
Proof. rewrite count_pos_argwhere. lia. Qed.

Lemma row_any (row : list Z) :
  0 < fold_right Z.add 0 (map (fun v => if 0 <? v then 1 else 0) row) ->
  existsb (fun v => negb (v =? 0)) row = true.
Proof.
  induction row as [|v row IH]; cbn [map fold_right existsb]; [lia|].
  destruct (0 <? v) eqn:Hv.
  - intros _. apply Z.ltb_lt in Hv.
    replace (v =? 0) with false by (symmetry; apply Z.eqb_neq; lia). reflexivity.
  - intros H. rewrite IH by lia. apply orb_true_r.
Qed.

Lemma row_count_nonneg (row : list Z) :
  0 <= fold_right Z.add 0 (map (fun v => if 0 <? v then 1 else 0) row).
Proof.
  induction row as [|v row IH]; cbn [map fold_right]; [lia|].
  destruct (0 <? v); lia.
Qed.

Lemma plane_any (plane : list (list Z)) :
  0 < fold_right Z.add 0
        (map (fun row => fold_right Z.add 0 (map (fun v => if 0 <? v then 1 else 0) row))
             plane) ->
  existsb (existsb (fun v => negb (v =? 0))) plane = true.
Proof.
  induction plane as [|row plane IH]; cbn [map fold_right existsb]; [lia|].
  intros H.
  destruct (Z.ltb_spec 0 (fold_right Z.add 0
              (map (fun v => if 0 <? v then 1 else 0) row))) as [Hr|Hr].
  - now rewrite row_any.
  - rewrite IH; [apply orb_true_r|].
    pose proof (row_count_nonneg row). lia.
Qed.

Lemma plane_count_nonneg (plane : list (list Z)) :
  0 <= fold_right Z.add 0
        (map (fun row => fold_right Z.add 0 (map (fun v => if 0 <? v then 1 else 0) row))
             plane).
Proof.
  induction plane as [|row plane IH]; cbn [map fold_right]; [lia|].
  pose proof (row_count_nonneg row). lia.
Qed.

(** A grid with a positive voxel has a non-zero one. *)
Lemma count_pos_any (a : Array3) : 0 < np.count_pos a -> np.any a = true.
Proof.
  unfold np.count_pos, np.any.
  induction a as [|plane a IH]; cbn [map fold_right existsb]; [lia|].
  intros H.
  destruct (Z.ltb_spec 0 (fold_right Z.add 0
    (map (fun row => fold_right Z.add 0 (map (fun v => if 0 <? v then 1 else 0) row))
         plane))) as [Hp|Hp].
  - now rewrite plane_any.
  - rewrite IH; [apply orb_true_r|].
    pose proof (plane_count_nonneg plane). lia.
Qed.
End Counting.

(** ** The outcome of one file *)

Section FileOutcomes.
Variables (images : string -> Result Image) (output_dir : string).
Variables (spacing origin : Q * Q * Q).

Lemma outcome_not_qualifying (name : string) :
  qualifies name = false ->
  file_outcome images output_dir spacing origin name = Skipped.
Proof. intros H. unfold file_outcome. now rewrite H. Qed.

Lemma outcome_corrupt (name : string) (e : PyException) :
  qualifies name = true ->
  images (path_join output_dir name) = Raise e ->
  file_outcome images output_dir spacing origin name = Warned (warning_line name e).
Proof. intros Hq Hr. unfold file_outcome. now rewrite Hq, Hr. Qed.

Lemma outcome_empty (name : string) (mask : Image) :
  images (path_join output_dir name) = Ok mask ->
  np.count_pos (GetArrayFromImage mask) = 0 ->
  file_outcome images output_dir spacing origin name = Skipped.
Proof.
  intros Hr H0. unfold file_outcome. rewrite Hr.
  destruct (negb (qualifies name)); [reflexivity|].
  destruct (negb (np.any (GetArrayFromImage mask))); [reflexivity|].
  rewrite count_pos_argwhere in H0.
  replace (List.length (np.argwhere_pos (GetArrayFromImage mask)) =? 0)%nat with true
    by (symmetry; apply Nat.eqb_eq; lia).
  reflexivity.
Qed.

Lemma outcome_occupied (name : string) (mask : Image) :
  qualifies name = true ->
  images (path_join output_dir name) = Ok mask ->
  0 < np.count_pos (GetArrayFromImage mask) ->
  file_outcome images output_dir spacing origin name
  = Emitted (vertebra_record (label_of_file name) (GetArrayFromImage mask)
               (np.argwhere_pos (GetArrayFromImage mask)) spacing origin).
Proof.
  intros Hq Hr Hpos. unfold file_outcome. rewrite Hq, Hr. cbn [negb].
  rewrite (count_pos_any _ Hpos). cbn [negb].
  rewrite count_pos_argwhere in Hpos.
  replace (List.length (np.argwhere_pos (GetArrayFromImage mask)) =? 0)%nat with false
    by (symmetry; apply Nat.eqb_neq; lia).
  reflexivity.
Qed.

(** Every record comes from a qualifying file that was read and has
    positive voxels. *)
Lemma outcome_emitted (name : string) (v : Vertebra) :
  file_outcome images output_dir spacing origin name = Emitted v ->
  exists mask,
    qualifies name = true
    /\ images (path_join output_dir name) = Ok mask
    /\ np.argwhere_pos (GetArrayFromImage mask) <> []
    /\ v = vertebra_record (label_of_file name) (GetArrayFromImage mask)
             (np.argwhere_pos (GetArrayFromImage mask)) spacing origin.
Proof.
  unfold file_outcome. destruct (qualifies name); cbn [negb]; [|discriminate].
  destruct (images (path_join output_dir name)) as [mask|e|e]; [|discriminate|discriminate].
  destruct (np.any (GetArrayFromImage mask)); cbn [negb]; [|discriminate].
  destruct (List.length (np.argwhere_pos (GetArrayFromImage mask)) =? 0)%nat eqn:Hl;
    [discriminate|].
  intros H; inversion H; subst. exists mask. repeat split.
  apply Nat.eqb_neq in Hl. intros E. now rewrite E in Hl.
Qed.
End FileOutcomes.

(** ** The extraction as a whole *)

(** The extraction is the loop over the outcomes, then the sort. *)
Lemma extract_listing_loop (output_dir : string) (img : Image) (files : list string)
    (w : World) :
  extract_listing output_dir img files w
  = (rbind (fst (loop_outcomes (outcomes_of w output_dir img files) [] [])) sort_vertebrae,
     add_stdout w (snd (loop_outcomes (outcomes_of w output_dir img files) [] []))).
Proof.
  unfold extract_listing, bind, outcomes_of. rewrite parse_files_loop.
  destruct (fst (loop_outcomes _ [] [])); reflexivity.
Qed.

Lemma extract_listing_spec (output_dir : string) (img : Image) (files : list string)
    (w : World) :
  uninterrupted w output_dir files ->
  extract_listing output_dir img files w
  = (sort_vertebrae (records_of w output_dir img files),
     add_stdout w (warnings_of w output_dir img files)).
Proof.
  intros Hu. unfold extract_listing, bind. rewrite parse_files_spec by exact Hu.
  reflexivity.
Qed.

Lemma parse_is_extract_listing (output_dir : string) (img : Image) (w : World) :
  _parse_segmentation_results output_dir img w
  = extract_listing output_dir img (mask_files w output_dir) w.
Proof. reflexivity. Qed.

Lemma parse_spec (output_dir : string) (img : Image) (w : World) :
  uninterrupted w output_dir (mask_files w output_dir) ->
  _parse_segmentation_results output_dir img w
  = (sort_vertebrae (records_of w output_dir img (mask_files w output_dir)),
     add_stdout w (warnings_of w output_dir img (mask_files w output_dir))).
Proof. intros Hu. rewrite parse_is_extract_listing. now apply extract_listing_spec. Qed.

(** An extraction that returns met no interrupted reading. *)
Lemma extract_listing_uninterrupted (output_dir : string) (img : Image)
    (files : list string) (w : World) (rs : list Vertebra) (w' : World) :
  extract_listing output_dir img files w = (Ok rs, w') ->
  uninterrupted w output_dir files.
Proof.
  rewrite extract_listing_loop. intros H.
  apply (uninterrupted_outcomes output_dir (GetSpacing img) (GetOrigin img)).
  fold (outcomes_of w output_dir img files).
  destruct (fst (loop_outcomes (outcomes_of w output_dir img files) [] []))
    as [vs|e|e] eqn:Hl; [|discriminate H|discriminate H].
  eapply loop_outcomes_ok. exact Hl.
Qed.

(** What a parse that returns has returned. *)
Lemma parse_returns (output_dir : string) (img : Image) (w : World)
    (rs : list Vertebra) (w' : World) :
  _parse_segmentation_results output_dir img w = (Ok rs, w') ->
  sort_vertebrae (records_of w output_dir img (mask_files w output_dir)) = Ok rs
  /\ add_stdout w (warnings_of w output_dir img (mask_files w output_dir)) = w'.
Proof.
  intros H. rewrite parse_is_extract_listing in H.
  pose proof (extract_listing_uninterrupted _ _ _ _ _ _ H) as Hu.
  rewrite (extract_listing_spec _ _ _ _ Hu) in H. now inversion H.
Qed.

Lemma records_of_app (w : World) (d : string) (img : Image) (l1 l2 : list string) :
  records_of w d img (l1 ++ l2) = (records_of w d img l1 ++ records_of w d img l2)%list.
Proof. unfold records_of. apply flat_map_app. Qed.

Lemma warnings_of_app (w : World) (d : string) (img : Image) (l1 l2 : list string) :
  warnings_of w d img (l1 ++ l2) = (warnings_of w d img l1 ++ warnings_of w d img l2)%list.
Proof. unfold warnings_of. apply flat_map_app. Qed.

Lemma records_of_in (w : World) (d : string) (img : Image) (files : list string)
    (v : Vertebra) :
  In v (records_of w d img files) <->
  exists name, In name files /\
    file_outcome (image_files w) d (GetSpacing img) (GetOrigin img) name = Emitted v.
Proof.
  unfold records_of. rewrite in_flat_map. split; intros [name [Hin H]]; exists name;
    (split; [exact Hin|]).
  - destruct (file_outcome _ _ _ _ name); cbn in H; try contradiction.
    destruct H as [->|[]]. reflexivity.
  - rewrite H. now left.
Qed.

Lemma list_sort_singleton {A} (key : A -> Result SortKey) (a : A) (k : SortKey) :
  key a = Ok k -> list_sort key [a] = Ok [a].
Proof. intros H. unfold list_sort. cbn [decorate]. rewrite H. reflexivity. Qed.

Lemma Forall_sorted_records (P : Vertebra -> Prop) (vs out : list Vertebra) :
  sort_vertebrae vs = Ok out -> Forall P vs -> Forall P out.
Proof.
  intros Hs. apply Permutation_Forall. now destruct (list_sort_ok _ _ _ Hs).
Qed.

Lemma vertebra_record_label (id : string) (a : Array3) (coords : list (Z * Z * Z))
    (sp og : Q * Q * Q) :
  label (vertebra_record id a coords sp og) = id.
Proof.
  unfold vertebra_record. destruct sp as [[s0 s1] s2], og as [[o0 o1] o2]. reflexivity.
Qed.

Lemma vertebra_record_voxel_count (id : string) (a : Array3) (coords : list (Z * Z * Z))
    (sp og : Q * Q * Q) :
  voxel_count (vertebra_record id a coords sp og) = np.count_pos a.
Proof.
  unfold vertebra_record. destruct sp as [[s0 s1] s2], og as [[o0 o1] o2]. reflexivity.
Qed.

Lemma vertebra_record_confidence (id : string) (a : Array3) (coords : list (Z * Z * Z))
    (sp og : Q * Q * Q) :
  confidence (vertebra_record id a coords sp og) = confidence_of (np.count_pos a).
Proof.
  unfold vertebra_record. destruct sp as [[s0 s1] s2], og as [[o0 o1] o2]. reflexivity.
Qed.

(** ** The sort key is partial (C10) *)

Lemma sort_key_defined_iff (l : string) (k : SortKey) :
  _vertebra_sort_key l = Ok k <->
  exists c rest n,
    l = String c rest /\ PyStr.int rest = Ok n /\
    k = (dict_get section_order (String c "") 999, n).
Proof.
  unfold _vertebra_sort_key. split.
  - destruct l as [|c rest]; cbn [PyStr.index0 PyStr.slice_from1 rbind]; [discriminate|].
    destruct (PyStr.int rest) as [n|e|e] eqn:Hn; cbn [rbind]; [|discriminate|discriminate].
    intros H; inversion H; subst. now exists c, rest, n.
  - intros [c [rest [n [-> [Hn ->]]]]].
    cbn [PyStr.index0 PyStr.slice_from1 rbind]. now rewrite Hn.
Qed.

(** The sort key returns or raises an [Exception]: it never leaves by an
    exit. *)
Lemma sort_key_no_exit (l : string) (b : PyException) : _vertebra_sort_key l <> Exit b.
Proof.
  unfold _vertebra_sort_key.
  destruct l as [|c rest]; cbn [PyStr.index0 PyStr.slice_from1 rbind]; [discriminate|].
  unfold PyStr.int. destruct (PyStr.int_literal rest); discriminate.
Qed.

(** C10: the sort key of a label is defined exactly when the label is not
    empty and [int] accepts the characters after the first.  A readable
    mask with positive voxels whose name passes the prefix filter and whose
    label has no sort key makes the whole extraction fail: the sort is
    outside the handler of the loop, so the extraction never returns, and,
    when no reading of a mask is interrupted, it raises after the warnings
    of the loop.  The file [vertebrae_body.nii.gz] is such a file: its
    label is [body], and [int("ody")] raises. *)
Theorem unsortable_label_fails_extraction :
  (forall l, (exists k, _vertebra_sort_key l = Ok k) <->
             (exists c rest n, l = String c rest /\ PyStr.int rest = Ok n))
  /\ (forall output_dir img w name mask e,
        In name (dir_entries w output_dir) ->
        PyStr.endswith ".nii.gz" name = true ->
        qualifies name = true ->
        image_files w (path_join output_dir name) = Ok mask ->
        0 < np.count_pos (GetArrayFromImage mask) ->
        _vertebra_sort_key (label_of_file name) = Raise e ->
        (forall rs w', _parse_segmentation_results output_dir img w <> (Ok rs, w'))
        /\ (uninterrupted w output_dir (mask_files w output_dir) ->
            exists e',
              _parse_segmentation_results output_dir img w
              = (Raise e',
                 add_stdout w (warnings_of w output_dir img (mask_files w output_dir)))))
  /\ (PyStr.endswith ".nii.gz" "vertebrae_body.nii.gz" = true
      /\ qualifies "vertebrae_body.nii.gz" = true
      /\ label_of_file "vertebrae_body.nii.gz" = "body"
      /\ _vertebra_sort_key "body"
         = Raise (ValueError "invalid literal for int() with base 10: 'ody'")).
Proof.
  split; [|split].
  - intros l. split.
    + intros [k Hk]. apply sort_key_defined_iff in Hk.
      destruct Hk as [c [rest [n [E [Hn _]]]]]. now exists c, rest, n.
    + intros [c [rest [n [E Hn]]]]. eexists. apply sort_key_defined_iff.
      exists c, rest, n. repeat split; assumption.
  - intros output_dir img w name mask e Hin Hext Hq Hread Hpos Hkey.
    assert (Hrec : In (vertebra_record (label_of_file name) (GetArrayFromImage mask)
                         (np.argwhere_pos (GetArrayFromImage mask))
                         (GetSpacing img) (GetOrigin img))
                      (records_of w output_dir img (mask_files w output_dir))).
    { apply records_of_in. exists name. split.
      - unfold mask_files. apply filter_In. now split.
      - now apply outcome_occupied. }
    destruct (list_sort_raises (fun v => _vertebra_sort_key (label v)) _ _ e
                (fun x b => sort_key_no_exit (label x) b) Hrec)
      as [e' He'].
    { now rewrite vertebra_record_label. }
    split.
    + intros rs w' H. apply parse_returns in H. destruct H as [Hs _].
      unfold sort_vertebrae in Hs. rewrite He' in Hs. discriminate Hs.
    + intros Hu. rewrite parse_spec by exact Hu.
      exists e'. unfold sort_vertebrae. now rewrite He'.
  - repeat split; vm_compute; reflexivity.
Qed.

Lemma unsortable_label_fails_extraction_witness :
  exists e',
    fst (_parse_segmentation_results "out"
           (mkImage (1, 1, 1)%Q (0, 0, 0)%Q [[[0; 1]]]) body_world)
    = Raise e'.
Proof.
  destruct unsortable_label_fails_extraction as [_ [H _]].
  destruct (H "out" (mkImage (1, 1, 1)%Q (0, 0, 0)%Q [[[0; 1]]]) body_world
              "vertebrae_body.nii.gz"
              (mkImage (1, 1, 1)%Q (0, 0, 0)%Q [[[0; 1]]])
              (ValueError "invalid literal for int() with base 10: 'ody'"))
    as [_ Hraise].
  - cbn. right. left. reflexivity.
  - reflexivity.
  - reflexivity.
  - reflexivity.
  - reflexivity.
  - reflexivity.
  - destruct Hraise as [e' He'].
    + repeat constructor.
    + exists e'. now rewrite He'.
Defined.

(** ** Empty masks (C4) *)

(** C4: every record of the result has a positive voxel count, and a file
    whose grid has no positive voxel adds nothing: the extraction is the
    extraction over the listing without it. *)
Theorem empty_mask_emits_nothing (output_dir : string) (img : Image) (w : World) :
  (forall rs w',
     _parse_segmentation_results output_dir img w = (Ok rs, w') ->
     Forall (fun v => 0 < voxel_count v) rs)
  /\ (forall pre name post mask,
        mask_files w output_dir = (pre ++ name :: post)%list ->
        image_files w (path_join output_dir name) = Ok mask ->
        np.count_pos (GetArrayFromImage mask) = 0 ->
        records_of w output_dir img [name] = []
        /\ _parse_segmentation_results output_dir img w
           = extract_listing output_dir img (pre ++ post) w).
Proof.
  split.
  - intros rs w' H. apply parse_returns in H. destruct H as [Hs Hw].
    apply (Forall_sorted_records _ _ _ Hs).
    apply Forall_forall. intros v Hv. apply records_of_in in Hv.
    destruct Hv as [name [_ Ho]]. apply outcome_emitted in Ho.
    destruct Ho as [mask [_ [_ [Hne ->]]]].
    rewrite vertebra_record_voxel_count, count_pos_argwhere.
    destruct (np.argwhere_pos (GetArrayFromImage mask)); [congruence | cbn [List.length]; lia].
  - intros pre name post mask Hfiles Hread Hzero.
    assert (Ho : file_outcome (image_files w) output_dir (GetSpacing img) (GetOrigin img) name
                 = Skipped) by (eapply outcome_empty; eassumption).
    split.
    + unfold records_of. cbn [flat_map]. now rewrite Ho.
    + rewrite parse_is_extract_listing, !extract_listing_loop, Hfiles.
      unfold outcomes_of. rewrite !map_app. cbn [map]. rewrite Ho.
      now rewrite loop_outcomes_skip.
Qed.

Lemma empty_mask_emits_nothing_witness :
  exists rs w',
    _parse_segmentation_results "out" (unit_image []) mixed_world = (Ok rs, w')
    /\ Forall (fun v => 0 < voxel_count v) rs
    /\ map label rs = ["L1"]
    /\ _parse_segmentation_results "out" (unit_image []) mixed_world
       = extract_listing "out" (unit_image [])
           ["vertebrae_L2.nii.gz"; "vertebrae_L1.nii.gz"] mixed_world.
Proof.
  destruct (empty_mask_emits_nothing "out" (unit_image []) mixed_world) as [Hpos Hskip].
  destruct (Hskip [] "vertebrae_T1.nii.gz" ["vertebrae_L2.nii.gz"; "vertebrae_L1.nii.gz"]
                  (unit_image [[[0; 0]; [0; 0]]]) eq_refl eq_refl eq_refl) as [_ Heq].
  eexists _, _. split; [vm_compute; reflexivity|].
  split; [eapply Hpos; vm_compute; reflexivity|].
  split; [reflexivity | exact Heq].
Defined.

(** ** Corrupt masks (C5) *)

(** C5: a qualifying file that fails to load costs one warning and nothing
    else: the result is that of the extraction over the listing without it,
    and, when the loop reaches the file (no reading of a mask before it is
    interrupted), the warning for it is printed after those of the files
    before it; the warnings of the files after it follow when none of their
    readings is interrupted.  With one corrupt file and one valid file (a
    readable mask with positive voxels and a label that has a sort key) the
    result is the one record of the valid file. *)
Theorem corrupt_mask_is_skipped (output_dir : string) (img : Image) (w : World)
    (pre post : list string) (name : string) (e : PyException) :
  mask_files w output_dir = (pre ++ name :: post)%list ->
  qualifies name = true ->
  image_files w (path_join output_dir name) = Raise e ->
  fst (_parse_segmentation_results output_dir img w)
    = fst (extract_listing output_dir img (pre ++ post) w)
  /\ (uninterrupted w output_dir pre ->
      exists rest,
        stdout (snd (_parse_segmentation_results output_dir img w))
        = (stdout w ++ warnings_of w output_dir img pre
             ++ warning_line name e :: rest)%list
        /\ (uninterrupted w output_dir post ->
            rest = warnings_of w output_dir img post))
  /\ (forall valid mask k,
        (pre ++ post)%list = [valid] ->
        qualifies valid = true ->
        image_files w (path_join output_dir valid) = Ok mask ->
        0 < np.count_pos (GetArrayFromImage mask) ->
        _vertebra_sort_key (label_of_file valid) = Ok k ->
        fst (_parse_segmentation_results output_dir img w)
        = Ok [vertebra_record (label_of_file valid) (GetArrayFromImage mask)
                (np.argwhere_pos (GetArrayFromImage mask))
                (GetSpacing img) (GetOrigin img)]).
Proof.
  intros Hfiles Hq Hread.
  assert (Ho : file_outcome (image_files w) output_dir (GetSpacing img) (GetOrigin img) name
               = Warned (warning_line name e)) by (now apply outcome_corrupt).
  assert (Hfst : fst (_parse_segmentation_results output_dir img w)
                 = fst (extract_listing output_dir img (pre ++ post) w)).
  { rewrite parse_is_extract_listing, !extract_listing_loop, Hfiles. cbn [fst].
    unfold outcomes_of. rewrite !map_app. cbn [map]. rewrite Ho.
    now rewrite loop_outcomes_warned. }
  split; [exact Hfst|]. split.
  - intros Hpre.
    apply (uninterrupted_outcomes output_dir (GetSpacing img) (GetOrigin img)) in Hpre.
    rewrite parse_is_extract_listing, extract_listing_loop, Hfiles.
    cbn [snd add_stdout stdout]. unfold outcomes_of. rewrite map_app. cbn [map].
    rewrite Ho.
    destruct (loop_outcomes_reaches _
                (map (file_outcome (image_files w) output_dir (GetSpacing img)
                        (GetOrigin img)) post)
                (warning_line name e) Hpre [] []) as [acc' ->].
    eexists. split.
    + cbn [app]. unfold warnings_of. rewrite !flat_map_concat_map, !map_map.
      reflexivity.
    + intros Hpost.
      apply (uninterrupted_outcomes output_dir (GetSpacing img) (GetOrigin img))
        in Hpost.
      rewrite (loop_outcomes_returns _ acc' [] Hpost). cbn [snd app].
      unfold warnings_of. rewrite !flat_map_concat_map, !map_map. reflexivity.
  - intros valid mask k Hone Hqv Hreadv Hpos Hkey.
    rewrite Hfst, extract_listing_spec.
    + cbn [fst]. rewrite Hone. unfold records_of. cbn [flat_map].
      rewrite (outcome_occupied _ _ _ _ _ _ Hqv Hreadv Hpos). cbn [emitted app].
      apply (list_sort_singleton _ _ k). now rewrite vertebra_record_label.
    + rewrite Hone. constructor; [|constructor].
      unfold interrupted. rewrite Hreadv. apply andb_false_r.
Qed.

Lemma corrupt_mask_is_skipped_witness :
  fst (_parse_segmentation_results "out" (unit_image []) corrupt_and_valid_world)
  = Ok [vertebra_record "L1" [[[0; 0; 0]; [0; 1; 1]]; [[0; 0; 0]; [0; 1; 1]]]
          [(0, 1, 1); (0, 1, 2); (1, 1, 1); (1, 1, 2)] (1, 1, 1)%Q (0, 0, 0)%Q]
  /\ stdout (snd (_parse_segmentation_results "out" (unit_image []) corrupt_and_valid_world))
     = ["Warning: Failed to process vertebrae_L2: Unable to read image"].
Proof.
  destruct (corrupt_mask_is_skipped "out" (unit_image []) corrupt_and_valid_world
              [] ["vertebrae_L1.nii.gz"] "vertebrae_L2.nii.gz"
              (mkExc "RuntimeError" "Unable to read image")
              eq_refl eq_refl eq_refl) as [_ [Hwarn Hone]].
  split.
  - apply (Hone "vertebrae_L1.nii.gz"
                (unit_image [[[0; 0; 0]; [0; 1; 1]]; [[0; 0; 0]; [0; 1; 1]]]) (2, 1));
      reflexivity.
  - destruct Hwarn as [rest [Hout Hrest]]; [constructor|].
    rewrite Hout, Hrest; [reflexivity | repeat constructor].
Defined.

(** ** Rounding *)

Lemma py_round_floor_or_next (x : Q) :
  py_round x = Qfloor x
  \/ (py_round x = Qfloor x + 1 /\ (inject_Z (Qfloor x) < x)%Q).
Proof.
  unfold py_round.
  destruct (Qcompare (x - inject_Z (Qfloor x)) (1 # 2)) eqn:Hc.
  - destruct (Z.even (Qfloor x)); [now left | right].
    split; [reflexivity|]. apply Qeq_alt in Hc. lra.
  - now left.
  - right. split; [reflexivity|]. apply Qgt_alt in Hc. lra.
Qed.

Lemma py_round_lower (m : Z) (x : Q) : (inject_Z m <= x)%Q -> m <= py_round x.
Proof.
  intros H. apply Qfloor_resp_le in H. rewrite Qfloor_Z in H.
  destruct (py_round_floor_or_next x) as [->|[-> _]]; lia.
Qed.

Lemma py_round_upper (m : Z) (x : Q) : (x <= inject_Z m)%Q -> py_round x <= m.
Proof.
  intros H. destruct (py_round_floor_or_next x) as [->|[-> Hlt]].
  - apply Qfloor_resp_le in H. now rewrite Qfloor_Z in H.
  - assert (Hz : (inject_Z (Qfloor x) < inject_Z m)%Q) by lra.
    rewrite <- Zlt_Qlt in Hz. lia.
Qed.

(** [round] leaves an integer alone. *)
Lemma py_round_integer (m : Z) (x : Q) : (x == inject_Z m)%Q -> py_round x = m.
Proof.
  intros H. apply Z.le_antisymm.
  - apply py_round_upper. lra.
  - apply py_round_lower. lra.
Qed.

(** ** Centroid and bounding box (C6) *)

Lemma minimum_le (l : list Z) (x : Z) : In x l -> np.minimum l <= x.
Proof.
  destruct l as [|a l]; [contradiction|]. cbn [np.minimum].
  revert a x. induction l as [|b l IH]; intros a x Hin; cbn [fold_right].
  - destruct Hin as [->|[]]. lia.
  - destruct Hin as [->|[->|Hin]].
    + specialize (IH x x (or_introl eq_refl)). lia.
    + lia.
    + specialize (IH a x (or_intror Hin)). lia.
Qed.

Lemma maximum_ge (l : list Z) (x : Z) : In x l -> x <= np.maximum l.
Proof.
  destruct l as [|a l]; [contradiction|]. cbn [np.maximum].
  revert a x. induction l as [|b l IH]; intros a x Hin; cbn [fold_right].
  - destruct Hin as [->|[]]. lia.
  - destruct Hin as [->|[->|Hin]].
    + specialize (IH x x (or_introl eq_refl)). lia.
    + lia.
    + specialize (IH a x (or_intror Hin)). lia.
Qed.

Lemma sumZ_bounds (lo hi : Z) (l : list Z) :
  Forall (fun x => lo <= x <= hi) l ->
  lo * Z.of_nat (List.length l) <= np.sumZ l <= hi * Z.of_nat (List.length l).
Proof.
  unfold np.sumZ. induction 1 as [|x l Hx _ IH]; cbn [fold_right List.length].
  - lia.
  - rewrite Nat2Z.inj_succ. lia.
Qed.

(** The mean of a non-empty list lies between its minimum and maximum. *)
Lemma mean_bounds (l : list Z) :
  l <> [] ->
  (inject_Z (np.minimum l) <= np.mean l <= inject_Z (np.maximum l))%Q.
Proof.
  intros Hne.
  assert (Hn : 0 < Z.of_nat (List.length l))
    by (destruct l; [congruence | cbn [List.length]; lia]).
  assert (Hb : Forall (fun x => np.minimum l <= x <= np.maximum l) l).
  { apply Forall_forall. intros x Hx. split; [now apply minimum_le | now apply maximum_ge]. }
  apply sumZ_bounds in Hb. destruct Hb as [Hlo Hhi].
  assert (Hq : (0 < inject_Z (Z.of_nat (List.length l)))%Q)
    by (rewrite <- (Zlt_Qlt 0); exact Hn).
  unfold np.mean. split.
  - apply Qle_shift_div_l; [exact Hq|].
    rewrite <- inject_Z_mult, <- Zle_Qle. exact Hlo.
  - apply Qle_shift_div_r; [exact Hq|].
    rewrite <- inject_Z_mult, <- Zle_Qle. exact Hhi.
Qed.

Lemma round_mean_bounds (l : list Z) :
  l <> [] -> np.minimum l <= py_round (np.mean l) <= np.maximum l.
Proof.
  intros Hne. destruct (mean_bounds l Hne) as [Hlo Hhi].
  split; [now apply py_round_lower | now apply py_round_upper].
Qed.

Lemma vertebra_record_centre_and_box (id : string) (a : Array3)
    (coords : list (Z * Z * Z)) (sp og : Q * Q * Q) :
  centre_and_box_of coords (vertebra_record id a coords sp og).
Proof.
  unfold centre_and_box_of, vertebra_record.
  destruct sp as [[s0 s1] s2], og as [[o0 o1] o2]. repeat split.
Qed.

Lemma centre_and_box_within (coords : list (Z * Z * Z)) (v : Vertebra) :
  coords <> [] -> centre_and_box_of coords v -> within_bounds v.
Proof.
  intros Hne [Hc [Hmin Hmax]]. unfold within_bounds. rewrite Hc, Hmin, Hmax.
  cbn [x_of y_of z_of].
  assert (H0 : np.axis0 coords <> []) by (destruct coords; [congruence | discriminate]).
  assert (H1 : np.axis1 coords <> []) by (destruct coords; [congruence | discriminate]).
  assert (H2 : np.axis2 coords <> []) by (destruct coords; [congruence | discriminate]).
  repeat split; now apply round_mean_bounds.
Qed.

(** C6: every record of the result has its centre inside its bounding box
    on each of the three axes; the centre is the rounded mean and the box
    the minimum and maximum of the indices of the positive voxels of the
    mask of one file of the directory. *)
Theorem center_within_bounds (output_dir : string) (img : Image) (w : World)
    (rs : list Vertebra) (w' : World) :
  _parse_segmentation_results output_dir img w = (Ok rs, w') ->
  Forall (fun v =>
            within_bounds v
            /\ exists name mask,
                 In name (mask_files w output_dir)
                 /\ image_files w (path_join output_dir name) = Ok mask
                 /\ centre_and_box_of (np.argwhere_pos (GetArrayFromImage mask)) v) rs.
Proof.
  intros H. apply parse_returns in H. destruct H as [Hs Hw].
  apply (Forall_sorted_records _ _ _ Hs).
  apply Forall_forall. intros v Hv. apply records_of_in in Hv.
  destruct Hv as [name [Hin Ho]]. apply outcome_emitted in Ho.
  destruct Ho as [mask [_ [Hread [Hne ->]]]].
  pose proof (vertebra_record_centre_and_box (label_of_file name) (GetArrayFromImage mask)
                (np.argwhere_pos (GetArrayFromImage mask)) (GetSpacing img) (GetOrigin img))
    as Hcb.
  split.
  - eapply centre_and_box_within; eassumption.
  - exists name, mask. repeat split; try assumption; apply Hcb.
Qed.

Lemma center_within_bounds_witness :
  exists rs w',
    _parse_segmentation_results "out" (unit_image []) mixed_world = (Ok rs, w')
    /\ map center rs = [XYZ 2 1 0]
    /\ map bounds_min rs = [XYZ 1 1 0]
    /\ map bounds_max rs = [XYZ 2 1 1]
    /\ Forall within_bounds rs.
Proof.
  eexists _, _. split; [vm_compute; reflexivity|].
  split; [reflexivity|]. split; [reflexivity|]. split; [reflexivity|].
  eapply Forall_impl;
    [|eapply (center_within_bounds "out" (unit_image []) mixed_world);
      vm_compute; reflexivity].
  intros v [Hv _]. exact Hv.
Defined.

(** ** Confidence (C3) *)

Lemma py_min_Qmin (a b : Q) : (py_min a b == Qmin a b)%Q.
Proof.
  unfold py_min. destruct (Qlt_le_dec b a) as [H|H].
  - symmetry. apply Q.min_r. now apply Qlt_le_weak.
  - symmetry. now apply Q.min_l.
Qed.

Lemma thousandth_le (n m : Z) : n <= m -> (inject_Z n / 1000 <= inject_Z m / 1000)%Q.
Proof.
  intros H. rewrite Zle_Qle in H. unfold Qdiv. apply Qmult_le_compat_r; [exact H|].
  discriminate.
Qed.

(** The stored confidence is [min(n / 1000, 1)]: rounding to three decimals
    changes nothing, since [n / 1000] has at most three. *)
Lemma confidence_of_min (n : Z) : (confidence_of n == Qmin (inject_Z n / 1000) 1)%Q.
Proof.
  rewrite <- py_min_Qmin. unfold confidence_of, py_round_ndigits, py_min.
  replace (10 ^ 3) with 1000 by reflexivity.
  destruct (Qlt_le_dec 1 (inject_Z n / 1000)) as [H|H].
  - rewrite (py_round_integer 1000); [reflexivity|]. reflexivity.
  - rewrite (py_round_integer n); [reflexivity|]. field.
Qed.

Lemma confidence_of_monotone (n m : Z) :
  n <= m -> (confidence_of n <= confidence_of m)%Q.
Proof.
  intros H. rewrite !confidence_of_min.
  apply Q.min_le_compat_r. now apply thousandth_le.
Qed.

Lemma confidence_of_range (n : Z) : 0 <= n -> (0 <= confidence_of n <= 1)%Q.
Proof.
  intros H. rewrite confidence_of_min. split.
  - apply Q.min_glb; [|discriminate].
    assert (E : (0 == inject_Z 0 / 1000)%Q) by reflexivity.
    rewrite E. now apply thousandth_le.
  - apply Q.le_min_r.
Qed.

Lemma confidence_of_clamped (n : Z) : 1000 <= n -> (confidence_of n == 1)%Q.
Proof.
  intros H. rewrite confidence_of_min. apply Q.min_r.
  assert (E : (1 == inject_Z 1000 / 1000)%Q) by reflexivity.
  apply Qle_trans with (inject_Z 1000 / 1000)%Q;
    [rewrite <- E; apply Qle_refl | now apply thousandth_le].
Qed.

(** C3: the confidence of every record of the result is
    [min(voxel_count / 1000, 1)]; it lies in [0, 1], is 1 from 1000 voxels
    on, and does not decrease when the voxel count grows. *)
Theorem confidence_is_clamped_ratio (output_dir : string) (img : Image) (w : World)
    (rs : list Vertebra) (w' : World) :
  _parse_segmentation_results output_dir img w = (Ok rs, w') ->
  Forall (fun v =>
            confidence v = confidence_of (voxel_count v)
            /\ (confidence v == Qmin (inject_Z (voxel_count v) / 1000) 1)%Q
            /\ (0 <= confidence v <= 1)%Q
            /\ (1000 <= voxel_count v -> (confidence v == 1)%Q)) rs
  /\ (forall a b, In a rs -> In b rs ->
        voxel_count a <= voxel_count b -> (confidence a <= confidence b)%Q)
  /\ (forall n m, n <= m -> (confidence_of n <= confidence_of m)%Q).
Proof.
  intros H. apply parse_returns in H. destruct H as [Hs Hw].
  assert (Hall : Forall (fun v => confidence v = confidence_of (voxel_count v)
                                  /\ 0 <= voxel_count v) rs).
  { apply (Forall_sorted_records _ _ _ Hs).
    apply Forall_forall. intros v Hv. apply records_of_in in Hv.
    destruct Hv as [name [_ Ho]]. apply outcome_emitted in Ho.
    destruct Ho as [mask [_ [_ [_ ->]]]].
    rewrite vertebra_record_confidence, vertebra_record_voxel_count.
    split; [reflexivity | apply count_pos_nonneg]. }
  split; [|split].
  - eapply Forall_impl; [|exact Hall]. intros v [Hc Hn].
    split; [exact Hc|]. rewrite Hc.
    split; [apply confidence_of_min|].
    split; [now apply confidence_of_range | apply confidence_of_clamped].
  - rewrite Forall_forall in Hall. intros a b Ha Hb Hle.
    destruct (Hall a Ha) as [-> _]. destruct (Hall b Hb) as [-> _].
    now apply confidence_of_monotone.
  - apply confidence_of_monotone.
Qed.

Lemma confidence_is_clamped_ratio_witness :
  exists rs w',
    _parse_segmentation_results "out" (unit_image []) mixed_world = (Ok rs, w')
    /\ map voxel_count rs = [4]
    /\ map confidence rs = [(4 # 1000)%Q]
    /\ Forall (fun v => (confidence v == Qmin (inject_Z (voxel_count v) / 1000) 1)%Q) rs.
Proof.
  eexists _, _. split; [vm_compute; reflexivity|].
  split; [reflexivity|]. split; [reflexivity|].
  destruct (confidence_is_clamped_ratio "out" (unit_image []) mixed_world _ _ eq_refl)
    as [Hall _].
  eapply Forall_impl; [|exact Hall].
  intros v [_ [Hv _]]. exact Hv.
Defined.

(** ** The physical-coordinate transform (C9) *)

(** C9: with positive spacing, the transform to physical coordinates
    followed by its inverse gives back the voxel-space position, exactly,
    over the rationals; this covers every integer voxel index. *)
Theorem physical_round_trip (spacing origin voxel : Q * Q * Q) :
  positive_spacing spacing ->
  Qeq3 (to_voxel spacing origin (to_physical spacing origin voxel)) voxel.
Proof.
  destruct spacing as [[s0 s1] s2], origin as [[o0 o1] o2], voxel as [[z y] x].
  unfold positive_spacing, Qeq3, to_voxel, to_physical. cbn [fst snd].
  intros [H0 [H1 H2]].
  repeat split; field; intros E; rewrite E in *;
    match goal with H : (0 < 0)%Q |- _ => discriminate H end.
Qed.

Lemma physical_round_trip_witness :
  positive_spacing ((1 # 2), (3 # 4), 2)%Q
  /\ to_physical ((1 # 2), (3 # 4), 2)%Q (10, -20, (5 # 2))%Q
                 (inject_Z 3, inject_Z 4, inject_Z 5)
     = ((5 * (1 # 2) + 10)%Q, (4 * (3 # 4) + -20)%Q, (3 * 2 + (5 # 2))%Q)
  /\ Qeq3 (to_voxel ((1 # 2), (3 # 4), 2)%Q (10, -20, (5 # 2))%Q
             (to_physical ((1 # 2), (3 # 4), 2)%Q (10, -20, (5 # 2))%Q
                          (inject_Z 3, inject_Z 4, inject_Z 5)))
          (inject_Z 3, inject_Z 4, inject_Z 5).
Proof.
  assert (H : positive_spacing ((1 # 2), (3 # 4), 2)%Q) by (repeat split).
  split; [exact H|]. split; [reflexivity|].
  exact (physical_round_trip _ _ _ H).
Defined.

(** ** The orchestrator (C1) *)

(** An [Exception] that leaves [load_dicom] is the [ValueError] it builds
    from the [Exception] of one of the two readers. *)
Lemma load_dicom_raises (file_path : string) (w : World) (e : PyException) (w' : World) :
  load_dicom file_path w = (Raise e, w') ->
  w' = w /\ exists e0, e = ValueError ("Failed to load DICOM file: " ++ str_exc e0)
                       /\ (dicom_files w file_path = Raise e0
                           \/ image_files w file_path = Raise e0).
Proof.
  unfold load_dicom, try_except, bind, pydicom_dcmread, sitk_ReadImage, raise, ret.
  destruct (dicom_files w file_path) as [[]|e0|e0] eqn:Hd.
  - destruct (image_files w file_path) as [im|e0|e0] eqn:Hi; intros H; inversion H; subst.
    split; [reflexivity|]. exists e0. split; [reflexivity | now right].
  - intros H; inversion H; subst.
    split; [reflexivity|]. exists e0. split; [reflexivity | now left].
  - discriminate.
Qed.

Section RunInferenceFacts.
Variable totalsegmentator : SegmentatorCall -> M unit.
Variable TemporaryDirectory : M string.
Variable TemporaryDirectory_cleanup : string -> M unit.
Variables (self : VertebraeDetector) (input_path : string).
Variable roi_subset : option (list string).

(** The handler turns an [Exception] of the body into a failure result. *)
Lemma run_inference_catches (w : World) (e : PyException) (w' : World) :
  run_inference_body totalsegmentator TemporaryDirectory TemporaryDirectory_cleanup
                     self input_path roi_subset (now_of w) (tick w)
  = (Raise e, w') ->
  run_inference totalsegmentator TemporaryDirectory TemporaryDirectory_cleanup
                self input_path roi_subset w
  = (Ok (failure_result e (now_of w) w'), tick w').
Proof.
  intros H. unfold run_inference, bind, try_except. cbn [time_time].
  unfold tick, now_of in H. cbn [time_time snd] in H. rewrite H.
  reflexivity.
Qed.

Lemma run_inference_returns (w : World) (r : InferenceResult) (w' : World) :
  run_inference_body totalsegmentator TemporaryDirectory TemporaryDirectory_cleanup
                     self input_path roi_subset (now_of w) (tick w)
  = (Ok r, w') ->
  run_inference totalsegmentator TemporaryDirectory TemporaryDirectory_cleanup
                self input_path roi_subset w
  = (Ok r, w').
Proof.
  intros H. unfold run_inference, bind, try_except. cbn [time_time].
  unfold tick, now_of in H. cbn [time_time snd] in H. rewrite H.
  reflexivity.
Qed.

(** An exit of the body passes the handler and leaves [run_inference]. *)
Lemma run_inference_exits (w : World) (x : PyException) (w' : World) :
  run_inference_body totalsegmentator TemporaryDirectory TemporaryDirectory_cleanup
                     self input_path roi_subset (now_of w) (tick w)
  = (Exit x, w') ->
  run_inference totalsegmentator TemporaryDirectory TemporaryDirectory_cleanup
                self input_path roi_subset w
  = (Exit x, w').
Proof.
  intros H. unfold run_inference, bind, try_except. cbn [time_time].
  unfold tick, now_of in H. cbn [time_time snd] in H. rewrite H.
  reflexivity.
Qed.

(** The body returns only results with [success] true. *)
Lemma run_inference_body_success (t0 : Q) (w : World) (r : InferenceResult) (w' : World) :
  run_inference_body totalsegmentator TemporaryDirectory TemporaryDirectory_cleanup
                     self input_path roi_subset t0 w
  = (Ok r, w') ->
  success r = true.
Proof.
  unfold run_inference_body, with_TemporaryDirectory, bind.
  destruct (load_dicom input_path w) as [[image|e1|e1] w2]; [|discriminate|discriminate].
  destruct (TemporaryDirectory w2) as [[d|e2|e2] w3]; [|discriminate|discriminate].
  destruct (totalsegmentator _ w3) as [[[]|e3|e3] w4].
  - destruct (_parse_segmentation_results d image w4) as [[results|e4|e4] w5].
    + cbn [time_time ret].
      destruct (TemporaryDirectory_cleanup d _) as [[[]|e5|e5] w6];
        intros H; inversion H; subst; reflexivity.
    + destruct (TemporaryDirectory_cleanup d w5) as [[[]|e5|e5] w6]; discriminate.
    + destruct (TemporaryDirectory_cleanup d w5) as [[[]|e5|e5] w6]; discriminate.
  - destruct (TemporaryDirectory_cleanup d w4) as [[[]|e5|e5] w6]; discriminate.
  - destruct (TemporaryDirectory_cleanup d w4) as [[[]|e5|e5] w6]; discriminate.
Qed.

(** How [run_inference] ends, by how its body ends: it returns what the
    body returns, returns a failure result for an [Exception] of the body,
    and leaves by the exit of the body. *)
Lemma run_inference_ends (w : World) :
  (exists r w',
     run_inference totalsegmentator TemporaryDirectory TemporaryDirectory_cleanup
                   self input_path roi_subset w
     = (Ok r, w')
     /\ (success r = false ->
         exists msg now,
           error r = Some msg
           /\ processing_time_ms r = elapsed_ms (now_of w) now))
  \/ (exists x w',
        run_inference totalsegmentator TemporaryDirectory TemporaryDirectory_cleanup
                      self input_path roi_subset w
        = (Exit x, w')
        /\ run_inference_body totalsegmentator TemporaryDirectory
             TemporaryDirectory_cleanup self input_path roi_subset (now_of w) (tick w)
           = (Exit x, w')).
Proof.
  destruct (run_inference_body totalsegmentator TemporaryDirectory
              TemporaryDirectory_cleanup self input_path roi_subset
              (now_of w) (tick w)) as [[r|e|x] w'] eqn:Hb.
  - left. exists r, w'. split; [now apply run_inference_returns|].
    intros Hfalse. apply run_inference_body_success in Hb. congruence.
  - left. exists (failure_result e (now_of w) w'), (tick w').
    split; [now apply run_inference_catches|].
    intros _. now exists (str_exc e), (now_of w').
  - right. exists x, w'. split; [now apply run_inference_exits | reflexivity].
Qed.

End RunInferenceFacts.



(** ** The model manager *)

Lemma get_model_status_unreadable (task : string) (w : ModelManager.World)
    (e : PyException) :
  registered task -> ModelManager.ts_home w = Raise e ->
  ModelManager.get_model_status task w = (Raise e, w).
Proof.
  intros [info Hinfo] Hfs. unfold ModelManager.get_model_status. rewrite Hinfo.
  unfold bind, ModelManager.inspect_ts_home. now rewrite Hfs.
Qed.

(** C7, as the code has it: when the preparation step of [download_model]
    fails for a registered task, the sink receives an event with status
    [error], the message of the failure and progress 0, after the events
    already sent, and the failure is then raised again to the caller;
    without a sink the failure is raised and nothing is reported. *)
Theorem download_failure_reported_then_reraised (task : string) (task_info : TaskInfo)
    (w : ModelManager.World) (e : PyException) :
  dict_lookup AVAILABLE_TASKS task = Some task_info ->
  prepare_fails w e ->
  ModelManager.download_model task (Some ModelManager.callback) w
    = (Raise e, queued w (events_before_failure task_info w ++ [error_event e]))
  /\ ModelManager.status (error_event e) = "error"
  /\ ModelManager.progress (error_event e) = 0%Q
  /\ ModelManager.download_model task None w = (Raise e, w).
Proof.
  intros Hinfo Hfail.
  unfold ModelManager.download_model, ModelManager.download_model_body,
    ModelManager.get_model_status.
  rewrite Hinfo.
  destruct w as [h fs imp q].
  unfold prepare_fails, events_before_failure, queued in *.
  cbn [ModelManager.import_totalsegmentator ModelManager.ts_home ModelManager.home
       ModelManager.progress_queue] in *.
  destruct Hfail as [Himp | [Himp Hfs]]; subst.
  - repeat split. cbn. now rewrite <- app_assoc.
  - repeat split. cbn. now rewrite <- !app_assoc.
Qed.

Lemma download_failure_reported_then_reraised_witness :
  ModelManager.download_model "vertebrae" (Some ModelManager.callback)
                              unreadable_cache_world
  = (Raise (mkExc "PermissionError" "[Errno 13] Permission denied"),
     queued unreadable_cache_world
       [ ModelManager.mkEvent "preparing" "Preparing to download Vertebrae Segmentation" 0;
         ModelManager.mkEvent "downloading" "TotalSegmentator is downloading models..."
                              (1 # 2);
         ModelManager.mkEvent "error"
           "Failed to prepare models: [Errno 13] Permission denied" 0 ]).
Proof.
  destruct (download_failure_reported_then_reraised "vertebrae"
              (mkTaskInfo "Vertebrae Segmentation"
                          "Segments all vertebrae (C1-C7, T1-T12, L1-L5, S1)"
                          "total" 2048 VERTEBRAE_LABELS)
              unreadable_cache_world
              (mkExc "PermissionError" "[Errno 13] Permission denied")
              eq_refl (or_intror (conj eq_refl eq_refl))) as [H _].
  rewrite H. reflexivity.
Defined.

(** C7 as stated fails: with the runtime not installed, [download_model]
    for the registered task [vertebrae] reports the error event to the sink
    and still raises to its caller. *)
Lemma download_raises_past_sink :
  registered "vertebrae"
  /\ prepare_fails no_runtime_world
       (mkExc "ModuleNotFoundError" "No module named 'totalsegmentator'")
  /\ fst (ModelManager.download_model "vertebrae" (Some ModelManager.callback)
                                      no_runtime_world)
     = Raise (mkExc "ModuleNotFoundError" "No module named 'totalsegmentator'")
  /\ ~ (exists r w',
          ModelManager.download_model "vertebrae" (Some ModelManager.callback)
                                      no_runtime_world = (Ok r, w')).
Proof.
  split; [eexists; reflexivity|]. split; [left; reflexivity|].
  split; [reflexivity|]. intros [r [w' H]]. discriminate H.
Qed.

(** C8, as the code has it: for a registered task, when nothing is cached,
    [delete_model] raises nothing, deletes nothing and returns a result
    with [success] false and the message that no models were found; the
    result carries no freed-space entry. *)
Theorem delete_without_cache (task : string) (w : ModelManager.World) :
  registered task ->
  ModelManager.ts_home w = Ok None ->
  ModelManager.delete_model task w
  = (Ok (ModelManager.mkDeleteResult false "No models found to delete" None), w).
Proof.
  intros [info Hinfo] Hfs. unfold ModelManager.delete_model. rewrite Hinfo.
  unfold bind, ModelManager.inspect_ts_home. rewrite Hfs. reflexivity.
Qed.

Lemma delete_without_cache_witness :
  ModelManager.delete_model "total_body" empty_cache_world
  = (Ok (ModelManager.mkDeleteResult false "No models found to delete" None),
     empty_cache_world).
Proof.
  apply delete_without_cache; [eexists; reflexivity | reflexivity].
Defined.

(** C8 as stated fails: the result of [delete_model] on an absent cache has
    no freed-space figure, so none that is zero. *)
Lemma delete_result_has_no_freed_space :
  registered "vertebrae"
  /\ ModelManager.ts_home empty_cache_world = Ok None
  /\ ~ (exists r q,
          fst (ModelManager.delete_model "vertebrae" empty_cache_world) = Ok r
          /\ ModelManager.success r = false
          /\ ModelManager.freed_space_mb r = Some q
          /\ (q == 0)%Q).
Proof.
  split; [eexists; reflexivity|]. split; [reflexivity|].
  intros [r [q [Hr [_ [Hq _]]]]]. cbn in Hr. inversion Hr; subst. discriminate Hq.
Qed.

(** * Further properties of the code *)

(** ** Stability and uniqueness of the sort *)

Lemma key_eqb_eq (k1 k2 : SortKey) : key_eqb k1 k2 = true <-> k1 = k2.
Proof.
  unfold key_eqb. destruct k1 as [a b], k2 as [c d]. cbn [fst snd].
  rewrite andb_true_iff, !Z.eqb_eq. split; [intros [-> ->]; reflexivity|].
  intros H; inversion H; auto.
Qed.

Lemma key_lt_irrefl_eqb (k1 k2 k : SortKey) :
  key_lt k1 k2 = true -> key_eqb k2 k = true -> key_eqb k1 k = false.
Proof.
  intros Hlt He. apply key_eqb_eq in He. subst k.
  destruct (key_eqb k1 k2) eqn:E; [|reflexivity].
  apply key_eqb_eq in E. subst k1. apply key_lt_spec in Hlt. lia.
Qed.

Section Stability.
Context {A : Type}.
Variable key : A -> Result SortKey.

Lemma insert_stable_filter (k : SortKey) (x : SortKey * A) (l : list (SortKey * A)) :
  filter (fun p => key_eqb (fst p) k) (insert_stable x l)
  = filter (fun p => key_eqb (fst p) k) (x :: l).
Proof.
  induction l as [|y l IH]; [reflexivity|].
  cbn [insert_stable]. destruct (key_lt (fst y) (fst x)) eqn:Hlt; [|reflexivity].
  cbn [filter] in *. rewrite IH.
  destruct (key_eqb (fst x) k) eqn:Ex; [|reflexivity].
  now rewrite (key_lt_irrefl_eqb _ _ _ Hlt Ex).
Qed.

Lemma sort_decorated_filter (k : SortKey) (d : list (SortKey * A)) :
  filter (fun p => key_eqb (fst p) k) (sort_decorated d)
  = filter (fun p => key_eqb (fst p) k) d.
Proof.
  induction d as [|x d IH]; [reflexivity|].
  cbn [sort_decorated fold_right]. fold (sort_decorated d).
  rewrite insert_stable_filter. cbn [filter]. now rewrite IH.
Qed.

Lemma filter_decorated (k : SortKey) (d : list (SortKey * A)) :
  Forall (fun p => key (snd p) = Ok (fst p)) d ->
  filter (has_key key k) (map snd d)
  = map snd (filter (fun p => key_eqb (fst p) k) d).
Proof.
  induction 1 as [|p d Hp _ IH]; [reflexivity|].
  cbn [map filter]. unfold has_key at 1. rewrite Hp, IH.
  destruct (key_eqb (fst p) k); reflexivity.
Qed.

(** The sort is stable: the elements that share a key come out in the
    order they went in. *)
Lemma list_sort_stable (l out : list A) (k : SortKey) :
  list_sort key l = Ok out ->
  filter (has_key key k) out = filter (has_key key k) l.
Proof.
  unfold list_sort. destruct (decorate key l) as [d|e|e] eqn:Hd; cbn [rbind];
    [|discriminate|discriminate].
  intros H; inversion H; subst; clear H.
  destruct (decorate_ok _ _ _ Hd) as [Hm Hf].
  rewrite <- Hm.
  rewrite !filter_decorated; [|exact Hf|].
  - now rewrite sort_decorated_filter.
  - apply (Permutation_Forall (sort_decorated_perm d) Hf).
Qed.
End Stability.

(** Two sorted arrangements of the same elements are the same list when no
    two distinct elements are tied. *)
Lemma sorted_perm_unique {A} (R : A -> A -> Prop) (l1 : list A) :
  forall l2,
    StronglySorted R l1 -> StronglySorted R l2 -> Permutation l1 l2 ->
    (forall a b, In a l1 -> In b l1 -> R a b -> R b a -> a = b) ->
    l1 = l2.
Proof.
  induction l1 as [|a t1 IH]; intros l2 H1 H2 Hp Hanti.
  - apply Permutation_nil in Hp. now subst.
  - destruct l2 as [|b t2]; [apply Permutation_sym, Permutation_nil in Hp; discriminate|].
    inversion H1 as [|? ? Hs1 Hall1]; subst. inversion H2 as [|? ? Hs2 Hall2]; subst.
    rewrite Forall_forall in Hall1, Hall2.
    assert (Hab : a = b).
    { assert (Hb : In b (a :: t1))
        by (apply (Permutation_in _ (Permutation_sym Hp)); now left).
      assert (Ha : In a (b :: t2)) by (apply (Permutation_in _ Hp); now left).
      destruct Hb as [E|Hb]; [exact E|]. destruct Ha as [E|Ha]; [now symmetry|].
      apply Hanti; [now left | now right | now apply Hall1 |].
      now apply Hall2. }
    subst b. f_equal. apply IH; try assumption.
    + now apply Permutation_cons_inv in Hp.
    + intros x y Hx Hy. apply Hanti; now right.
Qed.

(** X10: Records whose labels have the same sort key (a label met twice, or
    [T2] and [T02]) keep the order in which the loop appended them. *)
Theorem sort_vertebrae_stable (vs out : list Vertebra) (k : SortKey) :
  sort_vertebrae vs = Ok out ->
  filter (has_key (fun v => _vertebra_sort_key (label v)) k) out
  = filter (has_key (fun v => _vertebra_sort_key (label v)) k) vs.
Proof. apply list_sort_stable. Qed.

Lemma sort_vertebrae_stable_witness :
  exists out,
    sort_vertebrae tied_labels = Ok out
    /\ map label out = ["C1"; "T2"; "T02"]
    /\ map label (filter (has_key (fun v => _vertebra_sort_key (label v)) (1, 2)) out)
       = ["T2"; "T02"].
Proof.
  eexists. split; [vm_compute; reflexivity|]. split; [reflexivity|].
  rewrite (sort_vertebrae_stable tied_labels _ (1, 2)); [reflexivity|].
  vm_compute. reflexivity.
Defined.

(** ** The default request, end to end *)

Lemma default_labels_value :
  default_labels
  = ["C1"; "C2"; "C3"; "C4"; "C5"; "C6"; "C7";
     "T1"; "T2"; "T3"; "T4"; "T5"; "T6"; "T7"; "T8"; "T9"; "T10"; "T11"; "T12";
     "L1"; "L2"; "L3"; "L4"; "L5"; "S1"].
Proof. vm_compute. reflexivity. Qed.

Lemma default_names_labels : map label_of_file default_mask_names = default_labels.
Proof. vm_compute. reflexivity. Qed.

Lemma default_names_qualify (name : string) :
  In name default_mask_names ->
  qualifies name = true /\ PyStr.endswith ".nii.gz" name = true.
Proof.
  assert (H : forallb (fun n => qualifies n && PyStr.endswith ".nii.gz" n)
                      default_mask_names = true) by (vm_compute; reflexivity).
  rewrite forallb_forall in H. intros Hin.
  apply H in Hin. now apply andb_true_iff in Hin.
Qed.

Lemma default_labels_sorted :
  StronglySorted (key_le _vertebra_sort_key) default_labels.
Proof.
  assert (H : list_sort _vertebra_sort_key default_labels = Ok default_labels)
    by (vm_compute; reflexivity).
  now destruct (list_sort_ok _ _ _ H).
Qed.

(** The default labels have pairwise different sort keys. *)
Lemma default_labels_untied (a b : string) :
  In a default_labels -> In b default_labels ->
  key_le _vertebra_sort_key a b -> key_le _vertebra_sort_key b a -> a = b.
Proof.
  assert (H : forallb (fun a =>
                forallb (fun b =>
                  match _vertebra_sort_key a, _vertebra_sort_key b with
                  | Ok ka, Ok kb =>
                      implb (negb (key_lt ka kb) && negb (key_lt kb ka)) (String.eqb a b)
                  | _, _ => false
                  end) default_labels) default_labels = true)
    by (vm_compute; reflexivity).
  rewrite forallb_forall in H. intros Ha Hb Hab Hba.
  specialize (H a Ha). rewrite forallb_forall in H. specialize (H b Hb).
  destruct (_vertebra_sort_key a) as [ka| |] eqn:Hka; [|discriminate|discriminate].
  destruct (_vertebra_sort_key b) as [kb| |] eqn:Hkb; [|discriminate|discriminate].
  rewrite (Hab ka kb Hka Hkb), (Hba kb ka Hkb Hka) in H.
  cbn in H. now apply String.eqb_eq.
Qed.

Lemma default_labels_keys (a : string) :
  In a default_labels -> exists k, _vertebra_sort_key a = Ok k.
Proof.
  assert (H : forallb (fun a => match _vertebra_sort_key a with
                                | Ok _ => true | _ => false end)
                      default_labels = true) by (vm_compute; reflexivity).
  rewrite forallb_forall in H. intros Ha. specialize (H a Ha).
  destruct (_vertebra_sort_key a) as [k| |]; [now exists k | discriminate | discriminate].
Qed.

(** Records labelled with the default labels, in any order, are sorted into
    the order of the table. *)
Lemma sort_default_labels (vs : list Vertebra) :
  Permutation (map label vs) default_labels ->
  exists out, sort_vertebrae vs = Ok out /\ map label out = default_labels.
Proof.
  intros Hp.
  destruct (list_sort_defined (fun v => _vertebra_sort_key (label v)) vs) as [out Hout].
  { apply Forall_forall. intros v Hv. apply default_labels_keys.
    apply (Permutation_in _ Hp). now apply in_map. }
  exists out. split; [exact Hout|].
  pose proof (list_sort_map label _vertebra_sort_key vs out Hout) as Hl.
  destruct (list_sort_ok _ _ _ Hl) as [Hperm Hsorted].
  assert (Hp' : Permutation (map label out) default_labels)
    by (etransitivity; [symmetry; exact Hperm | exact Hp]).
  apply (sorted_perm_unique (key_le _vertebra_sort_key));
    [exact Hsorted | apply default_labels_sorted | exact Hp' |].
  intros a b Ha Hb. apply default_labels_untied; now apply (Permutation_in _ Hp').
Qed.

Lemma records_of_all_emitted (w : World) (d : string) (img : Image) (files : list string) :
  Forall (fun name =>
            qualifies name = true
            /\ exists mask, image_files w (path_join d name) = Ok mask
                            /\ 0 < np.count_pos (GetArrayFromImage mask)) files ->
  map label (records_of w d img files) = map label_of_file files
  /\ warnings_of w d img files = [].
Proof.
  induction 1 as [|name files [Hq [mask [Hr Hpos]]] _ [IHr IHw]]; [now split|].
  change (name :: files) with ([name] ++ files)%list.
  rewrite records_of_app, warnings_of_app, map_app, IHr, IHw.
  unfold records_of, warnings_of. cbn [flat_map].
  rewrite (outcome_occupied _ _ _ _ _ _ Hq Hr Hpos). cbn [emitted warned app map].
  now rewrite vertebra_record_label.
Qed.

(** X11: When the directory holds the default masks, listed in any order, each
    of them readable with positive voxels, the parser returns the 25
    records in the order C1-C7, T1-T12, L1-L5, S1 and prints nothing. *)
Theorem default_masks_parse_in_table_order (output_dir : string) (img : Image) (w : World) :
  Permutation (mask_files w output_dir) default_mask_names ->
  (forall name, In name default_mask_names ->
     exists mask, image_files w (path_join output_dir name) = Ok mask
                  /\ 0 < np.count_pos (GetArrayFromImage mask)) ->
  exists rs,
    _parse_segmentation_results output_dir img w = (Ok rs, w)
    /\ map label rs
       = ["C1"; "C2"; "C3"; "C4"; "C5"; "C6"; "C7";
          "T1"; "T2"; "T3"; "T4"; "T5"; "T6"; "T7"; "T8"; "T9"; "T10"; "T11"; "T12";
          "L1"; "L2"; "L3"; "L4"; "L5"; "S1"].
Proof.
  intros Hp Hread.
  destruct (records_of_all_emitted w output_dir img (mask_files w output_dir))
    as [Hlabels Hwarn].
  { apply Forall_forall. intros name Hin.
    apply (Permutation_in _ Hp) in Hin.
    split; [now apply default_names_qualify | now apply Hread]. }
  destruct (sort_default_labels (records_of w output_dir img (mask_files w output_dir)))
    as [out [Hsort Hout]].
  { rewrite Hlabels, <- default_names_labels. now apply Permutation_map. }
  exists out. rewrite parse_spec, Hsort, Hwarn, add_stdout_nil.
  - split; [reflexivity|]. now rewrite Hout, default_labels_value.
  - apply Forall_forall. intros name Hin. apply (Permutation_in _ Hp) in Hin.
    destruct (Hread name Hin) as [mask [Hr _]].
    unfold interrupted. rewrite Hr. apply andb_false_r.
Qed.

Lemma default_masks_parse_in_table_order_witness :
  exists rs,
    _parse_segmentation_results "out" (unit_image []) full_spine_world
    = (Ok rs, full_spine_world)
    /\ map label rs
       = ["C1"; "C2"; "C3"; "C4"; "C5"; "C6"; "C7";
          "T1"; "T2"; "T3"; "T4"; "T5"; "T6"; "T7"; "T8"; "T9"; "T10"; "T11"; "T12";
          "L1"; "L2"; "L3"; "L4"; "L5"; "S1"].
Proof.
  apply default_masks_parse_in_table_order.
  - change (mask_files full_spine_world "out") with (rev default_mask_names).
    apply Permutation_sym, Permutation_rev.
  - intros name _. eexists. split; [reflexivity|]. reflexivity.
Defined.

(** ** What the parser reads and prints *)

Lemma records_of_qualifying (w : World) (d : string) (img : Image) (files : list string) :
  records_of w d img files = records_of w d img (filter qualifies files).
Proof.
  induction files as [|name files IH]; [reflexivity|].
  change (name :: files) with ([name] ++ files)%list.
  rewrite records_of_app, IH. cbn [app filter].
  destruct (qualifies name) eqn:Hq.
  - change (name :: filter qualifies files) with ([name] ++ filter qualifies files)%list.
    now rewrite records_of_app.
  - unfold records_of at 1. cbn [flat_map].
    now rewrite (outcome_not_qualifying _ _ _ _ _ Hq).
Qed.

Lemma warnings_of_qualifying (w : World) (d : string) (img : Image) (files : list string) :
  warnings_of w d img files = flat_map (read_warning w d) (filter qualifies files).
Proof.
  induction files as [|name files IH]; [reflexivity|].
  change (name :: files) with ([name] ++ files)%list.
  rewrite warnings_of_app, IH. cbn [app filter].
  unfold warnings_of. cbn [flat_map]. unfold file_outcome.
  destruct (qualifies name) eqn:Hq; cbn [negb]; [|reflexivity].
  cbn [flat_map]. unfold read_warning at 2.
  destruct (image_files w (path_join d name)) as [mask|e|e]; [|reflexivity|reflexivity].
  destruct (negb (np.any (GetArrayFromImage mask))); [reflexivity|].
  destruct (List.length (np.argwhere_pos (GetArrayFromImage mask)) =? 0)%nat; reflexivity.
Qed.

(** The loop passes over the files that do not qualify. *)
Lemma loop_outcomes_qualifying (w : World) (d : string) (img : Image)
    (files : list string) :
  forall (acc : list Vertebra) (lines : list string),
    loop_outcomes (outcomes_of w d img files) acc lines
    = loop_outcomes (outcomes_of w d img (filter qualifies files)) acc lines.
Proof.
  unfold outcomes_of.
  induction files as [|name files IH]; intros acc lines; [reflexivity|].
  cbn [map filter]. destruct (qualifies name) eqn:Hq.
  - cbn [map loop_outcomes].
    destruct (file_outcome (image_files w) d (GetSpacing img) (GetOrigin img) name);
      [apply IH | apply IH | apply IH | reflexivity].
  - rewrite (outcome_not_qualifying _ _ _ _ _ Hq). cbn [loop_outcomes]. apply IH.
Qed.

Lemma uninterrupted_qualifying (w : World) (d : string) (files : list string) :
  uninterrupted w d (filter qualifies files) -> uninterrupted w d files.
Proof.
  unfold uninterrupted. rewrite !Forall_forall. intros H name Hin.
  destruct (qualifies name) eqn:Hq.
  - apply H. apply filter_In. now split.
  - unfold interrupted. now rewrite Hq.
Qed.

(** X5: The parser looks only at the [.nii.gz] files whose name passes the
    [vertebrae_] filter: the call is the extraction over those alone.  It
    changes nothing in the world but the output; when no reading of these
    files is interrupted, it adds one warning for each of them that cannot
    be read, in listing order. *)
Theorem parser_reads_only_qualifying_masks (output_dir : string) (img : Image) (w : World) :
  _parse_segmentation_results output_dir img w
    = extract_listing output_dir img (filter qualifies (mask_files w output_dir)) w
  /\ (exists lines,
        snd (_parse_segmentation_results output_dir img w) = add_stdout w lines)
  /\ (uninterrupted w output_dir (filter qualifies (mask_files w output_dir)) ->
      snd (_parse_segmentation_results output_dir img w)
      = add_stdout w (flat_map (read_warning w output_dir)
                               (filter qualifies (mask_files w output_dir)))).
Proof.
  split; [|split].
  - rewrite parse_is_extract_listing, !extract_listing_loop.
    now rewrite loop_outcomes_qualifying.
  - rewrite parse_is_extract_listing, extract_listing_loop. eexists. reflexivity.
  - intros Hu. apply uninterrupted_qualifying in Hu.
    rewrite parse_spec by exact Hu. cbn [snd].
    now rewrite warnings_of_qualifying.
Qed.

Lemma parser_reads_only_qualifying_masks_witness :
  snd (_parse_segmentation_results "out" (unit_image []) corrupt_and_valid_world)
  = add_stdout corrupt_and_valid_world
      ["Warning: Failed to process vertebrae_L2: Unable to read image"].
Proof.
  destruct (parser_reads_only_qualifying_masks "out" (unit_image [])
              corrupt_and_valid_world) as [_ [_ H]].
  rewrite H; [reflexivity | repeat constructor].
Defined.

Lemma outcome_count (w : World) (d : string) (img : Image) (files : list string) :
  (List.length (records_of w d img files) + List.length (warnings_of w d img files)
   <= List.length (filter qualifies files))%nat.
Proof.
  induction files as [|name files IH]; [cbn; lia|].
  change (name :: files) with ([name] ++ files)%list.
  rewrite records_of_app, warnings_of_app, !length_app. cbn [app filter].
  unfold records_of at 1, warnings_of at 1. cbn [flat_map]. rewrite !app_nil_r.
  destruct (qualifies name) eqn:Hq.
  - cbn [List.length].
    destruct (file_outcome (image_files w) d (GetSpacing img) (GetOrigin img) name);
      cbn [emitted warned List.length]; lia.
  - rewrite (outcome_not_qualifying _ _ _ _ _ Hq). cbn [emitted warned List.length]. lia.
Qed.

(** X6: A file gives at most one record or one warning: the records and the
    warnings together are no more than the qualifying files, and the label
    of every record is the one derived from the name of such a file. *)
Theorem one_record_per_mask (output_dir : string) (img : Image) (w : World)
    (rs : list Vertebra) (w' : World) :
  _parse_segmentation_results output_dir img w = (Ok rs, w') ->
  (List.length rs + (List.length (stdout w') - List.length (stdout w))
   <= List.length (filter qualifies (mask_files w output_dir)))%nat
  /\ Forall (fun v => exists name,
               In name (filter qualifies (mask_files w output_dir))
               /\ label v = label_of_file name) rs.
Proof.
  intros H. apply parse_returns in H. destruct H as [Hs Hw]. subst w'.
  split.
  - destruct (list_sort_ok _ _ _ Hs) as [Hp _].
    rewrite <- (Permutation_length Hp). cbn [stdout add_stdout]. rewrite length_app.
    pose proof (outcome_count w output_dir img (mask_files w output_dir)). lia.
  - apply (Forall_sorted_records _ _ _ Hs).
    apply Forall_forall. intros v Hv. apply records_of_in in Hv.
    destruct Hv as [name [Hin Ho]]. apply outcome_emitted in Ho.
    destruct Ho as [mask [Hq [_ [_ ->]]]].
    exists name. split; [apply filter_In; now split|].
    apply vertebra_record_label.
Qed.

Lemma one_record_per_mask_witness :
  exists rs w',
    _parse_segmentation_results "out" (unit_image []) mixed_world = (Ok rs, w')
    /\ List.length (filter qualifies (mask_files mixed_world "out")) = 3%nat
    /\ (List.length rs + (List.length (stdout w') - List.length (stdout mixed_world))
        <= 3)%nat.
Proof.
  eexists _, _. split; [vm_compute; reflexivity|]. split; [reflexivity|].
  apply (one_record_per_mask "out" (unit_image []) mixed_world). vm_compute. reflexivity.
Defined.

(** ** The bounding box and the positive voxels *)

Lemma enumerate_from_In {A} (l : list A) :
  forall (k i : Z) (v : A),
    In (i, v) (np.enumerate_from k l)
    <-> k <= i /\ nth_error l (Z.to_nat (i - k)) = Some v.
Proof.
  induction l as [|a l IH]; intros k i v; cbn [np.enumerate_from In].
  - split; [contradiction|]. intros [_ H]. destruct (Z.to_nat (i - k)); discriminate H.
  - rewrite IH. split.
    + intros [H|[Hle Hn]].
      * inversion H; subst. split; [lia|]. now rewrite Z.sub_diag.
      * split; [lia|].
        replace (Z.to_nat (i - k)) with (S (Z.to_nat (i - (k + 1)))) by lia.
        exact Hn.
    + intros [Hle Hn]. destruct (Z.eq_dec i k) as [->|Hne].
      * left. rewrite Z.sub_diag in Hn. cbn in Hn. now inversion Hn.
      * right. split; [lia|].
        replace (Z.to_nat (i - k)) with (S (Z.to_nat (i - (k + 1)))) in Hn by lia.
        exact Hn.
Qed.

Lemma enumerate_In {A} (l : list A) (i : Z) (v : A) :
  In (i, v) (np.enumerate l) <-> 0 <= i /\ nth_error l (Z.to_nat i) = Some v.
Proof. unfold np.enumerate. rewrite enumerate_from_In, Z.sub_0_r. reflexivity. Qed.

(** [np.argwhere(a > 0)] lists exactly the indices of the positive voxels. *)
Lemma argwhere_pos_In (a : Array3) (z y x : Z) :
  In (z, y, x) (np.argwhere_pos a)
  <-> 0 <= z /\ 0 <= y /\ 0 <= x
      /\ positive_voxel a (Z.to_nat z) (Z.to_nat y) (Z.to_nat x).
Proof.
  unfold np.argwhere_pos, positive_voxel, voxel. rewrite in_flat_map. split.
  - intros [[z' plane] [Hz H]]. apply enumerate_In in Hz. destruct Hz as [Hz0 Hz].
    rewrite in_flat_map in H. destruct H as [[y' row] [Hy H]].
    apply enumerate_In in Hy. destruct Hy as [Hy0 Hy].
    rewrite in_flat_map in H. destruct H as [[x' v] [Hx H]].
    apply enumerate_In in Hx. destruct Hx as [Hx0 Hx].
    destruct (0 <? v) eqn:Hv; [|contradiction].
    destruct H as [H|[]]. inversion H; subst.
    repeat split; try assumption. exists v. rewrite Hz, Hy, Hx.
    split; [reflexivity | now apply Z.ltb_lt].
  - intros [Hz0 [Hy0 [Hx0 [v [Hv Hpos]]]]].
    destruct (nth_error a (Z.to_nat z)) as [plane|] eqn:Hz; [|discriminate].
    destruct (nth_error plane (Z.to_nat y)) as [row|] eqn:Hy; [|discriminate].
    exists (z, plane). split; [apply enumerate_In; now split|].
    rewrite in_flat_map. exists (y, row). split; [apply enumerate_In; now split|].
    rewrite in_flat_map. exists (x, v). split; [apply enumerate_In; now split|].
    apply Z.ltb_lt in Hpos. rewrite Hpos. now left.
Qed.

Lemma minimum_In (l : list Z) : l <> [] -> In (np.minimum l) l.
Proof.
  destruct l as [|a l]; [congruence|]. intros _. cbn [np.minimum].
  revert a. induction l as [|b l IH]; intros a; cbn [fold_right].
  - now left.
  - destruct (Z.min_spec b (fold_right Z.min a l)) as [[_ ->]|[_ ->]].
    + right. now left.
    + destruct (IH a) as [E|Hin]; [now left | right; now right].
Qed.

Lemma maximum_In (l : list Z) : l <> [] -> In (np.maximum l) l.
Proof.
  destruct l as [|a l]; [congruence|]. intros _. cbn [np.maximum].
  revert a. induction l as [|b l IH]; intros a; cbn [fold_right].
  - now left.
  - destruct (Z.max_spec b (fold_right Z.max a l)) as [[_ ->]|[_ ->]].
    + destruct (IH a) as [E|Hin]; [now left | right; now right].
    + right. now left.
Qed.

Section Box.
Variables (id : string) (a : Array3) (sp og : Q * Q * Q).

Lemma record_box_encloses : box_encloses a (vertebra_record id a (np.argwhere_pos a) sp og).
Proof.
  destruct (vertebra_record_centre_and_box id a (np.argwhere_pos a) sp og)
    as [_ [Hmin Hmax]].
  intros z y x Hpos. rewrite Hmin, Hmax. cbn [x_of y_of z_of].
  assert (Hin : In (Z.of_nat z, Z.of_nat y, Z.of_nat x) (np.argwhere_pos a)).
  { apply argwhere_pos_In. rewrite !Nat2Z.id. repeat split; try lia. exact Hpos. }
  repeat split;
    (apply minimum_le || apply maximum_ge);
    solve [ apply (in_map snd) in Hin; exact Hin
          | apply (in_map (fun p => snd (fst p))) in Hin; exact Hin
          | apply (in_map (fun p => fst (fst p))) in Hin; exact Hin ].
Qed.

Lemma axis_member (f : Z * Z * Z -> Z) (m : Z) :
  In m (map f (np.argwhere_pos a)) ->
  exists z y x, positive_voxel a z y x /\ f (Z.of_nat z, Z.of_nat y, Z.of_nat x) = m.
Proof.
  rewrite in_map_iff. intros [[[z y] x] [Hf Hin]].
  apply argwhere_pos_In in Hin. destruct Hin as [Hz [Hy [Hx Hpos]]].
  exists (Z.to_nat z), (Z.to_nat y), (Z.to_nat x). split; [exact Hpos|].
  now rewrite !Z2Nat.id by assumption.
Qed.

Lemma record_box_is_tight :
  np.argwhere_pos a <> [] ->
  box_is_tight a (vertebra_record id a (np.argwhere_pos a) sp og).
Proof.
  intros Hne.
  destruct (vertebra_record_centre_and_box id a (np.argwhere_pos a) sp og)
    as [_ [Hmin Hmax]].
  assert (H0 : np.axis0 (np.argwhere_pos a) <> [])
    by (unfold np.axis0; destruct (np.argwhere_pos a); [congruence | discriminate]).
  assert (H1 : np.axis1 (np.argwhere_pos a) <> [])
    by (unfold np.axis1; destruct (np.argwhere_pos a); [congruence | discriminate]).
  assert (H2 : np.axis2 (np.argwhere_pos a) <> [])
    by (unfold np.axis2; destruct (np.argwhere_pos a); [congruence | discriminate]).
  unfold box_is_tight. rewrite Hmin, Hmax. cbn [x_of y_of z_of].
  repeat split.
  - destruct (axis_member snd _ (minimum_In _ H2)) as [z [y [x [Hp E]]]]. now exists z, y, x.
  - destruct (axis_member snd _ (maximum_In _ H2)) as [z [y [x [Hp E]]]]. now exists z, y, x.
  - destruct (axis_member (fun p => snd (fst p)) _ (minimum_In _ H1)) as [z [y [x [Hp E]]]].
    now exists z, y, x.
  - destruct (axis_member (fun p => snd (fst p)) _ (maximum_In _ H1)) as [z [y [x [Hp E]]]].
    now exists z, y, x.
  - destruct (axis_member (fun p => fst (fst p)) _ (minimum_In _ H0)) as [z [y [x [Hp E]]]].
    now exists z, y, x.
  - destruct (axis_member (fun p => fst (fst p)) _ (maximum_In _ H0)) as [z [y [x [Hp E]]]].
    now exists z, y, x.
Qed.
End Box.

(** X7: The box of every record is the bounding box of the positive voxels of
    the mask it was built from: it holds all of them, each of its faces
    passes through one, and [voxel_count] is their number. *)
Theorem bounds_are_the_bounding_box (output_dir : string) (img : Image) (w : World)
    (rs : list Vertebra) (w' : World) :
  _parse_segmentation_results output_dir img w = (Ok rs, w') ->
  Forall (fun v =>
            exists name mask,
              In name (mask_files w output_dir)
              /\ image_files w (path_join output_dir name) = Ok mask
              /\ label v = label_of_file name
              /\ box_encloses (GetArrayFromImage mask) v
              /\ box_is_tight (GetArrayFromImage mask) v
              /\ voxel_count v
                 = Z.of_nat (List.length (np.argwhere_pos (GetArrayFromImage mask)))) rs.
Proof.
  intros H. apply parse_returns in H. destruct H as [Hs Hw].
  apply (Forall_sorted_records _ _ _ Hs).
  apply Forall_forall. intros v Hv. apply records_of_in in Hv.
  destruct Hv as [name [Hin Ho]]. apply outcome_emitted in Ho.
  destruct Ho as [mask [_ [Hread [Hne ->]]]].
  exists name, mask. split; [exact Hin|]. split; [exact Hread|].
  split; [apply vertebra_record_label|].
  split; [apply record_box_encloses|].
  split; [now apply record_box_is_tight|].
  rewrite vertebra_record_voxel_count. apply count_pos_argwhere.
Qed.

Lemma bounds_are_the_bounding_box_witness :
  exists rs w',
    _parse_segmentation_results "out" (unit_image []) mixed_world = (Ok rs, w')
    /\ Forall (fun v =>
                 exists name mask,
                   image_files mixed_world (path_join "out" name) = Ok mask
                   /\ box_encloses (GetArrayFromImage mask) v) rs.
Proof.
  eexists _, _. split; [vm_compute; reflexivity|].
  eapply Forall_impl;
    [|eapply (bounds_are_the_bounding_box "out" (unit_image []) mixed_world);
      vm_compute; reflexivity].
  intros v [name [mask [_ [Hr [_ [He _]]]]]]. now exists name, mask.
Defined.

(** ** Accuracy of the stored centre *)

Lemma py_round_close (x : Q) : Qclose (1 # 2) (inject_Z (py_round x)) x.
Proof.
  unfold Qclose, py_round.
  pose proof (Qfloor_le x) as Hlo. pose proof (Qlt_floor x) as Hhi.
  rewrite inject_Z_plus in Hhi. change (inject_Z 1) with 1%Q in Hhi.
  destruct (Qcompare (x - inject_Z (Qfloor x)) (1 # 2)) eqn:Hc.
  - apply Qeq_alt in Hc.
    destruct (Z.even (Qfloor x));
      [|rewrite inject_Z_plus; change (inject_Z 1) with 1%Q]; split; lra.
  - apply Qlt_alt in Hc. split; lra.
  - apply Qgt_alt in Hc. rewrite inject_Z_plus. change (inject_Z 1) with 1%Q.
    split; lra.
Qed.

Lemma py_round_2_close (x : Q) : Qclose (1 # 200) (py_round_ndigits x 2) x.
Proof.
  unfold py_round_ndigits. replace (10 ^ 2) with 100 by reflexivity.
  destruct (py_round_close (x * inject_Z 100)) as [H1 H2].
  unfold Qclose, Qdiv. change (/ inject_Z 100)%Q with (1 # 100)%Q.
  change (inject_Z 100) with 100%Q in *.
  split; lra.
Qed.

Lemma vertebra_record_centres (id : string) (a : Array3) (sp og : Q * Q * Q) :
  let v := vertebra_record id a (np.argwhere_pos a) sp og in
  let c := centroid_of a in
  let p := to_physical sp og c in
  center v = XYZ (py_round (snd c)) (py_round (snd (fst c))) (py_round (fst (fst c)))
  /\ center_physical v
     = XYZ (py_round_ndigits (fst (fst p)) 2) (py_round_ndigits (snd (fst p)) 2)
           (py_round_ndigits (snd p) 2).
Proof.
  unfold vertebra_record, centroid_of, to_physical.
  destruct sp as [[s0 s1] s2], og as [[o0 o1] o2]. split; reflexivity.
Qed.

(** X8: The stored centre of every record is within half a voxel of the
    centroid of the positive voxels of its mask, on each axis, and the
    stored physical centre within 0.005 of the centroid taken through
    spacing and origin (x with [spacing[0]], z with [spacing[2]]). *)
Theorem centre_is_rounded_centroid (output_dir : string) (img : Image) (w : World)
    (rs : list Vertebra) (w' : World) :
  _parse_segmentation_results output_dir img w = (Ok rs, w') ->
  Forall (fun v =>
            exists name mask,
              In name (mask_files w output_dir)
              /\ image_files w (path_join output_dir name) = Ok mask
              /\ let '(cz, cy, cx) := centroid_of (GetArrayFromImage mask) in
                 let '(s0, s1, s2) := GetSpacing img in
                 let '(o0, o1, o2) := GetOrigin img in
                 Qclose (1 # 2) (inject_Z (x_of (center v))) cx
                 /\ Qclose (1 # 2) (inject_Z (y_of (center v))) cy
                 /\ Qclose (1 # 2) (inject_Z (z_of (center v))) cz
                 /\ Qclose (1 # 200) (x_of (center_physical v)) (cx * s0 + o0)
                 /\ Qclose (1 # 200) (y_of (center_physical v)) (cy * s1 + o1)
                 /\ Qclose (1 # 200) (z_of (center_physical v)) (cz * s2 + o2)) rs.
Proof.
  intros H. apply parse_returns in H. destruct H as [Hs Hw].
  apply (Forall_sorted_records _ _ _ Hs).
  apply Forall_forall. intros v Hv. apply records_of_in in Hv.
  destruct Hv as [name [Hin Ho]]. apply outcome_emitted in Ho.
  destruct Ho as [mask [_ [Hread [_ ->]]]].
  exists name, mask. split; [exact Hin|]. split; [exact Hread|].
  destruct (vertebra_record_centres (label_of_file name) (GetArrayFromImage mask)
              (GetSpacing img) (GetOrigin img)) as [Hc Hp].
  rewrite Hc, Hp. unfold to_physical.
  destruct (centroid_of (GetArrayFromImage mask)) as [[cz cy] cx].
  destruct (GetSpacing img) as [[s0 s1] s2], (GetOrigin img) as [[o0 o1] o2].
  cbn [x_of y_of z_of fst snd].
  repeat split; try apply py_round_close; apply py_round_2_close.
Qed.

Lemma centre_is_rounded_centroid_witness :
  exists rs w',
    _parse_segmentation_results "out" (unit_image []) mixed_world = (Ok rs, w')
    /\ map center rs = [XYZ 2 1 0]
    /\ centroid_of [[[0; 0; 0]; [0; 1; 1]]; [[0; 0; 0]; [0; 1; 1]]]
       = ((2 # 4)%Q, (4 # 4)%Q, (6 # 4)%Q)
    /\ Forall (fun v => exists name mask,
                 In name (mask_files mixed_world "out")
                 /\ image_files mixed_world (path_join "out" name) = Ok mask) rs.
Proof.
  eexists _, _. split; [vm_compute; reflexivity|].
  split; [reflexivity|]. split; [reflexivity|].
  eapply Forall_impl;
    [|eapply (centre_is_rounded_centroid "out" (unit_image []) mixed_world);
      vm_compute; reflexivity].
  intros v [name [mask [Hin [Hr _]]]]. now exists name, mask.
Defined.

(** ** Confidence is never zero *)

(** X9: Every record has a confidence of at least 0.001: a mask that gives a
    record has a positive voxel, and one voxel counts for a thousandth. *)
Theorem confidence_at_least_one_thousandth (output_dir : string) (img : Image) (w : World)
    (rs : list Vertebra) (w' : World) :
  _parse_segmentation_results output_dir img w = (Ok rs, w') ->
  Forall (fun v => (1 # 1000 <= confidence v)%Q) rs.
Proof.
  intros H. apply parse_returns in H. destruct H as [Hs Hw].
  apply (Forall_sorted_records _ _ _ Hs).
  apply Forall_forall. intros v Hv. apply records_of_in in Hv.
  destruct Hv as [name [_ Ho]]. apply outcome_emitted in Ho.
  destruct Ho as [mask [_ [_ [Hne ->]]]].
  rewrite vertebra_record_confidence.
  assert (Hpos : 1 <= np.count_pos (GetArrayFromImage mask)).
  { rewrite count_pos_argwhere.
    destruct (np.argwhere_pos (GetArrayFromImage mask)); [congruence|].
    cbn [List.length]. lia. }
  apply confidence_of_monotone in Hpos.
  eapply Qle_trans; [|exact Hpos]. vm_compute. discriminate.
Qed.

Lemma confidence_at_least_one_thousandth_witness :
  exists rs w',
    _parse_segmentation_results "out" (unit_image []) corrupt_and_valid_world = (Ok rs, w')
    /\ Forall (fun v => (1 # 1000 <= confidence v)%Q) rs.
Proof.
  eexists _, _. split; [vm_compute; reflexivity|].
  eapply (confidence_at_least_one_thousandth "out" (unit_image []) corrupt_and_valid_world).
  vm_compute. reflexivity.
Defined.

(** ** Loading the scan *)

(** X1: [load_dicom] leaves the world as it is.  An [Exception] that leaves
    it is a [ValueError] whose message is [Failed to load DICOM file: ]
    followed by the text of the [Exception] of the first reader that
    raised (pydicom, else SimpleITK).  An exception of a reader that is no
    [Exception] ([KeyboardInterrupt], [SystemExit]) leaves it as it
    is, unwrapped.  It returns the image exactly when both reads
    succeed. *)
Theorem load_dicom_wraps_errors (file_path : string) (w : World) :
  snd (load_dicom file_path w) = w
  /\ (forall e,
        fst (load_dicom file_path w) = Raise e <->
        exists e0,
          e = ValueError ("Failed to load DICOM file: " ++ str_exc e0)
          /\ (dicom_files w file_path = Raise e0
              \/ (dicom_files w file_path = Ok tt
                  /\ image_files w file_path = Raise e0)))
  /\ (forall x,
        fst (load_dicom file_path w) = Exit x <->
        (dicom_files w file_path = Exit x
         \/ (dicom_files w file_path = Ok tt
             /\ image_files w file_path = Exit x)))
  /\ (forall image,
        fst (load_dicom file_path w) = Ok image
        <-> dicom_files w file_path = Ok tt /\ image_files w file_path = Ok image).
Proof.
  unfold load_dicom, try_except, bind, pydicom_dcmread, sitk_ReadImage, raise, ret.
  destruct (dicom_files w file_path) as [[]|e0|x0] eqn:Hd.
  - destruct (image_files w file_path) as [im|e0|x0] eqn:Hi; cbn [fst snd].
    + split; [reflexivity|]. split; [|split].
      * intros e. split; [discriminate|].
        intros [e1 [_ [H|[_ H]]]]; discriminate H.
      * intros x. split; [discriminate|]. intros [H|[_ H]]; discriminate H.
      * intros image. split; [intros H; inversion H; now split|].
        intros [_ H]. now inversion H.
    + split; [reflexivity|]. split; [|split].
      * intros e. split.
        -- intros H. inversion H. exists e0. split; [reflexivity|]. right. now split.
        -- intros [e1 [-> [H|[_ H]]]]; [discriminate H|]. now inversion H.
      * intros x. split; [discriminate|]. intros [H|[_ H]]; discriminate H.
      * intros image. split; [discriminate|]. intros [_ H]. discriminate H.
    + split; [reflexivity|]. split; [|split].
      * intros e. split; [discriminate|].
        intros [e1 [_ [H|[_ H]]]]; discriminate H.
      * intros x. split.
        -- intros H. inversion H. right. now split.
        -- intros [H|[_ H]]; [discriminate H|]. now inversion H.
      * intros image. split; [discriminate|]. intros [_ H]. discriminate H.
  - cbn [fst snd]. split; [reflexivity|]. split; [|split].
    + intros e. split.
      * intros H. inversion H. exists e0. split; [reflexivity|]. now left.
      * intros [e1 [-> [H|[H _]]]]; [now inversion H | discriminate H].
    + intros x. split; [discriminate|]. intros [H|[H _]]; discriminate H.
    + intros image. split; [discriminate|]. intros [H _]. discriminate H.
  - cbn [fst snd]. split; [reflexivity|]. split; [|split].
    + intros e. split; [discriminate|].
      intros [e1 [_ [H|[H _]]]]; discriminate H.
    + intros x. split.
      * intros H. inversion H. now left.
      * intros [H|[H _]]; [now inversion H | discriminate H].
    + intros image. split; [discriminate|]. intros [H _]. discriminate H.
Qed.

(** ** The result of [run_inference] *)

Section RunInferenceShape.
Variable totalsegmentator : SegmentatorCall -> M unit.
Variable TemporaryDirectory : M string.
Variable TemporaryDirectory_cleanup : string -> M unit.
Variables (self : VertebraeDetector) (input_path : string).
Variable roi_subset : option (list string).

Lemma run_inference_body_ok (t0 : Q) (w : World) (r : InferenceResult) (w' : World) :
  run_inference_body totalsegmentator TemporaryDirectory TemporaryDirectory_cleanup
                     self input_path roi_subset t0 w
  = (Ok r, w') ->
  exists image w2 d w3 w4 results w5,
    load_dicom input_path w = (Ok image, w2)
    /\ TemporaryDirectory w2 = (Ok d, w3)
    /\ totalsegmentator (segmentator_call self input_path d roi_subset) w3 = (Ok tt, w4)
    /\ _parse_segmentation_results d image w4 = (Ok results, w5)
    /\ TemporaryDirectory_cleanup d (tick w5) = (Ok tt, w')
    /\ r = success_result self results t0 w5.
Proof.
  unfold run_inference_body, with_TemporaryDirectory, bind, segmentator_call.
  destruct (load_dicom input_path w) as [[image|e1|e1] w2]; [|discriminate|discriminate].
  destruct (TemporaryDirectory w2) as [[d|e2|e2] w3] eqn:Htmp; [|discriminate|discriminate].
  destruct (totalsegmentator _ w3) as [[[]|e3|e3] w4] eqn:Hts.
  - destruct (_parse_segmentation_results d image w4) as [[results|e4|e4] w5] eqn:Hp.
    + cbn [time_time ret].
      destruct (TemporaryDirectory_cleanup d _) as [[[]|e5|e5] w6] eqn:Hc;
        intros H; inversion H; subst.
      exists image, w2, d, w3, w4, results, w5. repeat split; assumption.
    + destruct (TemporaryDirectory_cleanup d w5) as [[[]|e5|e5] w6]; discriminate.
    + destruct (TemporaryDirectory_cleanup d w5) as [[[]|e5|e5] w6]; discriminate.
  - destruct (TemporaryDirectory_cleanup d w4) as [[[]|e5|e5] w6]; discriminate.
  - destruct (TemporaryDirectory_cleanup d w4) as [[[]|e5|e5] w6]; discriminate.
Qed.

(** What [run_inference] returns comes from a body that returned, and is
    then the result of the stages of this run, or from a body that raised
    an [Exception], and is then the failure result for it. *)
Lemma run_inference_origin (w : World) (r : InferenceResult) (w' : World) :
  run_inference totalsegmentator TemporaryDirectory TemporaryDirectory_cleanup
                self input_path roi_subset w
  = (Ok r, w') ->
  (exists image w2 d w3 w4 results w5,
     load_dicom input_path (tick w) = (Ok image, w2)
     /\ TemporaryDirectory w2 = (Ok d, w3)
     /\ totalsegmentator (segmentator_call self input_path d roi_subset) w3 = (Ok tt, w4)
     /\ _parse_segmentation_results d image w4 = (Ok results, w5)
     /\ TemporaryDirectory_cleanup d (tick w5) = (Ok tt, w')
     /\ r = success_result self results (now_of w) w5)
  \/ (exists e w0,
        run_inference_body totalsegmentator TemporaryDirectory
          TemporaryDirectory_cleanup self input_path roi_subset (now_of w) (tick w)
        = (Raise e, w0)
        /\ r = failure_result e (now_of w) w0
        /\ w' = tick w0).
Proof.
  intros H.
  destruct (run_inference_body totalsegmentator TemporaryDirectory
              TemporaryDirectory_cleanup self input_path roi_subset
              (now_of w) (tick w)) as [[r0|e|x] w0] eqn:Hb.
  - rewrite (run_inference_returns _ _ _ _ _ _ _ _ _ Hb) in H. inversion H; subst.
    left. now apply run_inference_body_ok.
  - rewrite (run_inference_catches _ _ _ _ _ _ _ _ _ Hb) in H. inversion H; subst.
    right. now exists e, w0.
  - rewrite (run_inference_exits _ _ _ _ _ _ _ _ _ Hb) in H. discriminate H.
Qed.

(** A result that [run_inference] returns has the keys of one branch. *)
Lemma run_inference_well_formed (w : World) (r : InferenceResult) (w' : World) :
  run_inference totalsegmentator TemporaryDirectory TemporaryDirectory_cleanup
                self input_path roi_subset w
  = (Ok r, w') ->
  well_formed_result self r.
Proof.
  intros H. apply run_inference_origin in H.
  destruct H as [[image [w2 [d [w3 [w4 [results [w5 [_ [_ [_ [_ [_ ->]]]]]]]]]]]]
                |[e [w0 [_ [-> _]]]]].
  - left. repeat split; try reflexivity. now exists results.
  - right. repeat split; try reflexivity. now exists (str_exc e).
Qed.

(** X2: The result that [run_inference] returns has the keys of one branch
    only.  With [success] true the stages of this very run all returned:
    the scan was loaded, the temporary directory made, the model run on
    it, the masks of that directory parsed against the loaded image and
    the directory removed; the result carries the records of that parse,
    the time read after it, the device and the mode, and no error.  With
    [success] false the body raised an [Exception], and the result
    carries its message and the time read after it, and neither records,
    device nor mode. *)
Theorem run_inference_result_is_well_formed (w : World) (r : InferenceResult) (w' : World) :
  run_inference totalsegmentator TemporaryDirectory TemporaryDirectory_cleanup
                self input_path roi_subset w
  = (Ok r, w') ->
  well_formed_result self r
  /\ (success r = true ->
      exists image w2 d w3 w4 results w5,
        load_dicom input_path (tick w) = (Ok image, w2)
        /\ TemporaryDirectory w2 = (Ok d, w3)
        /\ totalsegmentator (segmentator_call self input_path d roi_subset) w3
           = (Ok tt, w4)
        /\ _parse_segmentation_results d image w4 = (Ok results, w5)
        /\ TemporaryDirectory_cleanup d (tick w5) = (Ok tt, w')
        /\ r = success_result self results (now_of w) w5)
  /\ (success r = false ->
      exists e w0,
        run_inference_body totalsegmentator TemporaryDirectory
          TemporaryDirectory_cleanup self input_path roi_subset (now_of w) (tick w)
        = (Raise e, w0)
        /\ r = failure_result e (now_of w) w0
        /\ w' = tick w0).
Proof.
  intros H. split; [now apply (run_inference_well_formed w r w')|].
  apply run_inference_origin in H.
  destruct H as [Hok|Hfail]; split.
  - intros _. exact Hok.
  - destruct Hok as [image [w2 [d [w3 [w4 [results [w5 [_ [_ [_ [_ [_ ->]]]]]]]]]]]].
    discriminate.
  - destruct Hfail as [e [w0 [_ [-> _]]]]. discriminate.
  - intros _. exact Hfail.
Qed.

(** X3: A failure of the cleanup of the temporary directory turns a finished
    extraction into a failure result: the records are dropped and the
    error of the cleanup is reported. *)
Theorem cleanup_failure_discards_results
    (w : World) (image : Image) (w2 : World) (d : string) (w3 w4 : World)
    (results : list Vertebra) (w5 : World) (e : PyException) (w6 : World) :
  load_dicom input_path (tick w) = (Ok image, w2) ->
  TemporaryDirectory w2 = (Ok d, w3) ->
  totalsegmentator (segmentator_call self input_path d roi_subset) w3 = (Ok tt, w4) ->
  _parse_segmentation_results d image w4 = (Ok results, w5) ->
  TemporaryDirectory_cleanup d (tick w5) = (Raise e, w6) ->
  run_inference totalsegmentator TemporaryDirectory TemporaryDirectory_cleanup
                self input_path roi_subset w
  = (Ok (failure_result e (now_of w) w6), tick w6).
Proof.
  intros Hload Htmp Hts Hparse Hclean.
  apply run_inference_catches.
  unfold run_inference_body, with_TemporaryDirectory, bind.
  rewrite Hload, Htmp. unfold segmentator_call in Hts. rewrite Hts, Hparse.
  cbn [time_time ret]. unfold tick in Hclean. cbn [time_time snd] in Hclean.
  rewrite Hclean. reflexivity.
Qed.
End RunInferenceShape.

Lemma run_inference_result_is_well_formed_witness :
  exists r w' results,
    run_inference writing_segmentator tmp_dir tmp_cleanup (mkDetector "cpu" true)
                  "scan.dcm" None scan_world = (Ok r, w')
    /\ success r = true
    /\ vertebrae r = Some results
    /\ map label results = ["L1"]
    /\ map voxel_count results = [2]
    /\ fst (_parse_segmentation_results "/tmp/tmpq1" (unit_image [[[0; 1]]])
              (snd (writing_segmentator
                      (segmentator_call (mkDetector "cpu" true) "scan.dcm" "/tmp/tmpq1"
                                        None)
                      (tick scan_world))))
       = Ok results
    /\ well_formed_result (mkDetector "cpu" true) r.
Proof.
  destruct (run_inference writing_segmentator tmp_dir tmp_cleanup (mkDetector "cpu" true)
              "scan.dcm" None scan_world) as [[r|e|e] w'] eqn:Hrun;
    [|vm_compute in Hrun; discriminate Hrun|vm_compute in Hrun; discriminate Hrun].
  destruct (run_inference_result_is_well_formed writing_segmentator tmp_dir tmp_cleanup
              (mkDetector "cpu" true) "scan.dcm" None scan_world r w' Hrun)
    as [Hwf [Hsucc _]].
  assert (Ht : success r = true) by (vm_compute in Hrun; now inversion Hrun).
  destruct (Hsucc Ht) as [image [w2 [d [w3 [w4 [results [w5
             [Hload [Htmp [Hts [Hparse [_ Hr]]]]]]]]]]]].
  inversion Hload; subst image w2. inversion Htmp; subst d w3.
  inversion Hts; subst w4.
  exists r, w', results. split; [reflexivity|]. split; [exact Ht|].
  split; [now rewrite Hr|].
  assert (Hres : fst (_parse_segmentation_results "/tmp/tmpq1" (unit_image [[[0; 1]]])
                        (snd (writing_segmentator
                                (segmentator_call (mkDetector "cpu" true) "scan.dcm"
                                   "/tmp/tmpq1" None)
                                (tick scan_world))))
                 = Ok results) by (exact (f_equal fst Hparse)).
  split; [|split; [|split; [exact Hres | exact Hwf]]].
  - vm_compute in Hres. inversion Hres. reflexivity.
  - vm_compute in Hres. inversion Hres. reflexivity.
Defined.

Lemma cleanup_failure_discards_results_witness :
  exists r,
    fst (run_inference quiet_segmentator tmp_dir failing_cleanup (mkDetector "cpu" true)
                       "scan.dcm" None scan_world) = Ok r
    /\ success r = false
    /\ vertebrae r = None
    /\ error r = Some "[Errno 13] Permission denied: '/tmp/tmpq1'".
Proof.
  rewrite (cleanup_failure_discards_results quiet_segmentator tmp_dir failing_cleanup
             (mkDetector "cpu" true) "scan.dcm" None scan_world
             (unit_image [[[0; 1]]]) (tick scan_world) "/tmp/tmpq1" (tick scan_world)
             (tick scan_world) [] (tick scan_world)
             (mkExc "PermissionError" "[Errno 13] Permission denied: '/tmp/tmpq1'")
             (tick (tick scan_world))
             eq_refl eq_refl eq_refl eq_refl eq_refl).
  eexists. split; [reflexivity|]. repeat split.
Defined.

(** ** The requested structures *)

(** X4: The model is never called with an empty list of structures: no list
    and the empty list both stand for the 25 vertebrae, so
    [detect_vertebrae] does the same whether [vertebrae_only] is set or
    not. *)
Theorem vertebrae_only_changes_nothing
    (totalsegmentator : SegmentatorCall -> M unit)
    (TemporaryDirectory : M string) (TemporaryDirectory_cleanup : string -> M unit)
    (dicom_path device : string) (fast_mode : bool) (w : World) :
  detect_vertebrae totalsegmentator TemporaryDirectory TemporaryDirectory_cleanup
                   dicom_path device fast_mode true w
  = detect_vertebrae totalsegmentator TemporaryDirectory TemporaryDirectory_cleanup
                     dicom_path device fast_mode false w
  /\ run_inference totalsegmentator TemporaryDirectory TemporaryDirectory_cleanup
                   (mkDetector device fast_mode) dicom_path (Some []) w
     = run_inference totalsegmentator TemporaryDirectory TemporaryDirectory_cleanup
                     (mkDetector device fast_mode) dicom_path None w
  /\ (forall self input_path output_path roi_subset,
        ts_roi_subset (segmentator_call self input_path output_path roi_subset) <> []
        /\ (roi_subset = None \/ roi_subset = Some [] ->
            ts_roi_subset (segmentator_call self input_path output_path roi_subset)
            = VERTEBRAE_LABELS)).
Proof.
  split; [reflexivity|]. split; [reflexivity|].
  intros self input_path output_path roi_subset. cbn [segmentator_call ts_roi_subset].
  split.
  - destruct roi_subset as [[|s l]|]; cbn [roi_or_default]; discriminate.
  - intros [->| ->]; reflexivity.
Qed.

(** ** The model manager: tasks, status and the shared cache *)

Lemma registered_tasks (task : string) :
  registered task <-> task = "vertebrae" \/ task = "total_body".
Proof.
  unfold registered. cbn [AVAILABLE_TASKS dict_lookup]. split.
  - intros [info H].
    destruct (String.eqb_spec "vertebrae" task) as [E|_]; [now left|].
    destruct (String.eqb_spec "total_body" task) as [E|_]; [now right|].
    discriminate H.
  - intros [->| ->]; eexists; reflexivity.
Qed.

Lemma unregistered_lookup (task : string) :
  ~ registered task -> dict_lookup AVAILABLE_TASKS task = None.
Proof.
  intros H. destruct (dict_lookup AVAILABLE_TASKS task) as [info|] eqn:E; [|reflexivity].
  exfalso. apply H. now exists info.
Qed.

(** X12: For a task that is not in the registry, [get_model_status] returns a
    dict with an [error] entry and the list of the known tasks, while
    [download_model] and [delete_model] raise a [ValueError]; none of them
    touches the cache or reports an event. *)
Theorem unknown_task_is_reported (task : string) (w : ModelManager.World)
    (progress_callback : option (ModelManager.Event -> ModelManager.M unit)) :
  ~ registered task ->
  ModelManager.get_model_status task w
    = (Ok (ModelManager.UnknownTask ("Unknown task: " ++ task) ["vertebrae"; "total_body"]), w)
  /\ ModelManager.download_model task progress_callback w
     = (Raise (ValueError ("Unknown task: " ++ task
                           ++ ". Available: ['vertebrae', 'total_body']")), w)
  /\ ModelManager.delete_model task w
     = (Raise (ValueError ("Unknown task: " ++ task)), w).
Proof.
  intros H. apply unregistered_lookup in H.
  unfold ModelManager.get_model_status, ModelManager.download_model,
    ModelManager.delete_model.
  rewrite H. repeat split.
Qed.

Lemma unknown_task_is_reported_witness :
  ModelManager.get_model_status "liver" cached_world
    = (Ok (ModelManager.UnknownTask "Unknown task: liver" ["vertebrae"; "total_body"]),
       cached_world)
  /\ ModelManager.delete_model "liver" cached_world
     = (Raise (ValueError "Unknown task: liver"), cached_world).
Proof.
  assert (H : ~ registered "liver").
  { intros Hr. apply registered_tasks in Hr. destruct Hr as [E|E]; discriminate E. }
  destruct (unknown_task_is_reported "liver" cached_world None H) as [Hs [_ Hd]].
  split; [exact Hs | exact Hd].
Defined.

(** What [get_model_status] returns for a registered task when the cache
    can be inspected. *)
Lemma get_model_status_value (task : string) (info : TaskInfo) (w : ModelManager.World)
    (root : option ModelManager.Node) :
  dict_lookup AVAILABLE_TASKS task = Some info ->
  ModelManager.ts_home w = Ok root ->
  ModelManager.get_model_status task w
  = (Ok (ModelManager.ModelStatus task (task_name info) (task_description info)
           (has_weights root)
           (if has_weights root
            then match results_dir root with
                 | Some p => py_round_ndigits (ModelManager.mb (ModelManager.rglob_file_size p)) 2
                 | None => py_round_ndigits 0 2
                 end
            else inject_Z (approximate_size_mb info))
           (ModelManager.home w ++ "/.totalsegmentator/nnunet/results")
           (firstn 5 (structures info))),
     w).
Proof.
  intros Hinfo Hfs. unfold ModelManager.get_model_status. rewrite Hinfo.
  unfold bind, ModelManager.inspect_ts_home, ret. rewrite Hfs.
  unfold has_weights, results_dir.
  destruct (ModelManager.child "results" (ModelManager.child "nnunet" root)) as [p|];
    [|reflexivity].
  destruct (0 <? List.length (ModelManager.glob_star p))%nat; reflexivity.
Qed.

(** X13: The status of a registered task leaves the world as it is.  When the
    results directory is missing, is a file or is empty, the task is
    reported as not downloaded with the approximate size of the registry
    (2048 or 5120), never a measured one; and whether it is downloaded, and
    the measured size, are the same for every registered task, since all
    share one cache. *)
Theorem status_reads_the_shared_cache (task : string) (info : TaskInfo)
    (w : ModelManager.World) (root : option ModelManager.Node) :
  dict_lookup AVAILABLE_TASKS task = Some info ->
  ModelManager.ts_home w = Ok root ->
  exists s,
    ModelManager.get_model_status task w = (Ok s, w)
    /\ status_downloaded s = Some (has_weights root)
    /\ (has_weights root = false ->
        status_size_mb s = Some (inject_Z (approximate_size_mb info))
        /\ (approximate_size_mb info = 2048 \/ approximate_size_mb info = 5120))
    /\ (forall task2 s2,
          registered task2 ->
          ModelManager.get_model_status task2 w = (Ok s2, w) ->
          status_downloaded s2 = status_downloaded s
          /\ (has_weights root = true -> status_size_mb s2 = status_size_mb s)).
Proof.
  intros Hinfo Hfs. eexists.
  split; [exact (get_model_status_value task info w root Hinfo Hfs)|].
  cbn [status_downloaded status_size_mb]. split; [reflexivity|]. split.
  - intros Hw. rewrite Hw. split; [reflexivity|].
    revert Hinfo. cbn [AVAILABLE_TASKS dict_lookup].
    destruct (String.eqb "vertebrae" task); [intros H; inversion H; now left|].
    destruct (String.eqb "total_body" task); [intros H; inversion H; now right|].
    discriminate.
  - intros task2 s2 [info2 Hinfo2] H2.
    rewrite (get_model_status_value task2 info2 w root Hinfo2 Hfs) in H2.
    inversion H2; subst. cbn [status_downloaded status_size_mb].
    split; [reflexivity|]. intros Hw. now rewrite Hw.
Qed.

Lemma status_reads_the_shared_cache_witness :
  exists s,
    ModelManager.get_model_status "vertebrae" empty_cache_world = (Ok s, empty_cache_world)
    /\ status_downloaded s = Some false
    /\ status_size_mb s = Some 2048%Q.
Proof.
  destruct (status_reads_the_shared_cache "vertebrae"
              (mkTaskInfo "Vertebrae Segmentation"
                          "Segments all vertebrae (C1-C7, T1-T12, L1-L5, S1)"
                          "total" 2048 VERTEBRAE_LABELS)
              empty_cache_world None eq_refl eq_refl) as [s [Hs [Hd [Hsz _]]]].
  exists s. split; [exact Hs|]. split; [exact Hd|].
  destruct (Hsz eq_refl) as [H _]. exact H.
Defined.

(** ** A download that succeeds *)

Lemma get_model_status_queued (task : string) (w : ModelManager.World)
    (events : list ModelManager.Event) (s : ModelManager.StatusDict) :
  ModelManager.get_model_status task w = (Ok s, w) ->
  ModelManager.get_model_status task (queued w events) = (Ok s, queued w events).
Proof.
  unfold ModelManager.get_model_status.
  destruct (dict_lookup AVAILABLE_TASKS task) as [info|].
  - unfold bind, ModelManager.inspect_ts_home, ret, queued.
    cbn [ModelManager.ts_home ModelManager.home].
    destruct (ModelManager.ts_home w) as [root|e|e]; [|discriminate|discriminate].
    intros H; inversion H; subst. reflexivity.
  - unfold ret. intros H; inversion H; subst. reflexivity.
Qed.

Lemma download_model_success_value (task : string) (info : TaskInfo)
    (w : ModelManager.World) (root : option ModelManager.Node) :
  dict_lookup AVAILABLE_TASKS task = Some info ->
  ModelManager.import_totalsegmentator w = Ok tt ->
  ModelManager.ts_home w = Ok root ->
  exists s,
    ModelManager.get_model_status task w = (Ok s, w)
    /\ ModelManager.download_model task (Some ModelManager.callback) w
       = (Ok s, queued w [preparing_event info; downloading_event;
                          final_event (has_weights root)])
    /\ map ModelManager.progress
           [preparing_event info; downloading_event; final_event (has_weights root)]
       = [0%Q; (1 # 2)%Q; 1%Q]
    /\ ModelManager.download_model task None w = (Ok s, w).
Proof.
  intros Hinfo Himp Hfs. eexists.
  split; [exact (get_model_status_value task info w root Hinfo Hfs)|].
  pose proof (get_model_status_value task info w root Hinfo Hfs) as Hs.
  destruct w as [h fs imp q].
  cbn [ModelManager.import_totalsegmentator ModelManager.ts_home ModelManager.home] in *.
  subst fs imp.
  split; [|split; [reflexivity|]].
  - unfold ModelManager.download_model, ModelManager.download_model_body. rewrite Hinfo.
    unfold bind, try_except, ModelManager.report, ModelManager.callback,
      ModelManager.do_import, lift, ret.
    cbn [ModelManager.import_totalsegmentator ModelManager.ts_home ModelManager.home
         ModelManager.progress_queue].
    erewrite (get_model_status_value task info _ root Hinfo); [|reflexivity].
    cbn [ModelManager.getitem_downloaded ModelManager.import_totalsegmentator
         ModelManager.ts_home ModelManager.home ModelManager.progress_queue].
    unfold queued, final_event, preparing_event, downloading_event.
    cbn [ModelManager.import_totalsegmentator ModelManager.ts_home ModelManager.home
         ModelManager.progress_queue].
    rewrite <- !app_assoc. reflexivity.
  - unfold ModelManager.download_model, ModelManager.download_model_body. rewrite Hinfo.
    unfold bind, try_except, ModelManager.report, ModelManager.do_import, ret.
    cbn [ModelManager.import_totalsegmentator].
    rewrite Hs. reflexivity.
Qed.



(** ** Deleting the cache *)

Lemma delete_model_on_directory (task : string) (w : ModelManager.World)
    (cs : list (string * ModelManager.Node)) :
  registered task ->
  ModelManager.ts_home w = Ok (Some (ModelManager.Dir cs)) ->
  ModelManager.delete_model task w
  = (Ok (ModelManager.mkDeleteResult true ("Deleted " ++ task ++ " models")
           (Some (py_round_ndigits
                    (ModelManager.mb (ModelManager.tree_size (ModelManager.Dir cs))) 2))),
     without_cache w).
Proof.
  intros [info Hinfo] Hfs. unfold ModelManager.delete_model. rewrite Hinfo.
  unfold bind, ModelManager.inspect_ts_home. rewrite Hfs. reflexivity.
Qed.

(** X15: Deleting the weights of one registered task removes the whole cache
    root: the result has [success] true and the size of all the files as
    freed space, and afterwards every registered task is reported as not
    downloaded and a second deletion finds nothing to delete. *)
Theorem delete_removes_every_task (task : string) (w : ModelManager.World)
    (cs : list (string * ModelManager.Node)) :
  registered task ->
  ModelManager.ts_home w = Ok (Some (ModelManager.Dir cs)) ->
  ModelManager.delete_model task w
    = (Ok (ModelManager.mkDeleteResult true ("Deleted " ++ task ++ " models")
             (Some (py_round_ndigits
                      (ModelManager.mb (ModelManager.tree_size (ModelManager.Dir cs))) 2))),
       without_cache w)
  /\ (forall task2,
        registered task2 ->
        (exists s,
           ModelManager.get_model_status task2 (without_cache w)
             = (Ok s, without_cache w)
           /\ status_downloaded s = Some false)
        /\ ModelManager.delete_model task2 (without_cache w)
           = (Ok (ModelManager.mkDeleteResult false "No models found to delete" None),
              without_cache w)).
Proof.
  intros Hreg Hfs. split; [now apply delete_model_on_directory|].
  intros task2 [info2 Hinfo2]. split.
  - eexists.
    split; [exact (get_model_status_value task2 info2 (without_cache w) None
                     Hinfo2 eq_refl)|].
    reflexivity.
  - unfold ModelManager.delete_model. rewrite Hinfo2. reflexivity.
Qed.

Lemma delete_removes_every_task_witness :
  exists r,
    ModelManager.delete_model "vertebrae" cached_world = (Ok r, without_cache cached_world)
    /\ ModelManager.success r = true
    /\ (exists q, ModelManager.freed_space_mb r = Some q /\ (q == 286 # 100)%Q)
    /\ ModelManager.delete_model "total_body" (without_cache cached_world)
       = (Ok (ModelManager.mkDeleteResult false "No models found to delete" None),
          without_cache cached_world).
Proof.
  destruct (delete_removes_every_task "vertebrae" cached_world _
              (ex_intro _ _ eq_refl) eq_refl) as [Hd Hafter].
  eexists. split; [exact Hd|]. split; [reflexivity|]. split.
  - eexists. split; [reflexivity|]. vm_compute. reflexivity.
  - apply Hafter. eexists. reflexivity.
Defined.

(** ** The status of all tasks and the cache statistics *)

Lemma get_all_models_status_value (w : ModelManager.World)
    (root : option ModelManager.Node) :
  ModelManager.ts_home w = Ok root ->
  exists s1 s2,
    ModelManager.get_all_models_status w
      = (Ok [("vertebrae", s1); ("total_body", s2)], w)
    /\ ModelManager.get_model_status "vertebrae" w = (Ok s1, w)
    /\ ModelManager.get_model_status "total_body" w = (Ok s2, w)
    /\ status_downloaded s1 = Some (has_weights root)
    /\ status_downloaded s2 = Some (has_weights root).
Proof.
  intros Hfs.
  pose proof (get_model_status_value "vertebrae" _ w root eq_refl Hfs) as H1.
  pose proof (get_model_status_value "total_body" _ w root eq_refl Hfs) as H2.
  eexists _, _. split; [|split; [exact H1|split; [exact H2|split; reflexivity]]].
  unfold ModelManager.get_all_models_status.
  cbn [dict_keys AVAILABLE_TASKS map fst ModelManager.statuses_of].
  unfold bind at 1. rewrite H1. unfold bind at 1. unfold bind at 1. rewrite H2.
  reflexivity.
Qed.

(** X16: [get_all_models_status] fails as a whole when the cache cannot be
    inspected; otherwise it returns one entry for each registered task, in
    the order of the registry, and the entry of a task is what
    [get_model_status] returns for it. *)
Theorem all_statuses_follow_the_registry (w : ModelManager.World) :
  (forall e,
     ModelManager.ts_home w = Raise e ->
     ModelManager.get_all_models_status w = (Raise e, w))
  /\ (forall root,
        ModelManager.ts_home w = Ok root ->
        exists s1 s2,
          ModelManager.get_all_models_status w
            = (Ok [("vertebrae", s1); ("total_body", s2)], w)
          /\ ModelManager.get_model_status "vertebrae" w = (Ok s1, w)
          /\ ModelManager.get_model_status "total_body" w = (Ok s2, w)
          /\ status_downloaded s1 = Some (has_weights root)
          /\ status_downloaded s2 = Some (has_weights root)).
Proof.
  split.
  - intros e Hfs. unfold ModelManager.get_all_models_status.
    cbn [dict_keys AVAILABLE_TASKS map fst ModelManager.statuses_of].
    unfold bind at 1.
    rewrite (get_model_status_unreadable "vertebrae" w e); [reflexivity | | exact Hfs].
    eexists. reflexivity.
  - intros root Hfs. now apply get_all_models_status_value.
Qed.

Lemma all_statuses_follow_the_registry_witness :
  ModelManager.get_all_models_status unreadable_cache_world
  = (Raise (mkExc "PermissionError" "[Errno 13] Permission denied"),
     unreadable_cache_world)
  /\ exists s1 s2,
       ModelManager.get_all_models_status cached_world
       = (Ok [("vertebrae", s1); ("total_body", s2)], cached_world)
       /\ status_downloaded s1 = Some true
       /\ status_downloaded s2 = Some true.
Proof.
  split.
  - destruct (all_statuses_follow_the_registry unreadable_cache_world) as [H _].
    now apply H.
  - destruct (all_statuses_follow_the_registry cached_world) as [_ H].
    destruct (H (Some cached_tree) eq_refl) as [s1 [s2 [Ha [_ [_ [H1 H2]]]]]].
    exists s1, s2. repeat split; assumption.
Defined.

(** X17: [get_cache_stats] measures what [delete_model] frees: on a cache that
    is a directory, the total size it reports is the freed space that
    deleting any registered task reports.  With no cache it reports size 0
    and no file. *)
Theorem cache_stats_match_freed_space (w : ModelManager.World) :
  (forall task cs,
     registered task ->
     ModelManager.ts_home w = Ok (Some (ModelManager.Dir cs)) ->
     exists stats r w',
       ModelManager.get_cache_stats w = (Ok stats, w)
       /\ ModelManager.delete_model task w = (Ok r, w')
       /\ ModelManager.freed_space_mb r = Some (ModelManager.total_size_mb stats)
       /\ ModelManager.file_count stats
          = ModelManager.tree_file_count (ModelManager.Dir cs))
  /\ (ModelManager.ts_home w = Ok None ->
      exists stats,
        ModelManager.get_cache_stats w = (Ok stats, w)
        /\ (ModelManager.total_size_mb stats == 0)%Q
        /\ ModelManager.file_count stats = 0
        /\ ModelManager.cache_directory stats
           = ModelManager.home w ++ "/.totalsegmentator").
Proof.
  split.
  - intros task cs Hreg Hfs.
    destruct (get_all_models_status_value w _ Hfs) as [s1 [s2 [Ha _]]].
    pose proof (delete_model_on_directory task w cs Hreg Hfs) as Hd.
    eexists _, _, _. split; [|split; [exact Hd|]].
    + unfold ModelManager.get_cache_stats, bind, ModelManager.inspect_ts_home, ret.
      rewrite Hfs, Ha. reflexivity.
    + split; reflexivity.
  - intros Hfs.
    destruct (get_all_models_status_value w _ Hfs) as [s1 [s2 [Ha _]]].
    eexists. split.
    + unfold ModelManager.get_cache_stats, bind, ModelManager.inspect_ts_home, ret.
      rewrite Hfs, Ha. reflexivity.
    + repeat split.
Qed.

Lemma cache_stats_match_freed_space_witness :
  exists stats r w',
    ModelManager.get_cache_stats cached_world = (Ok stats, cached_world)
    /\ ModelManager.delete_model "total_body" cached_world = (Ok r, w')
    /\ ModelManager.freed_space_mb r = Some (ModelManager.total_size_mb stats)
    /\ ModelManager.file_count stats = 2.
Proof.
  destruct (cache_stats_match_freed_space cached_world) as [H _].
  destruct (H "total_body" _ (ex_intro _ _ eq_refl) eq_refl)
    as [stats [r [w' [Hs [Hd [Hf Hc]]]]]].
  exists stats, r, w'. repeat split; assumption.
Defined.

(** ** The endpoints of the model manager *)

(** X18: What the client of the manager endpoints sees.  For a task that is not
    registered, the status endpoint answers normally with the error dict
    while the delete endpoint answers 500 with [Unknown task: ...].  When
    the cache cannot be inspected, the status, all-status, cache-stats and
    delete endpoints answer 500 with the text of the error.  Deleting when
    nothing is cached is a normal answer with [success] false. *)
Theorem manager_endpoints_answers (task : string) (w : ModelManager.World) :
  (~ registered task ->
   Main.get_model_status task w
     = (Main.Returned (ModelManager.UnknownTask ("Unknown task: " ++ task)
                         ["vertebrae"; "total_body"]), w)
   /\ Main.delete_model task w
      = (Main.HTTPException 500 ("Unknown task: " ++ task), w))
  /\ (forall e,
        registered task ->
        ModelManager.ts_home w = Raise e ->
        Main.get_model_status task w = (Main.HTTPException 500 (str_exc e), w)
        /\ Main.get_all_models_status w = (Main.HTTPException 500 (str_exc e), w)
        /\ Main.get_cache_stats w = (Main.HTTPException 500 (str_exc e), w)
        /\ Main.delete_model task w = (Main.HTTPException 500 (str_exc e), w))
  /\ (registered task ->
      ModelManager.ts_home w = Ok None ->
      Main.delete_model task w
      = (Main.Returned (ModelManager.mkDeleteResult false "No models found to delete" None),
         w)).
Proof.
  split; [|split].
  - intros H. apply unregistered_lookup in H.
    unfold Main.get_model_status, Main.delete_model, Main.or_500,
      ModelManager.get_model_status, ModelManager.delete_model.
    rewrite H. split; reflexivity.
  - intros e Hreg Hfs.
    pose proof (get_model_status_unreadable task w e Hreg Hfs) as Hs.
    pose proof (get_model_status_unreadable "vertebrae" w e
                  (ex_intro _ _ eq_refl) Hfs) as Hv.
    destruct Hreg as [info Hinfo].
    unfold Main.get_model_status, Main.get_all_models_status, Main.get_cache_stats,
      Main.delete_model, Main.or_500.
    rewrite Hs. split; [reflexivity|].
    unfold ModelManager.get_all_models_status, ModelManager.get_cache_stats,
      ModelManager.delete_model.
    cbn [dict_keys AVAILABLE_TASKS map fst ModelManager.statuses_of].
    rewrite Hinfo. unfold bind, ModelManager.inspect_ts_home. rewrite Hv, Hfs.
    repeat split.
  - intros [info Hinfo] Hfs.
    unfold Main.delete_model, Main.or_500, ModelManager.delete_model.
    rewrite Hinfo. unfold bind, ModelManager.inspect_ts_home. rewrite Hfs. reflexivity.
Qed.

Lemma manager_endpoints_answers_witness :
  Main.delete_model "liver" cached_world
    = (Main.HTTPException 500 "Unknown task: liver", cached_world)
  /\ Main.get_cache_stats unreadable_cache_world
     = (Main.HTTPException 500 "[Errno 13] Permission denied", unreadable_cache_world)
  /\ Main.delete_model "vertebrae" empty_cache_world
     = (Main.Returned (ModelManager.mkDeleteResult false "No models found to delete" None),
        empty_cache_world).
Proof.
  split; [|split].
  - destruct (manager_endpoints_answers "liver" cached_world) as [H _].
    apply H. intros Hr. apply registered_tasks in Hr. destruct Hr as [E|E]; discriminate E.
  - destruct (manager_endpoints_answers "vertebrae" unreadable_cache_world) as [_ [H _]].
    apply (H _ (ex_intro _ _ eq_refl) eq_refl).
  - destruct (manager_endpoints_answers "vertebrae" empty_cache_world) as [_ [_ H]].
    apply (H (ex_intro _ _ eq_refl) eq_refl).
Defined.

(** ** The progress stream *)

(** X19: The stream of the download endpoint starts with [starting].  For an
    unknown task, or when the preparation fails with [e], it has one more
    payload, an [error] with the text of the exception, and nothing of what
    the manager had queued (not even its own error event) is sent.  When
    the download returns, the three phases follow, and a last [complete]
    payload carries the status; the progress values are 0, 0, 0.5, 1, 1. *)
Theorem progress_stream_shape (task : string) (w : ModelManager.World) :
  (~ registered task ->
   fst (Main.progress_generator task w)
   = [sse_starting;
      sse_error ("Unknown task: " ++ task ++ ". Available: ['vertebrae', 'total_body']")])
  /\ (forall e,
        registered task -> prepare_fails w e ->
        fst (Main.progress_generator task w) = [sse_starting; sse_error (str_exc e)])
  /\ (forall info root,
        dict_lookup AVAILABLE_TASKS task = Some info ->
        ModelManager.import_totalsegmentator w = Ok tt ->
        ModelManager.ts_home w = Ok root ->
        exists s,
          fst (ModelManager.get_model_status task w) = Ok s
          /\ fst (Main.progress_generator task w)
             = [sse_starting;
                Main.sse_of_event (preparing_event info);
                Main.sse_of_event downloading_event;
                Main.sse_of_event (final_event (has_weights root));
                sse_complete s]
          /\ map Main.sse_progress (fst (Main.progress_generator task w))
             = [0%Q; 0%Q; (1 # 2)%Q; 1%Q; 1%Q]).
Proof.
  split; [|split].
  - intros H. apply unregistered_lookup in H.
    unfold Main.progress_generator, ModelManager.download_model. rewrite H.
    reflexivity.
  - intros e [info Hinfo] Hfail.
    unfold Main.progress_generator, ModelManager.download_model,
      ModelManager.download_model_body, ModelManager.get_model_status.
    rewrite Hinfo. destruct w as [h fs imp q]. unfold prepare_fails in Hfail.
    cbn [ModelManager.import_totalsegmentator ModelManager.ts_home ModelManager.home
         ModelManager.progress_queue] in *.
    destruct Hfail as [Himp | [Himp Hfs]]; subst; reflexivity.
  - intros info root Hinfo Himp Hfs.
    destruct w as [h fs imp q].
    cbn [ModelManager.import_totalsegmentator ModelManager.ts_home] in Himp, Hfs. subst.
    destruct (download_model_success_value task info
                (ModelManager.mkWorld h (Ok root) (Ok tt) []) root Hinfo eq_refl eq_refl)
      as [s [Hs [Hd _]]].
    exists s.
    erewrite (get_model_status_value task info _ root Hinfo) in Hs; [|reflexivity].
    erewrite (get_model_status_value task info _ root Hinfo); [|reflexivity].
    inversion Hs; subst s. clear Hs.
    unfold Main.progress_generator.
    cbn [ModelManager.import_totalsegmentator ModelManager.ts_home ModelManager.home].
    rewrite Hd. cbn [fst queued ModelManager.progress_queue app map].
    repeat split.
Qed.

Lemma progress_stream_shape_witness :
  fst (Main.progress_generator "vertebrae" no_runtime_world)
  = [sse_starting; sse_error "No module named 'totalsegmentator'"]
  /\ map Main.sse_status (fst (Main.progress_generator "vertebrae" cached_world))
     = ["starting"; "preparing"; "downloading"; "complete"; "complete"].
Proof.
  split.
  - destruct (progress_stream_shape "vertebrae" no_runtime_world) as [_ [H _]].
    apply (H (mkExc "ModuleNotFoundError" "No module named 'totalsegmentator'")
             (ex_intro _ _ eq_refl)).
    left. reflexivity.
  - destruct (progress_stream_shape "vertebrae" cached_world) as [_ [_ H]].
    destruct (H _ (Some cached_tree) eq_refl eq_refl eq_refl) as [s [_ [Hst _]]].
    rewrite Hst. reflexivity.
Defined.

(** ** The detection endpoint *)

Lemma size_over_limit (size : Z) :
  MAX_FILE_SIZE_MB * (1024 * 1024) < size <->
  (inject_Z MAX_FILE_SIZE_MB < inject_Z size / inject_Z (1024 * 1024))%Q.
Proof.
  assert (Hq : (0 < inject_Z (1024 * 1024))%Q) by reflexivity.
  split.
  - intros H. apply Qlt_shift_div_l; [exact Hq|].
    rewrite <- inject_Z_mult, <- Zlt_Qlt. exact H.
  - intros H.
    destruct (Z_lt_le_dec (MAX_FILE_SIZE_MB * (1024 * 1024)) size) as [Hlt|Hle];
      [exact Hlt|].
    exfalso. apply (Qlt_not_le _ _ H).
    apply Qle_shift_div_r; [exact Hq|].
    rewrite <- inject_Z_mult, <- Zle_Qle. exact Hle.
Qed.

Section DetectEndpointFacts.
Variable totalsegmentator : SegmentatorCall -> M unit.
Variable TemporaryDirectory : M string.
Variable TemporaryDirectory_cleanup : string -> M unit.
Variable Path_str : string -> string.
Variable format_1f : Q -> string.
Variables (request : Main.DetectVertebraeRequest) (s : Main.Server).

(** X20: The endpoint refuses, before anything is loaded or segmented, a path
    that does not exist (404), one that is not a file (400) and a file of
    more than 500 MB (400); the server has then only read its clock. *)
Theorem detect_endpoint_validates_the_file :
  (Main.path_exists s (Path_str (Main.file_path request)) = false ->
   Main.detect_vertebrae_endpoint totalsegmentator TemporaryDirectory
     TemporaryDirectory_cleanup Path_str format_1f request s
   = (Main.HTTPException 404 ("File not found: " ++ Main.file_path request),
      after_clock_read s))
  /\ (Main.path_exists s (Path_str (Main.file_path request)) = true ->
      Main.path_is_file s (Path_str (Main.file_path request)) = false ->
      Main.detect_vertebrae_endpoint totalsegmentator TemporaryDirectory
        TemporaryDirectory_cleanup Path_str format_1f request s
      = (Main.HTTPException 400 ("Not a file: " ++ Main.file_path request),
         after_clock_read s))
  /\ (Main.path_exists s (Path_str (Main.file_path request)) = true ->
      Main.path_is_file s (Path_str (Main.file_path request)) = true ->
      MAX_FILE_SIZE_MB * (1024 * 1024)
        < Main.st_size s (Path_str (Main.file_path request)) ->
      Main.detect_vertebrae_endpoint totalsegmentator TemporaryDirectory
        TemporaryDirectory_cleanup Path_str format_1f request s
      = (Main.HTTPException 400
           ("File too large: "
            ++ format_1f (inject_Z (Main.st_size s (Path_str (Main.file_path request)))
                          / inject_Z (1024 * 1024))%Q
            ++ "MB (max: 500MB)"),
         after_clock_read s)).
Proof.
  unfold Main.detect_vertebrae_endpoint, after_clock_read, tick.
  cbn [Main.with_inference_world Main.path_exists Main.path_is_file Main.st_size].
  split; [|split].
  - intros He. now rewrite He.
  - intros He Hf. now rewrite He, Hf.
  - intros He Hf Hsize. rewrite He, Hf. cbn [negb].
    apply size_over_limit in Hsize.
    destruct (Qlt_le_dec _ _) as [_|Hle]; [reflexivity|].
    exfalso. exact (Qlt_not_le _ _ Hsize Hle).
Qed.

(** For a file that passes the validation the endpoint ends as
    [run_inference] does. *)
Lemma detect_endpoint_runs :
  Main.path_exists s (Path_str (Main.file_path request)) = true ->
  Main.path_is_file s (Path_str (Main.file_path request)) = true ->
  Main.st_size s (Path_str (Main.file_path request))
    <= MAX_FILE_SIZE_MB * (1024 * 1024) ->
  Main.detect_vertebrae_endpoint totalsegmentator TemporaryDirectory
    TemporaryDirectory_cleanup Path_str format_1f request s
  = match run_inference totalsegmentator TemporaryDirectory TemporaryDirectory_cleanup
            (mkDetector (chosen_device request s) (Main.request_fast_mode request))
            (Path_str (Main.file_path request)) (Some VERTEBRAE_LABELS)
            (tick (Main.inference_world s)) with
    | (Ok r, w') =>
        (Main.Returned
           (Main.mkDetectResponse r
              (elapsed_ms (now_of (Main.inference_world s)) (now_of w'))),
         Main.with_inference_world s (tick w'))
    | (Raise e, w') =>
        (Main.HTTPException 500 ("Inference failed: " ++ str_exc e),
         Main.mkServer w' (Main.path_exists s) (Main.path_is_file s) (Main.st_size s)
                       (Main.cuda_is_available s)
                       (Main.stderr s ++ ["Error during inference: " ++ str_exc e]))
    | (Exit x, w') => (Main.Escaped x, Main.with_inference_world s w')
    end.
Proof.
  intros He Hf Hsize.
  unfold Main.detect_vertebrae_endpoint.
  cbn [Main.with_inference_world Main.path_exists Main.path_is_file Main.st_size
       Main.cuda_is_available Main.stderr].
  rewrite He, Hf. cbn [negb].
  destruct (Qlt_le_dec _ _) as [Hlt|_].
  { apply size_over_limit in Hlt. lia. }
  unfold detect_vertebrae.
  fold (chosen_device request s). fold (tick (Main.inference_world s)).
  unfold bind at 1.
  destruct (run_inference _ _ _ _ _ _ _) as [[r|e|x] w']; reflexivity.
Qed.

(** X21: For a file that passes the validation the endpoint never answers
    with an [HTTPException], so never with the 500 [Inference failed], and
    prints nothing to the error stream.  When [run_inference] returns, the
    endpoint answers normally with its result and the total time: a
    failure of the loading, of the model or of the parser with an
    [Exception] comes back as a result with [success] false.  When
    [run_inference] is left by an exception that is no [Exception]
    ([SystemExit], [KeyboardInterrupt]), that exception leaves the
    endpoint too and the client gets no result. *)
Theorem detect_endpoint_never_answers_500 :
  Main.path_exists s (Path_str (Main.file_path request)) = true ->
  Main.path_is_file s (Path_str (Main.file_path request)) = true ->
  Main.st_size s (Path_str (Main.file_path request))
    <= MAX_FILE_SIZE_MB * (1024 * 1024) ->
  (forall status_code detail s',
     Main.detect_vertebrae_endpoint totalsegmentator TemporaryDirectory
       TemporaryDirectory_cleanup Path_str format_1f request s
     <> (Main.HTTPException status_code detail, s'))
  /\ Main.stderr (snd (Main.detect_vertebrae_endpoint totalsegmentator TemporaryDirectory
                         TemporaryDirectory_cleanup Path_str format_1f request s))
     = Main.stderr s
  /\ (forall r w',
        run_inference totalsegmentator TemporaryDirectory TemporaryDirectory_cleanup
          (mkDetector (chosen_device request s) (Main.request_fast_mode request))
          (Path_str (Main.file_path request)) (Some VERTEBRAE_LABELS)
          (tick (Main.inference_world s))
        = (Ok r, w') ->
        Main.detect_vertebrae_endpoint totalsegmentator TemporaryDirectory
          TemporaryDirectory_cleanup Path_str format_1f request s
        = (Main.Returned
             (Main.mkDetectResponse r
                (elapsed_ms (now_of (Main.inference_world s)) (now_of w'))),
           Main.with_inference_world s (tick w'))
        /\ well_formed_result
             (mkDetector (chosen_device request s) (Main.request_fast_mode request)) r)
  /\ (forall x w',
        run_inference totalsegmentator TemporaryDirectory TemporaryDirectory_cleanup
          (mkDetector (chosen_device request s) (Main.request_fast_mode request))
          (Path_str (Main.file_path request)) (Some VERTEBRAE_LABELS)
          (tick (Main.inference_world s))
        = (Exit x, w') ->
        Main.detect_vertebrae_endpoint totalsegmentator TemporaryDirectory
          TemporaryDirectory_cleanup Path_str format_1f request s
        = (Main.Escaped x, Main.with_inference_world s w')).
Proof.
  intros He Hf Hsize. rewrite (detect_endpoint_runs He Hf Hsize).
  destruct (run_inference_ends totalsegmentator TemporaryDirectory
              TemporaryDirectory_cleanup
              (mkDetector (chosen_device request s) (Main.request_fast_mode request))
              (Path_str (Main.file_path request)) (Some VERTEBRAE_LABELS)
              (tick (Main.inference_world s)))
    as [[r0 [w0 [Hrun _]]]|[x0 [w0 [Hrun _]]]]; rewrite Hrun.
  - split; [discriminate|]. split; [reflexivity|]. split.
    + intros r w' H. inversion H; subst.
      split; [reflexivity|].
      now apply (run_inference_well_formed _ _ _ _ _ _ _ _ _ Hrun).
    + discriminate.
  - split; [discriminate|]. split; [reflexivity|]. split.
    + discriminate.
    + intros x w' H. inversion H; subst. reflexivity.
Qed.
End DetectEndpointFacts.

Lemma detect_endpoint_validates_the_file_witness :
  fst (Main.detect_vertebrae_endpoint failing_segmentator tmp_dir tmp_cleanup
         plain_path no_format (Main.mkRequest "/data/missing.dcm" true None) test_server)
    = Main.HTTPException 404 "File not found: /data/missing.dcm"
  /\ fst (Main.detect_vertebrae_endpoint failing_segmentator tmp_dir tmp_cleanup
            plain_path no_format (Main.mkRequest "/data" true None) test_server)
     = Main.HTTPException 400 "Not a file: /data"
  /\ fst (Main.detect_vertebrae_endpoint failing_segmentator tmp_dir tmp_cleanup
            plain_path no_format (Main.mkRequest "/data/huge.dcm" true None) test_server)
     = Main.HTTPException 400 "File too large: 600.0MB (max: 500MB)".
Proof.
  split; [|split].
  - destruct (detect_endpoint_validates_the_file failing_segmentator tmp_dir tmp_cleanup
                plain_path no_format (Main.mkRequest "/data/missing.dcm" true None)
                test_server) as [H _].
    now rewrite (H eq_refl).
  - destruct (detect_endpoint_validates_the_file failing_segmentator tmp_dir tmp_cleanup
                plain_path no_format (Main.mkRequest "/data" true None)
                test_server) as [_ [H _]].
    now rewrite (H eq_refl eq_refl).
  - destruct (detect_endpoint_validates_the_file failing_segmentator tmp_dir tmp_cleanup
                plain_path no_format (Main.mkRequest "/data/huge.dcm" true None)
                test_server) as [_ [_ H]].
    now rewrite (H eq_refl eq_refl eq_refl).
Defined.

Lemma detect_endpoint_never_answers_500_witness :
  (exists response s',
     Main.detect_vertebrae_endpoint failing_segmentator tmp_dir tmp_cleanup
       plain_path no_format (Main.mkRequest "/data/scan.dcm" true None) test_server
     = (Main.Returned response, s')
     /\ success (Main.result response) = false
     /\ error (Main.result response) = Some "CUDA out of memory")
  /\ fst (Main.detect_vertebrae_endpoint exiting_segmentator tmp_dir tmp_cleanup
            plain_path no_format (Main.mkRequest "/data/scan.dcm" true None) test_server)
     = Main.Escaped (mkExc "SystemExit" "1").
Proof.
  split.
  - destruct (detect_endpoint_never_answers_500 failing_segmentator tmp_dir tmp_cleanup
                plain_path no_format (Main.mkRequest "/data/scan.dcm" true None)
                test_server eq_refl eq_refl) as [_ [_ [Hret _]]].
    + vm_compute. discriminate.
    + destruct (Hret (failure_result (mkExc "RuntimeError" "CUDA out of memory")
                        (now_of (tick scan_world)) (tick (tick (tick scan_world))))
                     (tick (tick (tick (tick scan_world)))) eq_refl) as [Hrun _].
      eexists _, _. split; [exact Hrun|]. split; reflexivity.
  - destruct (detect_endpoint_never_answers_500 exiting_segmentator tmp_dir tmp_cleanup
                plain_path no_format (Main.mkRequest "/data/scan.dcm" true None)
                test_server eq_refl eq_refl) as [_ [_ [_ Hexit]]].
    + vm_compute. discriminate.
    + rewrite (Hexit (mkExc "SystemExit" "1") (tick (tick (tick scan_world))) eq_refl).
      reflexivity.
Defined.

Lemma load_dicom_wraps_errors_witness :
  fst (load_dicom "scan.dcm" no_scan_world)
  = Raise (ValueError "Failed to load DICOM file: File is missing DICOM header")
  /\ fst (load_dicom "scan.dcm" interrupted_scan_world)
     = Exit (mkExc "KeyboardInterrupt" EmptyString)
  /\ fst (load_dicom "scan.dcm" scan_world) = Ok (unit_image [[[0; 1]]]).
Proof.
  destruct (load_dicom_wraps_errors "scan.dcm" no_scan_world) as [_ [Hraise _]].
  destruct (load_dicom_wraps_errors "scan.dcm" interrupted_scan_world)
    as [_ [_ [Hexit _]]].
  destruct (load_dicom_wraps_errors "scan.dcm" scan_world) as [_ [_ [_ Hok]]].
  split; [|split].
  - apply Hraise. exists (mkExc "InvalidDicomError" "File is missing DICOM header").
    split; [reflexivity|]. left. reflexivity.
  - apply Hexit. left. reflexivity.
  - apply Hok. split; reflexivity.
Defined.

Lemma vertebrae_only_changes_nothing_witness :
  detect_vertebrae failing_segmentator tmp_dir tmp_cleanup "scan.dcm" "cpu" true true
                   scan_world
  = detect_vertebrae failing_segmentator tmp_dir tmp_cleanup "scan.dcm" "cpu" true false
                     scan_world
  /\ ts_roi_subset (segmentator_call (mkDetector "cpu" true) "scan.dcm" "/tmp/tmpq1"
                                     (Some []))
     = VERTEBRAE_LABELS.
Proof.
  destruct (vertebrae_only_changes_nothing failing_segmentator tmp_dir tmp_cleanup
              "scan.dcm" "cpu" true scan_world) as [H [_ Hroi]].
  split; [exact H|].
  destruct (Hroi (mkDetector "cpu" true) "scan.dcm" "/tmp/tmpq1" (Some [])) as [_ Hd].
  apply Hd. now right.
Defined.
